(** * clawlet: channel adapters, channel manager, LLM client, skill installer

    A shallow embedding of the parts of the repository that the
    specification talks about, followed by the theorems that settle the
    specification's claims against it.

    Conventions.
    - A Go [string] / [[]byte] is a Rocq [string], i.e. a sequence of bytes.
    - A Go [int] / [int64] / [time.Duration] is a [Z]; where the source can
      overflow, the wrap-around is written out with [wrap64].
    - A Go [error] is modelled by what the code observes of it
      ([errors.Is], [errors.As], [Error()]).
    - Maps ([map[string]T]) are stdpp [gmap string T]. *)

From Stdlib Require Import ZArith NArith Lia Bool List Ascii String Sorted.
From stdpp Require Import base option list strings gmap.

Local Open Scope Z_scope.

(* ===================================================================== *)
(** * Part I. Definitions                                                 *)
(* ===================================================================== *)

(** ** Go standard-library primitives used by the code *)

Module Go.

(** [time.Duration] constants, in nanoseconds. *)
Definition Millisecond : Z := 1000000.
Definition Second : Z := 1000000000.

(** Two's-complement wrap-around of 64-bit signed arithmetic. *)
Definition wrap64 (x : Z) : Z := (x + 2^63) mod 2^64 - 2^63.

Definition MaxInt64 : Z := 2^63 - 1.
Definition MinInt64 : Z := - 2^63.

Definition code (c : ascii) : N := N_of_ascii c.

(** The six one-byte white-space characters of [strings.TrimSpace]
    (['\t'], ['\n'], ['\v'], ['\f'], ['\r'], [' ']). *)
Definition asciiSpace (c : ascii) : bool :=
  let n := code c in
  ((9 <=? n) && (n <=? 13) || (n =? 32))%N.

(** [unicode.IsSpace] on the two-byte UTF-8 sequences: U+0085, U+00A0. *)
Definition space2 (c d : ascii) : bool :=
  ((code c =? 194) && ((code d =? 133) || (code d =? 160)))%N.

(** [unicode.IsSpace] on the three-byte UTF-8 sequences: U+1680,
    U+2000..U+200A, U+2028, U+2029, U+202F, U+205F, U+3000. *)
Definition space3 (c d e : ascii) : bool :=
  let '(a, b, x) := (code c, code d, code e) in
  ((a =? 225) && (b =? 154) && (x =? 128)
   || (a =? 226) && (b =? 128)
      && ((128 <=? x) && (x <=? 138) || (x =? 168) || (x =? 169) || (x =? 175))
   || (a =? 226) && (b =? 129) && (x =? 159)
   || (a =? 227) && (b =? 128) && (x =? 128))%N.

(** Strip leading white space; the three predicates say which 1-, 2- and
    3-byte sequences are white space. *)
Fixpoint trimLeftBy (p1 : ascii -> bool) (p2 : ascii -> ascii -> bool)
    (p3 : ascii -> ascii -> ascii -> bool) (s : string) : string :=
  match s with
  | EmptyString => s
  | String c r =>
    if p1 c then trimLeftBy p1 p2 p3 r
    else match r with
         | EmptyString => s
         | String d r2 =>
           if p2 c d then trimLeftBy p1 p2 p3 r2
           else match r2 with
                | EmptyString => s
                | String e r3 =>
                  if p3 c d e then trimLeftBy p1 p2 p3 r3 else s
                end
         end
  end.

Fixpoint revOnto (s acc : string) : string :=
  match s with
  | EmptyString => acc
  | String c r => revOnto r (String c acc)
  end.

Definition rev (s : string) : string := revOnto s EmptyString.

Definition TrimLeftSpace (s : string) : string :=
  trimLeftBy asciiSpace space2 space3 s.

(** Trailing white space is leading white space of the reversed string,
    with the byte sequences read backwards. *)
Definition TrimRightSpace (s : string) : string :=
  rev (trimLeftBy asciiSpace (fun c d => space2 d c)
                  (fun c d e => space3 e d c) (rev s)).

(** [strings.TrimSpace]. *)
Definition TrimSpace (s : string) : string := TrimRightSpace (TrimLeftSpace s).

(** [strings.ToLower] on the ASCII letters; other bytes are kept.  (Go maps
    non-ASCII letters through the Unicode tables; the texts the claims are
    about are ASCII.) *)
Definition lowerChar (c : ascii) : ascii :=
  let n := code c in
  if ((65 <=? n) && (n <=? 90))%N then ascii_of_N (n + 32) else c.

Fixpoint ToLower (s : string) : string :=
  match s with
  | EmptyString => EmptyString
  | String c r => String (lowerChar c) (ToLower r)
  end.

(** [strings.HasPrefix s p]. *)
Fixpoint HasPrefix (s p : string) {struct p} : bool :=
  match p, s with
  | EmptyString, _ => true
  | String a p', String b s' => Ascii.eqb a b && HasPrefix s' p'
  | String _ _, EmptyString => false
  end.

(** [strings.Contains s sub]. *)
Fixpoint Contains (s sub : string) : bool :=
  HasPrefix s sub ||
  match s with
  | EmptyString => false
  | String _ r => Contains r sub
  end.

(** [s[n:]] for [n <= len(s)]. *)
Fixpoint drop (n : nat) (s : string) : string :=
  match n, s with
  | O, _ => s
  | S n', String _ r => drop n' r
  | S _, EmptyString => EmptyString
  end.

(** [s[:n]] for [n <= len(s)]. *)
Fixpoint take (n : nat) (s : string) : string :=
  match n, s with
  | O, _ => EmptyString
  | S n', String c r => String c (take n' r)
  | S _, EmptyString => EmptyString
  end.

Definition isEmpty (s : string) : bool := String.eqb s EmptyString.

(** A printable one-byte character that is not white space. *)
Definition plain (c : ascii) : bool := (code c <? 128)%N && negb (asciiSpace c).

Fixpoint allPlain (s : string) : bool :=
  match s with
  | EmptyString => true
  | String c r => plain c && allPlain r
  end.

(** Decimal digits. *)
Definition isDigit (c : ascii) : bool := ((48 <=? code c) && (code c <=? 57))%N.

Fixpoint allDigits (s : string) : bool :=
  match s with
  | EmptyString => true
  | String c r => isDigit c && allDigits r
  end.

Fixpoint digitsValue (acc : Z) (s : string) : Z :=
  match s with
  | EmptyString => acc
  | String c r => digitsValue (10 * acc + (Z.of_N (code c) - 48)) r
  end.

(** [strconv.Atoi] / [strconv.ParseInt(s, 10, 64)]: an optional sign and a
    non-empty run of decimal digits; [None] for a syntax error or a value
    outside the 64-bit range. *)
Definition Atoi (s : string) : option Z :=
  let '(neg, ds) :=
    match s with
    | String c r =>
      if (code c =? 45)%N then (true, r)
      else if (code c =? 43)%N then (false, r)
      else (false, s)
    | EmptyString => (false, s)
    end in
  if isEmpty ds || negb (allDigits ds) then None
  else
    let v := if neg then - digitsValue 0 ds else digitsValue 0 ds in
    if (MinInt64 <=? v) && (v <=? MaxInt64) then Some v else None.

(** [strings.Cut]: the text after the first occurrence of [sep]. *)
Fixpoint cutAfter (s sep : string) : option string :=
  if HasPrefix s sep then Some (drop (String.length sep) s)
  else match s with
       | EmptyString => None
       | String _ r => cutAfter r sep
       end.

End Go.

(** ** The message bus types ([bus.OutboundMessage], [bus.Delivery]) *)

Module Bus.

Record Delivery := {
  MessageID : string;
  ReplyToID : string;
  ThreadID : string;
  IsDirect : bool
}.

Record OutboundMessage := {
  Channel : string;
  ChatID : string;
  Content : string;
  ReplyTo : string;
  Delivery_ : Delivery
}.

End Bus.

(** ** What an adapter does to the outside world while sending *)

Module Adapter.

(** One provider API call, or one completed timer wait between attempts. *)
Inductive event :=
| Call (to text replyTo mode : string)
| Wait (d : Z).

(** [ctx.Err()] once the context is done. *)
Inductive CtxErr := CtxCanceled | CtxDeadlineExceeded.

(** Number of provider calls in a trace. *)
Fixpoint calls (tr : list event) : nat :=
  match tr with
  | [] => O
  | Call _ _ _ _ :: r => S (calls r)
  | Wait _ :: r => calls r
  end.

(** The completed waits of a trace, in order. *)
Fixpoint waits (tr : list event) : list Z :=
  match tr with
  | [] => []
  | Call _ _ _ _ :: r => waits r
  | Wait d :: r => d :: waits r
  end.

End Adapter.

(** ** WhatsApp adapter (webhook handshake and send path) *)

Module WhatsApp.
Import Go Adapter.

(** What [shouldRetryWhatsAppSend] observes of an error: [errors.Is] against
    the two context errors, [errors.As] to [*whatsappHTTPError] (status code,
    RetryAfter) and to [net.Error] (Timeout(), Temporary()). *)
Record SendErr := {
  isCanceled : bool;
  isDeadline : bool;
  asHTTP : option (Z * Z);
  asNet : option (bool * bool)
}.

Inductive result :=
| Nil
| ErrText (msg : string)
| ErrCtx (e : CtxErr)
| ErrSend (e : SendErr).

Definition whatsappSendBackoff (attempt : Z) : Z :=
  let attempt := if attempt <? 1 then 1 else attempt in
  let shift := Z.min (attempt - 1) 4 in
  300 * Millisecond * Z.shiftl 1 shift.

Definition shouldRetryWhatsAppSend (err : SendErr) (attempt : Z) : bool * Z :=
  if isCanceled err || isDeadline err then (false, 0)
  else match asHTTP err with
       | Some (status, retryAfter) =>
         if status =? 429 then
           if 0 <? retryAfter then (true, retryAfter)
           else (true, whatsappSendBackoff attempt)
         else if (500 <=? status) && (status <=? 599) then
           (true, whatsappSendBackoff attempt)
         else (false, 0)
       | None =>
         match asNet err with
         | Some (timeout, temporary) =>
           if timeout || temporary then (true, whatsappSendBackoff attempt)
           else (false, 0)
         | None => (false, 0)
         end
       end.

Definition maxAttempts : Z := 3.

Section SendPath.
(** The outside world: what the [attempt]-th provider call returns
    ([None] is success) and whether the context is done while the timer
    after that attempt runs. *)
Variable provider : Z -> option SendErr.
Variable ctxDone : Z -> option CtxErr.

(** [sendMessage]: [for attempt := 1; attempt <= maxAttempts; attempt++]. *)
Fixpoint sendLoop (fuel : nat) (call : event) (attempt : Z)
  : list event * result :=
  match fuel with
  | O => ([], Nil)
  | S fuel' =>
    if attempt <=? maxAttempts then
      match provider attempt with
      | None => ([call], Nil)
      | Some err =>
        let '(retry, wait) := shouldRetryWhatsAppSend err attempt in
        if negb retry || (attempt =? maxAttempts) then ([call], ErrSend err)
        else match ctxDone attempt with
             | Some e => ([call], ErrCtx e)
             | None =>
               let '(tr, r) := sendLoop fuel' call (attempt + 1) in
               (call :: Wait wait :: tr, r)
             end
      end
    else ([], Nil)
  end.

Definition sendMessage (call : event) : list event * result :=
  sendLoop (Z.to_nat maxAttempts + 1) call 1.

Definition resolveWhatsAppReplyTarget (msg : Bus.OutboundMessage) : string :=
  let a := TrimSpace (Bus.ReplyToID (Bus.Delivery_ msg)) in
  if negb (isEmpty a) then a else
  let b := TrimSpace (Bus.ReplyTo msg) in
  if negb (isEmpty b) then b else EmptyString.

Definition Send (msg : Bus.OutboundMessage) : list event * result :=
  let to := TrimSpace (Bus.ChatID msg) in
  if isEmpty to then ([], ErrText "chat_id is empty")
  else
    let content := TrimSpace (Bus.Content msg) in
    if isEmpty content then ([], Nil)
    else sendMessage (Call to content (resolveWhatsAppReplyTarget msg) "text").

End SendPath.

(** The HTTP response written by a webhook handler. *)
Record response := {
  status : Z;
  contentType : string;
  body : string
}.

(** [http.Error(w, msg, code)]. *)
Definition httpError (msg : string) (code : Z) : response :=
  {| status := code;
     contentType := "text/plain; charset=utf-8";
     body := msg +:+ String (ascii_of_N 10) EmptyString |}.

(** [handleVerify]; [mode], [token], [challenge] are the values of the query
    parameters [hub.mode], [hub.verify_token], [hub.challenge] (empty when
    absent), [cfgVerifyToken] is [c.cfg.VerifyToken]. *)
Definition handleVerify (cfgVerifyToken mode token challenge : string) : response :=
  let verifyToken := TrimSpace cfgVerifyToken in
  let mode := TrimSpace mode in
  let token := TrimSpace token in
  if negb (String.eqb mode "subscribe") || isEmpty token
     || negb (String.eqb token verifyToken)
  then httpError "forbidden" 403
  else {| status := 200;
          contentType := "text/plain; charset=utf-8";
          body := challenge |}.

(** The specification's vocabulary for send errors, read off the same
    observations. *)
Definition contextEnded (err : SendErr) : bool := isCanceled err || isDeadline err.

Definition rateLimited (err : SendErr) : bool :=
  match asHTTP err with Some (code, _) => code =? 429 | None => false end.

Definition carriedRetryAfter (err : SendErr) : Z :=
  match asHTTP err with Some (_, retryAfter) => retryAfter | None => 0 end.

Definition serverError (err : SendErr) : bool :=
  match asHTTP err with
  | Some (code, _) => (500 <=? code) && (code <=? 599)
  | None => false
  end.

Definition transientNet (err : SendErr) : bool :=
  match asHTTP err, asNet err with
  | None, Some (timeout, temporary) => timeout || temporary
  | _, _ => false
  end.

End WhatsApp.

(** ** Discord adapter (send path) *)

Module Discord.
Import Go Adapter.

(** What [shouldRetryDiscordSend] observes: the context errors,
    [*discordgo.RateLimitError] (RetryAfter), [*discordgo.RESTError] (its
    Response's status code, [None] for a nil Response), [net.Error]. *)
Record SendErr := {
  isCanceled : bool;
  isDeadline : bool;
  asRateLimit : option Z;
  asREST : option (option Z);
  asNet : option (bool * bool)
}.

Inductive result :=
| Nil
| ErrText (msg : string)
| ErrCtx (e : CtxErr)
| ErrSend (e : SendErr).

Definition discordSendBackoff (attempt : Z) : Z :=
  let attempt := if attempt <? 1 then 1 else attempt in
  let shift := Z.min (attempt - 1) 4 in
  300 * Millisecond * Z.shiftl 1 shift.

Definition netRetry (err : SendErr) (attempt : Z) : bool * Z :=
  match asNet err with
  | Some (timeout, temporary) =>
    if timeout || temporary then (true, discordSendBackoff attempt)
    else (false, 0)
  | None => (false, 0)
  end.

Definition shouldRetryDiscordSend (err : SendErr) (attempt : Z) : bool * Z :=
  if isCanceled err || isDeadline err then (false, 0)
  else match asRateLimit err with
       | Some retryAfter =>
         if 0 <? retryAfter then (true, retryAfter)
         else (true, discordSendBackoff attempt)
       | None =>
         match asREST err with
         | Some (Some code) =>
           if (code =? 429) || ((500 <=? code) && (code <=? 599))
           then (true, discordSendBackoff attempt)
           else (false, 0)
         | _ => netRetry err attempt
         end
       end.

Definition maxAttempts : Z := 3.

Section SendPath.
Variable provider : Z -> option SendErr.
(** [ctxDone 0] is the check before the first call, [ctxDone n] the one
    while the timer after attempt [n] runs. *)
Variable ctxDone : Z -> option CtxErr.
(** Whether [c.dg] is set (the gateway session is open). *)
Variable connected : bool.

Fixpoint sendLoop (fuel : nat) (call : event) (attempt : Z)
  : list event * result :=
  match fuel with
  | O => ([], Nil)
  | S fuel' =>
    if attempt <=? maxAttempts then
      match provider attempt with
      | None => ([call], Nil)
      | Some err =>
        let '(retry, wait) := shouldRetryDiscordSend err attempt in
        if negb retry || (attempt =? maxAttempts) then ([call], ErrSend err)
        else match ctxDone attempt with
             | Some e => ([call], ErrCtx e)
             | None =>
               let '(tr, r) := sendLoop fuel' call (attempt + 1) in
               (call :: Wait wait :: tr, r)
             end
      end
    else ([], Nil)
  end.

Definition resolveDiscordReplyTarget (msg : Bus.OutboundMessage) : string :=
  let replyTo := TrimSpace (Bus.ReplyToID (Bus.Delivery_ msg)) in
  if negb (isEmpty replyTo) then replyTo else TrimSpace (Bus.ReplyTo msg).

Definition Send (msg : Bus.OutboundMessage) : list event * result :=
  let chID := TrimSpace (Bus.ChatID msg) in
  if isEmpty chID then ([], ErrText "chat_id is empty")
  else
    let content := TrimSpace (Bus.Content msg) in
    if isEmpty content then ([], Nil)
    else if negb connected then ([], ErrText "discord not connected")
    else match ctxDone 0 with
         | Some e => ([], ErrCtx e)
         | None =>
           sendLoop (Z.to_nat maxAttempts + 1)
                    (Call chID content (resolveDiscordReplyTarget msg) EmptyString)
                    1
         end.

End SendPath.

(** The specification's vocabulary for send errors, read off the same
    observations. *)
Definition contextEnded (err : SendErr) : bool := isCanceled err || isDeadline err.

Definition rateLimited (err : SendErr) : bool :=
  match asRateLimit err, asREST err with
  | Some _, _ => true
  | None, Some (Some code) => code =? 429
  | None, _ => false
  end.

Definition carriedRetryAfter (err : SendErr) : Z :=
  match asRateLimit err with Some retryAfter => retryAfter | None => 0 end.

Definition serverError (err : SendErr) : bool :=
  match asRateLimit err, asREST err with
  | None, Some (Some code) => (500 <=? code) && (code <=? 599)
  | _, _ => false
  end.

Definition transientNet (err : SendErr) : bool :=
  match asRateLimit err, asREST err, asNet err with
  | None, Some (Some _), _ => false
  | None, _, Some (timeout, temporary) => timeout || temporary
  | _, _, _ => false
  end.

End Discord.

(** ** Telegram adapter (send path) *)

Module Telegram.
Import Go Adapter.

(** What the Telegram send path observes of an error: the context errors,
    [*tgbot.TooManyRequestsError] (RetryAfter, in seconds), [net.Error], and
    the text of [Error()]. *)
Record SendErr := {
  isCanceled : bool;
  isDeadline : bool;
  asTooMany : option Z;
  asNet : option (bool * bool);
  text : string
}.

Inductive result :=
| Nil
| ErrText (msg : string)
| ErrCtx (e : CtxErr)
| ErrSend (e : SendErr).

Definition telegramSendBackoff (attempt : Z) : Z :=
  let attempt := if attempt <? 1 then 1 else attempt in
  let shift := Z.min (attempt - 1) 4 in
  300 * Millisecond * Z.shiftl 1 shift.

Definition isTelegram5xxError (err : SendErr) : bool :=
  match cutAfter (text err) "sendMessage, " with
  | None => false
  | Some rest =>
    if (String.length rest <? 3)%nat then false
    else match Atoi (take 3 rest) with
         | None => false
         | Some code => (500 <=? code) && (code <=? 599)
         end
  end.

Definition isTelegramParseError (err : SendErr) : bool :=
  let msg := ToLower (text err) in
  Contains msg "can't parse entities"
  || (Contains msg "parse entities" && Contains msg " 400 ").

Definition shouldRetryTelegramSend (err : SendErr) (attempt : Z) : bool * Z :=
  if isCanceled err || isDeadline err then (false, 0)
  else match asTooMany err with
       | Some retryAfter =>
         if 0 <? retryAfter then (true, wrap64 (retryAfter * Second))
         else (true, telegramSendBackoff attempt)
       | None =>
         match asNet err with
         | Some (true, _) | Some (_, true) => (true, telegramSendBackoff attempt)
         | _ =>
           if isTelegram5xxError err then (true, telegramSendBackoff attempt)
           else (false, 0)
         end
       end.

Definition maxAttempts : Z := 3.

Section SendPath.
(** [provider n] is the outcome of the [n]-th [SendMessage] call of this
    [Send] (counted from 1 across both retry loops); [ctxDone n] says whether
    the context is done while the timer after that call runs. *)
Variable provider : Z -> option SendErr.
Variable ctxDone : Z -> option CtxErr.
Variable connected : bool.
(** The Markdown-to-HTML renderer lives outside the files at hand. *)
Variable markdownToTelegramHTML : string -> string.

(** [sendMessageWithRetry]; [n] counts the provider calls made so far. *)
Fixpoint sendLoop (fuel : nat) (call : event) (n attempt : Z)
  : list event * result * Z :=
  match fuel with
  | O => ([], Nil, n)
  | S fuel' =>
    if attempt <=? maxAttempts then
      match provider (n + 1) with
      | None => ([call], Nil, n + 1)
      | Some err =>
        let '(retry, wait) := shouldRetryTelegramSend err attempt in
        if negb retry || (attempt =? maxAttempts) then ([call], ErrSend err, n + 1)
        else match ctxDone (n + 1) with
             | Some e => ([call], ErrCtx e, n + 1)
             | None =>
               let '(tr, r, n') := sendLoop fuel' call (n + 1) (attempt + 1) in
               (call :: Wait wait :: tr, r, n')
             end
      end
    else ([], Nil, n)
  end.

Definition sendMessageWithRetry (call : event) (n : Z) : list event * result * Z :=
  sendLoop (Z.to_nat maxAttempts + 1) call n 1.

Definition positiveInt (c : string) : bool :=
  match Atoi c with
  | Some n => 0 <? n
  | None => false
  end.

(** [resolveTelegramReplyTarget], as the decimal text of the message id
    (empty for 0). *)
Definition resolveTelegramReplyTarget (msg : Bus.OutboundMessage) : string :=
  let a := TrimSpace (Bus.ReplyToID (Bus.Delivery_ msg)) in
  let b := TrimSpace (Bus.ReplyTo msg) in
  if negb (isEmpty a) && positiveInt a then a
  else if negb (isEmpty b) && positiveInt b then b
  else EmptyString.

Definition Send (msg : Bus.OutboundMessage) : list event * result :=
  let text := TrimSpace (Bus.Content msg) in
  if isEmpty text then ([], Nil)
  else
    let chatID := TrimSpace (Bus.ChatID msg) in
    if isEmpty chatID then ([], ErrText "chat_id is empty")
    else if negb connected then ([], ErrText "telegram not connected")
    else
      let reply := resolveTelegramReplyTarget msg in
      let '(tr, r, n) :=
        sendMessageWithRetry (Call chatID (markdownToTelegramHTML text) reply "HTML") 0 in
      match r with
      | ErrSend err =>
        if isTelegramParseError err then
          let '(tr2, r2, _) := sendMessageWithRetry (Call chatID text reply EmptyString) n in
          (tr ++ tr2, r2)
        else (tr, r)
      | _ => (tr, r)
      end.

End SendPath.

(** The specification's vocabulary for send errors, read off the same
    observations. *)
Definition contextEnded (err : SendErr) : bool := isCanceled err || isDeadline err.

Definition rateLimited (err : SendErr) : bool :=
  match asTooMany err with Some _ => true | None => false end.

Definition carriedRetryAfter (err : SendErr) : Z :=
  match asTooMany err with Some retryAfter => retryAfter | None => 0 end.

Definition transientNet (err : SendErr) : bool :=
  match asTooMany err, asNet err with
  | None, Some (timeout, temporary) => timeout || temporary
  | _, _ => false
  end.

Definition serverError (err : SendErr) : bool :=
  match asTooMany err with
  | None => isTelegram5xxError err
  | Some _ => false
  end.

End Telegram.

(** ** Channel manager *)

Module Manager.

(** What the manager observes of an error returned by a channel:
    [errors.Is(err, context.Canceled)] and [err.Error()]. *)
Record ChanErr := {
  isCanceled : bool;
  errText : string
}.

(** A registered adapter, by the behaviour the manager relies on: its
    [Name()], and what [Start], [Stop] and [Send] return ([None] is nil). *)
Record Channel := {
  chName : string;
  chStart : option ChanErr;
  chStop : option ChanErr;
  chSend : Bus.OutboundMessage -> option ChanErr
}.

Record Manager := {
  channels : gmap string Channel;
  running : bool;
  stopOnce : bool;                 (* the [sync.Once] has fired *)
  lastErrorByChannel : gmap string string
}.

(** Calls made on adapters (and goroutines spawned), in order. *)
Inductive event :=
| SpawnDispatcher
| StartCall (name : string)
| StopCall (name : string)
| SendCall (name : string) (msg : Bus.OutboundMessage).

Definition NewManager : Manager :=
  {| channels := ∅; running := false; stopOnce := false;
     lastErrorByChannel := ∅ |}.

Definition withErrors (m : Manager) (e : gmap string string) : Manager :=
  {| channels := channels m; running := running m; stopOnce := stopOnce m;
     lastErrorByChannel := e |}.

(** [Add]; a nil channel is [None]. *)
Definition Add (ch : option Channel) (m : Manager) : Manager :=
  match ch with
  | None => m
  | Some ch =>
    {| channels := <[chName ch := ch]> (channels m); running := running m;
       stopOnce := stopOnce m; lastErrorByChannel := lastErrorByChannel m |}
  end.

Definition setChannelError (name msg : string) (m : Manager) : Manager :=
  if Go.isEmpty name then m
  else if Go.isEmpty msg then withErrors m (delete name (lastErrorByChannel m))
  else withErrors m (<[name := msg]> (lastErrorByChannel m)).

(** The goroutine body of [StartAll] once [ch.Start] has returned. *)
Definition startExited (ch : Channel) (m : Manager) : Manager :=
  match chStart ch with
  | None => m
  | Some err =>
    if isCanceled err then m else setChannelError (chName ch) (errText err) m
  end.

(** The two loops over the snapshot [chs]. *)
Fixpoint startEach (chs : list Channel) (m : Manager) : Manager * list event :=
  match chs with
  | [] => (m, [])
  | ch :: rest =>
    let m1 := setChannelError (chName ch) EmptyString m in
    let '(m2, ev) := startEach rest m1 in
    (m2, StartCall (chName ch) :: ev)
  end.

Fixpoint stopEach (chs : list Channel) (m : Manager) : Manager * list event :=
  match chs with
  | [] => (m, [])
  | ch :: rest =>
    let m1 := match chStop ch with
              | Some err => setChannelError (chName ch) (errText err) m
              | None => m
              end in
    let '(m2, ev) := stopEach rest m1 in
    (m2, StopCall (chName ch) :: ev)
  end.

(** The snapshot [chs] taken under the lock (Go ranges over the map in an
    unspecified order; here it is the order of [map_to_list]). *)
Definition snapshot (m : Manager) : list Channel :=
  (map_to_list (channels m)).*2.

Definition StartAll (m : Manager) : Manager * list event :=
  if running m then (m, [])
  else
    let m1 := {| channels := channels m; running := true;
                 stopOnce := stopOnce m;
                 lastErrorByChannel := lastErrorByChannel m |} in
    let '(m2, ev) := startEach (snapshot m1) m1 in
    (m2, SpawnDispatcher :: ev).

(** [StopAll]; the last component is the returned error, always nil. *)
Definition StopAll (m : Manager) : Manager * list event * option ChanErr :=
  if stopOnce m then (m, [], None)
  else
    let m1 := {| channels := channels m; running := false;
                 stopOnce := true;
                 lastErrorByChannel := lastErrorByChannel m |} in
    let '(m2, ev) := stopEach (snapshot m1) m1 in
    (m2, ev, None).

(** One iteration of [dispatchOutbound] for a consumed message. *)
Definition dispatchOne (msg : Bus.OutboundMessage) (m : Manager)
  : Manager * list event :=
  match channels m !! Bus.Channel msg with
  | None => (m, [])
  | Some ch =>
    match chSend ch msg with
    | Some err =>
      if negb (isCanceled err)
      then (setChannelError (Bus.Channel msg) (errText err) m,
            [SendCall (chName ch) msg])
      else (m, [SendCall (chName ch) msg])
    | None => (m, [SendCall (chName ch) msg])
    end
  end.

(** [dispatchOutbound] over the messages it consumes before the context
    ends. *)
Fixpoint dispatchOutbound (msgs : list Bus.OutboundMessage) (m : Manager)
  : Manager * list event :=
  match msgs with
  | [] => (m, [])
  | msg :: rest =>
    let '(m1, ev1) := dispatchOne msg m in
    let '(m2, ev2) := dispatchOutbound rest m1 in
    (m2, ev1 ++ ev2)
  end.

(** The operations a client of the manager can interleave. *)
Inductive op :=
| OpAdd (ch : option Channel)
| OpStartAll
| OpStopAll
| OpStartExited (ch : Channel)
| OpDispatch (msg : Bus.OutboundMessage).

Definition step (o : op) (m : Manager) : Manager * list event :=
  match o with
  | OpAdd ch => (Add ch m, [])
  | OpStartAll => StartAll m
  | OpStopAll => (StopAll m).1
  | OpStartExited ch => (startExited ch m, [])
  | OpDispatch msg => dispatchOne msg m
  end.

Fixpoint run (ops : list op) (m : Manager) : Manager * list event :=
  match ops with
  | [] => (m, [])
  | o :: rest =>
    let '(m1, ev1) := step o m in
    let '(m2, ev2) := run rest m1 in
    (m2, ev1 ++ ev2)
  end.

Definition isStop (e : event) : bool :=
  match e with StopCall _ => true | _ => false end.

Definition isSend (e : event) : bool :=
  match e with SendCall _ _ => true | _ => false end.

End Manager.

(** ** LLM client: pacing and retries *)

Module LLM.
Import Go.

(** Case-insensitive [HasPrefix] (ASCII folding), for the [(?i)] regexp. *)
Fixpoint HasPrefixFold (s p : string) {struct p} : bool :=
  match p, s with
  | EmptyString, _ => true
  | String a p', String b s' =>
    Ascii.eqb (lowerChar a) (lowerChar b) && HasPrefixFold s' p'
  | String _ _, EmptyString => false
  end.

(** The longest run of decimal digits at the front of [s], and the rest. *)
Fixpoint spanDigits (s : string) : string * string :=
  match s with
  | EmptyString => (EmptyString, EmptyString)
  | String c r =>
    if isDigit c then let '(ds, rest) := spanDigits r in (String c ds, rest)
    else (EmptyString, s)
  end.

(** [(?i)reset after (\d+)s] anchored at the front of [s]: the captured
    digits. *)
Definition matchResetHere (s : string) : option string :=
  if HasPrefixFold s "reset after " then
    let '(ds, rest) := spanDigits (drop 12 s) in
    if negb (isEmpty ds) && HasPrefixFold rest "s" then Some ds else None
  else None.

(** [retryAfterRegex.FindStringSubmatch(s)]: the capture group of the
    leftmost match. *)
Fixpoint retryAfterRegex (s : string) : option string :=
  match matchResetHere s with
  | Some ds => Some ds
  | None =>
    match s with
    | EmptyString => None
    | String _ r => retryAfterRegex r
    end
  end.

(** [1 << k] on a 64-bit [int], for [k >= 0]. *)
Definition shl1 (k : Z) : Z := if 64 <=? k then 0 else wrap64 (2 ^ k).

Definition computeWaitDuration (errStr : string) (try : Z) : Z :=
  let exponential := wrap64 (shl1 (try + 1) * Second) in
  match retryAfterRegex errStr with
  | Some ds =>
    match Atoi ds with
    | Some s => wrap64 (wrap64 (s + 1) * Second)
    | None => exponential
    end
  | None => exponential
  end.

Definition isRateLimit (errStr : string) : bool :=
  Contains errStr "429" || Contains errStr "rate limit"
  || Contains errStr "resource_exhausted".

Definition isTimeout (errStr : string) : bool :=
  Contains errStr "timeout" || Contains errStr "deadline exceeded".

(** [time.Time]: the zero value, or a reading of the monotonic clock in
    nanoseconds. *)
Definition Time := option Z.

(** [t.Sub(u)] for a clock reading [t]: saturating; the zero [Time] lies
    more than the largest [Duration] in the past. *)
Definition Sub (t : Z) (u : Time) : Z :=
  match u with
  | None => MaxInt64
  | Some u => Z.max MinInt64 (Z.min MaxInt64 (t - u))
  end.

Record Client := {
  Cooldown : Z;
  MaxRetries : Z;
  lastReqAt : Time
}.

Inductive event :=
| Attempt (try : Z)       (* one [doChat], i.e. one upstream request *)
| Wait (d : Z).           (* one completed [time.After(wait)] *)

Inductive outcome (R : Type) :=
| Ok (res : R)
| Fail (err : string)
| CtxErr (e : Adapter.CtxErr).
Arguments Ok {R} res.
Arguments Fail {R} err.
Arguments CtxErr {R} e.

Section Chat.
Context {R : Type}.
(** [doChat try] is what the upstream answers to the request of attempt
    [try]: a result, or an error by its text.  [ctxDone try] says whether the
    caller's context ends during the wait that follows attempt [try]. *)
Variable doChat : Z -> R + string.
Variable ctxDone : Z -> option Adapter.CtxErr.

(** The retry loop of [Chat]: [for try := 0; try <= maxTries; try++]. *)
Fixpoint chatLoop (fuel : nat) (maxTries try : Z) (last : outcome R)
  : list event * outcome R :=
  match fuel with
  | O => ([], last)
  | S fuel' =>
    if try <=? maxTries then
      match doChat try with
      | inl res => ([Attempt try], Ok res)
      | inr err =>
        let errStr := ToLower err in
        if (isRateLimit errStr || isTimeout errStr) && (try <? maxTries) then
          let wait := computeWaitDuration errStr try in
          match ctxDone try with
          | Some e => ([Attempt try], CtxErr e)
          | None =>
            let '(tr, o) := chatLoop fuel' maxTries (try + 1) (Fail err) in
            (Attempt try :: Wait wait :: tr, o)
          end
        else ([Attempt try], Fail err)
      end
    else ([], last)
  end.

Definition maxTries (c : Client) : Z :=
  if MaxRetries c <=? 0 then 3 else MaxRetries c.

Definition cooldown (c : Client) : Z :=
  if Cooldown c <=? 0 then 1 * Second else Cooldown c.

(** How the clock moves during one [Chat]: time passed since the previous
    event when [Chat] reads the clock, how much longer than asked
    [time.Sleep] sleeps, the time between waking up and the second clock
    reading, and the time the request and its retries take. *)
Record Timing := {
  before : Z;
  oversleep : Z;
  lag : Z;
  duration : Z
}.

Definition validTiming (t : Timing) : Prop :=
  0 <= before t /\ 0 <= oversleep t /\ 0 <= lag t /\ 0 <= duration t.

(** [Chat], with the clock threaded through: returns the clock at return,
    the client with [lastReqAt] updated, the trace of the retry loop and its
    outcome. *)
Definition Chat (t : Timing) (clk : Z) (c : Client)
  : Z * Client * list event * outcome R :=
  let cooldown := cooldown c in
  let now := clk + before t in
  let elapsed := Sub now (lastReqAt c) in
  let woke :=
    if elapsed <? cooldown
    then now + Z.max 0 (wrap64 (cooldown - elapsed)) + oversleep t
    else now in
  let start := woke + lag t in
  let c' := {| Cooldown := Cooldown c; MaxRetries := MaxRetries c;
               lastReqAt := Some start |} in
  let maxTries := maxTries c in
  let '(tr, o) := chatLoop (Z.to_nat (maxTries + 1)) maxTries 0 (Fail EmptyString) in
  (start + duration t, c', tr, o).

End Chat.

(** A sequence of [Chat] calls on one client; the recorded start
    ([lastReqAt]) of each, in order. *)
Fixpoint starts {R : Type} (doChat : Z -> R + string)
    (ctxDone : Z -> option Adapter.CtxErr)
    (ts : list Timing) (clk : Z) (c : Client) : list Z :=
  match ts with
  | [] => []
  | t :: rest =>
    let '(clk', c', _, _) := Chat doChat ctxDone t clk c in
    match lastReqAt c' with
    | Some s => s :: starts doChat ctxDone rest clk' c'
    | None => starts doChat ctxDone rest clk' c'
    end
  end.

Fixpoint attempts (tr : list event) : nat :=
  match tr with
  | [] => O
  | Attempt _ :: r => S (attempts r)
  | Wait _ :: r => attempts r
  end.

Fixpoint waits (tr : list event) : list Z :=
  match tr with
  | [] => []
  | Attempt _ :: r => waits r
  | Wait d :: r => d :: waits r
  end.

(** Every later element of [l] is at least [d] above every earlier one. *)
Fixpoint spaced (d : Z) (l : list Z) : Prop :=
  match l with
  | [] => True
  | x :: r => Forall (fun y => d <= y - x) r /\ spaced d r
  end.

(** The error texts [Chat] retries on. *)
Definition retryable (err : string) : bool :=
  isRateLimit (ToLower err) || isTimeout (ToLower err).

End LLM.

(** ** LLM client: when the upstream requests of one [Chat] start *)

Module LLMTimeline.
Import LLM.

(** The start times of the attempts of a trace that begins at [now], when
    attempt [k] takes [took k] and every [time.After(wait)] fires exactly
    when due. *)
Fixpoint requestStarts (took : Z -> Z) (now : Z) (tr : list event) : list Z :=
  match tr with
  | [] => []
  | Attempt k :: r => now :: requestStarts took (now + took k) r
  | Wait d :: r => requestStarts took (now + d) r
  end.

End LLMTimeline.

(** ** LLM client: which operations take the mutex *)

Module LLMSync.

(** What a goroutine does to the client's mutex and to the upstream. *)
Inductive action :=
| Lock          (* c.mu.Lock() *)
| Unlock        (* the deferred c.mu.Unlock() *)
| ReqBegin      (* an upstream HTTP request is sent *)
| ReqEnd.       (* its response (or error) has arrived *)

(** The client's public operations: [Chat] with the number of attempts its
    retry loop ends up making, [ListModels] (which goes upstream only for
    the OpenAI-compatible providers), [ProbeModel]. *)
Inductive operation :=
| OpChat (attempts : nat)
| OpListModels (remote : bool)
| OpProbeModel.

Fixpoint requests (n : nat) : list action :=
  match n with
  | O => []
  | S n' => ReqBegin :: ReqEnd :: requests n'
  end.

(** The actions of each operation, in program order.  [Chat] locks first
    and unlocks on return; [ListModels] calls [listOpenAICompatible]
    directly; [ProbeModel] copies the client and calls [doChat] on the copy. *)
Definition program (o : operation) : list action :=
  match o with
  | OpChat n => Lock :: requests n ++ [Unlock]
  | OpListModels remote => if remote then requests 1 else []
  | OpProbeModel => requests 1
  end.

(** A goroutine: whether it holds the mutex, whether it has a request in
    flight, and what is left to do. *)
Record thread := {
  held : bool;
  flying : bool;
  todo : list action
}.

Record state := {
  mutex : bool;               (* locked? *)
  threads : list thread
}.

Definition spawn (ops : list operation) : thread :=
  {| held := false; flying := false; todo := concat (map program ops) |}.

Definition initial (work : list (list operation)) : state :=
  {| mutex := false; threads := map spawn work |}.

(** One step of one goroutine; [None] when it is blocked on the mutex or
    has finished. *)
Definition threadStep (mu : bool) (t : thread) : option (bool * thread) :=
  match todo t with
  | [] => None
  | Lock :: r =>
    if mu then None
    else Some (true, {| held := true; flying := flying t; todo := r |})
  | Unlock :: r =>
    if mu then Some (false, {| held := false; flying := flying t; todo := r |})
    else None
  | ReqBegin :: r => Some (mu, {| held := held t; flying := true; todo := r |})
  | ReqEnd :: r => Some (mu, {| held := held t; flying := false; todo := r |})
  end.

(** The scheduler lets goroutine [i] take a step. *)
Definition stepAt (i : nat) (st : state) : option state :=
  t ← threads st !! i;
  '(mu, t') ← threadStep (mutex st) t;
  Some {| mutex := mu; threads := <[i := t']> (threads st) |}.

Fixpoint runSchedule (sched : list nat) (st : state) : option state :=
  match sched with
  | [] => Some st
  | i :: rest => st' ← stepAt i st; runSchedule rest st'
  end.

Fixpoint count (p : thread -> bool) (l : list thread) : nat :=
  match l with
  | [] => O
  | t :: r => (if p t then 1 else 0) + count p r
  end.

(** Number of upstream requests in flight. *)
Definition inflight (st : state) : nat := count flying (threads st).

(** In what remains to do, every request is made while holding the mutex. *)
Fixpoint guarded (h f : bool) (p : list action) : bool :=
  match p with
  | [] => negb f
  | Lock :: r => negb h && negb f && guarded true false r
  | Unlock :: r => h && negb f && guarded false false r
  | ReqBegin :: r => h && negb f && guarded h true r
  | ReqEnd :: r => h && f && guarded h false r
  end.

(** The invariant of the [Chat]-only runs: every goroutine's remaining
    program is guarded, and the mutex is locked exactly when one goroutine
    holds it. *)
Definition inv (st : state) : Prop :=
  Forall (fun t => guarded (held t) (flying t) (todo t) = true) (threads st)
  /\ count held (threads st) = (if mutex st then 1 else 0)%nat.

End LLMSync.

(** ** HMAC-SHA256, hex, constant-time compare (Go's crypto and encoding
    packages, as the signature check uses them) *)

Module Crypto.
Import Go.

Definition bytesOf (s : string) : list Z :=
  map (fun c => Z.of_N (code c)) (list_ascii_of_string s).

Definition stringOf (bs : list Z) : string :=
  string_of_list_ascii (map (fun b => ascii_of_N (Z.to_N b)) bs).

Definition mask32 (x : Z) : Z := Z.land x 0xffffffff.
Definition add32 (x y : Z) : Z := mask32 (x + y).
Definition rotr (n x : Z) : Z :=
  Z.lor (Z.shiftr x n) (mask32 (Z.shiftl x (32 - n))).

(** The first 64 primes. *)
Definition isPrime (n : Z) : bool :=
  forallb (fun d => negb (n mod d =? 0)) (seqZ 2 (n - 2)).

Definition primes64 : list Z :=
  Eval vm_compute in List.filter isPrime (seqZ 2 310).

(** Integer cube root, one bit at a time. *)
Fixpoint cubeRoot (bits : nat) (n r : Z) : Z :=
  match bits with
  | O => r
  | S b =>
    let c := r + 2 ^ Z.of_nat b in
    if c * c * c <=? n then cubeRoot b n c else cubeRoot b n r
  end.

(** The round constants: the first 32 bits of the fractional parts of the
    cube roots of the first 64 primes (FIPS 180-4, 4.2.2). *)
Definition K256 : list Z :=
  Eval vm_compute in map (fun p => cubeRoot 40 (p * 2 ^ 96) 0 mod 2 ^ 32) primes64.

(** The initial hash value: the same of the square roots of the first 8
    primes (FIPS 180-4, 5.3.3). *)
Definition H256 : list Z :=
  Eval vm_compute in map (fun p => Z.sqrt (p * 2 ^ 64) mod 2 ^ 32) (firstn 8 primes64).

Definition Ch (x y z : Z) : Z := Z.lxor (Z.land x y) (Z.land (mask32 (Z.lnot x)) z).
Definition Maj (x y z : Z) : Z :=
  Z.lxor (Z.lxor (Z.land x y) (Z.land x z)) (Z.land y z).
Definition bigSigma0 (x : Z) : Z := Z.lxor (Z.lxor (rotr 2 x) (rotr 13 x)) (rotr 22 x).
Definition bigSigma1 (x : Z) : Z := Z.lxor (Z.lxor (rotr 6 x) (rotr 11 x)) (rotr 25 x).
Definition sigma0 (x : Z) : Z := Z.lxor (Z.lxor (rotr 7 x) (rotr 18 x)) (Z.shiftr x 3).
Definition sigma1 (x : Z) : Z := Z.lxor (Z.lxor (rotr 17 x) (rotr 19 x)) (Z.shiftr x 10).

(** Big-endian bytes of a word of [n] bytes. *)
Fixpoint beBytes (n : nat) (x : Z) : list Z :=
  match n with
  | O => []
  | S n' => beBytes n' (Z.shiftr x 8) ++ [Z.land x 0xff]
  end.

Definition beWord (bs : list Z) : Z := fold_left (fun acc b => acc * 256 + b) bs 0.

(** The padded message: a 1 bit, zeros up to 56 mod 64, the bit length. *)
Definition pad (msg : list Z) : list Z :=
  let len := Z.of_nat (List.length msg) in
  let zeros := Z.to_nat ((55 - len) mod 64) in
  msg ++ [0x80] ++ repeat 0 zeros ++ beBytes 8 (8 * len).

Fixpoint chunks (fuel : nat) (size : nat) (bs : list Z) : list (list Z) :=
  match fuel with
  | O => []
  | S fuel' =>
    match bs with
    | [] => []
    | _ => firstn size bs :: chunks fuel' size (skipn size bs)
    end
  end.

(** The message schedule, most recent word first. *)
Fixpoint schedule (n : nat) (w : list Z) : list Z :=
  match n with
  | O => w
  | S n' =>
    let next := add32 (add32 (sigma1 (nth 1 w 0)) (nth 6 w 0))
                      (add32 (sigma0 (nth 14 w 0)) (nth 15 w 0)) in
    schedule n' (next :: w)
  end.

Definition round (st : list Z) (kw : Z * Z) : list Z :=
  match st with
  | [a; b; c; d; e; f; g; h] =>
    let t1 := add32 (add32 (add32 h (bigSigma1 e)) (add32 (Ch e f g) (fst kw))) (snd kw) in
    let t2 := add32 (bigSigma0 a) (Maj a b c) in
    [add32 t1 t2; a; b; c; add32 d t1; e; f; g]
  | _ => st
  end.

Fixpoint zip2 (xs ys : list Z) : list (Z * Z) :=
  match xs, ys with
  | x :: xs', y :: ys' => (x, y) :: zip2 xs' ys'
  | _, _ => []
  end.

Definition compress (h : list Z) (block : list Z) : list Z :=
  let w0 := map beWord (chunks 16 4 block) in
  let w := List.rev (schedule 48 (List.rev w0)) in
  let st := fold_left round (zip2 K256 w) h in
  map (fun p => add32 (fst p) (snd p)) (zip2 h st).

Definition sha256 (msg : list Z) : list Z :=
  let blocks := chunks (S (List.length msg)) 64 (pad msg) in
  flat_map (beBytes 4) (fold_left compress blocks H256).

(** [hmac.New(sha256.New, key)], [Write(msg)], [Sum(nil)] (RFC 2104). *)
Definition hmac_sha256_bytes (key msg : list Z) : list Z :=
  let k := if (64 <? List.length key)%nat then sha256 key else key in
  let k := k ++ repeat 0 (64 - List.length k) in
  sha256 (map (Z.lxor 0x5c) k ++ sha256 (map (Z.lxor 0x36) k ++ msg)).

Definition hmac_sha256 (key msg : string) : string :=
  stringOf (hmac_sha256_bytes (bytesOf key) (bytesOf msg)).

Definition hexDigit (n : N) : ascii :=
  ascii_of_N (if (n <? 10)%N then 48 + n else 87 + n).

(** [hex.EncodeToString]. *)
Fixpoint EncodeToString (s : string) : string :=
  match s with
  | EmptyString => EmptyString
  | String c r =>
    String (hexDigit (code c / 16)) (String (hexDigit (code c mod 16)) (EncodeToString r))
  end.

Definition fromHexChar (c : ascii) : option N :=
  let n := code c in
  if ((48 <=? n) && (n <=? 57))%N then Some (n - 48)%N
  else if ((97 <=? n) && (n <=? 102))%N then Some (n - 87)%N
  else if ((65 <=? n) && (n <=? 70))%N then Some (n - 55)%N
  else None.

(** [hex.DecodeString]: [None] for a character that is not a hex digit or
    for an odd length. *)
Fixpoint DecodeString (s : string) : option string :=
  match s with
  | EmptyString => Some EmptyString
  | String _ EmptyString => None
  | String a (String b r) =>
    match fromHexChar a, fromHexChar b, DecodeString r with
    | Some x, Some y, Some t => Some (String (ascii_of_N (16 * x + y)) t)
    | _, _, _ => None
    end
  end.

(** [subtle.ConstantTimeCompare(x, y) == 1]. *)
Definition ConstantTimeCompare (x y : string) : bool := String.eqb x y.

End Crypto.

(** ** WhatsApp webhook signature check *)

Module WhatsAppSig.
Import Go Crypto.

Definition prefix : string := "sha256=".

Definition verifyWhatsAppSignature (appSecret body header : string) : bool :=
  let appSecret := TrimSpace appSecret in
  if isEmpty appSecret then true
  else
    let header := TrimSpace header in
    if negb (HasPrefix (ToLower header) prefix) then false
    else
      let givenHex := TrimSpace (drop (String.length prefix) header) in
      match DecodeString givenHex with
      | None => false
      | Some given =>
        let want := hmac_sha256 appSecret body in
        if negb (String.length given =? String.length want)%nat then false
        else ConstantTimeCompare given want
      end.

(** The header the sender computes: ["sha256=" + hex(HMAC-SHA256(secret, body))]. *)
Definition sign (secret body : string) : string :=
  prefix +:+ EncodeToString (hmac_sha256 secret body).

End WhatsAppSig.

(** ** Skill installation from the registry (zip extraction and cleanup) *)

Module Skills.
Import Go.

(** *** [path/filepath] on slash-separated paths *)

Definition slash : ascii := ascii_of_N 47.

Fixpoint splitOn (sep : ascii) (s : string) : list string :=
  match s with
  | EmptyString => [EmptyString]
  | String c r =>
    if Ascii.eqb c sep then EmptyString :: splitOn sep r
    else match splitOn sep r with
         | h :: t => String c h :: t
         | [] => [String c EmptyString]
         end
  end.

Fixpoint joinWith (sep : string) (l : list string) : string :=
  match l with
  | [] => EmptyString
  | [x] => x
  | x :: r => x +:+ sep +:+ joinWith sep r
  end.

Definition IsAbs (p : string) : bool := HasPrefix p "/".

(** The path elements that [Clean] keeps, innermost first. *)
Definition cleanStep (rooted : bool) (st : list string) (c : string) : list string :=
  if isEmpty c || String.eqb c "." then st
  else if String.eqb c ".." then
    match st with
    | top :: rest => if String.eqb top ".." then c :: st else rest
    | [] => if rooted then st else [c]
    end
  else c :: st.

(** [filepath.Clean]. *)
Definition Clean (p : string) : string :=
  let rooted := IsAbs p in
  let st := fold_left (cleanStep rooted) (splitOn slash p) [] in
  let body := joinWith "/" (List.rev st) in
  if rooted then "/" +:+ body
  else if isEmpty body then "." else body.

(** [filepath.Join] of two elements. *)
Definition Join (a b : string) : string :=
  if isEmpty a then (if isEmpty b then EmptyString else Clean b)
  else if isEmpty b then Clean a
  else Clean (a +:+ "/" +:+ b).

(** [filepath.Dir] of a clean path. *)
Definition Dir (p : string) : string :=
  match List.rev (splitOn slash p) with
  | _ :: (_ :: _) as front => Clean (joinWith "/" (List.rev front) +:+ "/")
  | _ => "."
  end.

(** [filepath.Abs] in working directory [cwd]. *)
Definition Abs (cwd p : string) : string :=
  if IsAbs p then Clean p else Join cwd p.

(** *** The file system *)

Inductive node :=
| IsDir
| IsFile (content : string).

Abbreviation FS := (gmap string node).

(** [p] is [t] or lies below it. *)
Definition under (t p : string) : bool :=
  String.eqb p t || HasPrefix p (t +:+ "/").

(** [os.RemoveAll]. *)
Definition RemoveAll (t : string) (fs : FS) : FS :=
  filter (fun kv => under t kv.1 = false) fs.

(** The directories [os.MkdirAll p] walks through, outermost first. *)
Fixpoint prefixes (root : string) (comps : list string) : list string :=
  match comps with
  | [] => []
  | c :: r =>
    if isEmpty c then prefixes root r
    else (root +:+ c) :: prefixes (root +:+ c +:+ "/") r
  end.

Definition ancestors (p : string) : list string :=
  prefixes (if IsAbs p then "/" else EmptyString) (splitOn slash p).

Fixpoint mkdirs (ps : list string) (fs : FS) : FS * bool :=
  match ps with
  | [] => (fs, true)
  | p :: r =>
    match fs !! p with
    | Some (IsFile _) => (fs, false)
    | Some IsDir => mkdirs r fs
    | None => mkdirs r (<[p := IsDir]> fs)
    end
  end.

(** [os.MkdirAll]; [false] when a file is in the way. *)
Definition MkdirAll (p : string) (fs : FS) : FS * bool := mkdirs (ancestors p) fs.

(** *** Archives *)

Record entry := {
  Name : string;
  isSymlink : bool;
  isDirEntry : bool;
  UncompressedSize64 : Z;       (* what the header declares *)
  content : string;             (* what the entry really holds *)
  openErr : option string       (* [entry.Open()] failing *)
}.

Definition maxSkillZipEntryBytes : Z := 8 * 2 ^ 20.

Definition dquote : string := String (ascii_of_N 34) EmptyString.

(** [%q] for the names that need no escaping. *)
Definition quoted (s : string) : string := dquote +:+ s +:+ dquote.

Section Extract.
(** [isSameOrChildPath] is defined in a file of the package that is not
    at hand. *)
Variable isSameOrChildPath : string -> string -> bool.

Definition extractEntry (targetClean : string) (e : entry) (fs : FS)
  : FS * option string :=
  let name := Clean (Name e) in
  if String.eqb name "." then (fs, None)
  else if HasPrefix name ".." || IsAbs name then
    (fs, Some ("zip entry has unsafe path: " +:+ Name e))
  else
    let dest := Join targetClean name in
    if negb (isSameOrChildPath dest targetClean) then
      (fs, Some ("zip entry escapes target directory: " +:+ Name e))
    else if isSymlink e then
      (fs, Some ("zip entry " +:+ quoted (Name e) +:+ " is a symlink and is not allowed"))
    else if isDirEntry e then
      let '(fs1, ok) := MkdirAll dest fs in
      (fs1, if ok then None else Some ("mkdir " +:+ dest +:+ ": not a directory"))
    else if maxSkillZipEntryBytes <? UncompressedSize64 e then
      (fs, Some ("zip entry " +:+ quoted (Name e) +:+ " is too large"))
    else
      let '(fs1, ok) := MkdirAll (Dir dest) fs in
      if negb ok then (fs1, Some ("mkdir " +:+ Dir dest +:+ ": not a directory"))
      else match openErr e with
           | Some err => (fs1, Some err)
           | None =>
             match fs1 !! dest with
             | Some IsDir => (fs1, Some ("open " +:+ dest +:+ ": is a directory"))
             | _ =>
               let written := Z.min (Z.of_nat (String.length (content e)))
                                    (maxSkillZipEntryBytes + 1) in
               let fs2 := <[dest := IsFile (take (Z.to_nat written) (content e))]> fs1 in
               if maxSkillZipEntryBytes <? written then
                 (delete dest fs2,
                  Some ("zip entry " +:+ quoted (Name e) +:+ " exceeds maximum size"))
               else (fs2, None)
             end
           end.

(** The loop of [extractZipSecure] over [zr.File]. *)
Fixpoint extractEntries (targetClean : string) (entries : list entry) (fs : FS)
  : FS * option string :=
  match entries with
  | [] => (fs, None)
  | e :: rest =>
    match extractEntry targetClean e fs with
    | (fs1, Some err) => (fs1, Some err)
    | (fs1, None) => extractEntries targetClean rest fs1
    end
  end.

(** [extractZipSecure]; [None] is a file that is not a zip archive. *)
Definition extractZipSecure (archive : option (list entry)) (targetDir : string)
    (fs : FS) : FS * option string :=
  match archive with
  | None => (fs, Some "invalid zip archive: zip: not a valid zip file")
  | Some entries => extractEntries (Clean targetDir) entries fs
  end.

End Extract.

(** *** [ClawHubRegistry.Install] *)

Record SkillInstallRequest := {
  Slug : string;
  RegistryName : string;
  WorkspaceDir : string;
  Version : string;
  Force : bool
}.

Record SkillInstallResult := {
  resRegistryName : string;
  resSlug : string;
  resVersion : string;
  resInstallPath : string;
  resSummary : string;
  resIsSuspicious : bool;
  resIsMalwareBlocked : bool
}.

(** The registry's answer to [fetchSkillMeta], as far as [Install] reads it. *)
Record skillMeta := {
  metaSummary : string;
  metaLatestVersion : option string;
  metaIsSuspicious : bool;
  metaIsMalwareBlocked : bool
}.

(** The world outside the file system: the working directory, the
    registry's metadata answer ([None] when the request fails, which
    [Install] ignores), and what [downloadSkillArchive] gets for a version:
    an error, or the downloaded file. *)
Record remote := {
  cwd : string;
  meta : option skillMeta;
  download : string -> string + option (list entry)
}.

Definition containsAny (s chars : string) : bool :=
  existsb (fun c => existsb (Ascii.eqb c) (list_ascii_of_string chars))
          (list_ascii_of_string s).

Definition backslash : string := String (ascii_of_N 92) EmptyString.

Definition validateSkillIdentifier (value : string) : string + string :=
  let trimmed := TrimSpace value in
  if isEmpty trimmed then inl "identifier is empty"
  else if containsAny trimmed ("/" +:+ backslash) || Contains trimmed ".." then
    inl "identifier contains unsafe characters"
  else inr trimmed.

(** Everything [Install] does before it arms the deferred cleanup: the
    validated slug, the target directory, the requested version and the
    file system with the target directory freshly created; or the error. *)
Definition prepare (req : SkillInstallRequest) (w : remote) (fs : FS)
  : FS * (string + (string * string * string)) :=
  match validateSkillIdentifier (Slug req) with
  | inl err => (fs, inl ("invalid slug: " +:+ err))
  | inr slug =>
    match validateSkillIdentifier (RegistryName req) with
    | inl err => (fs, inl ("invalid registry: " +:+ err))
    | inr registryName =>
      if negb (String.eqb registryName "clawhub") then
        (fs, inl ("unsupported registry: " +:+ registryName))
      else
        let workspace := TrimSpace (WorkspaceDir req) in
        if isEmpty workspace then (fs, inl "workspace is empty")
        else
          let workspaceAbs := Abs (cwd w) workspace in
          let version := TrimSpace (Version req) in
          let skillsDir := Join workspaceAbs "skills" in
          let targetDir := Join skillsDir slug in
          let present := match fs !! targetDir with Some _ => true | None => false end in
          if present && negb (Force req) then
            (fs, inl ("skill " +:+ quoted slug
                      +:+ " already installed (use force=true to reinstall)"))
          else
            let fs1 := if present then RemoveAll targetDir fs else fs in
            let '(fs2, ok) := MkdirAll targetDir fs1 in
            if ok then (fs2, inr (slug, targetDir, version))
            else (fs2, inl "failed to create skill directory: not a directory")
    end
  end.

(** The version to download: the requested one, else the registry's latest,
    else "latest". *)
Definition resolveVersion (w : remote) (version : string) : string :=
  if isEmpty version then
    let v := match meta w with
             | Some m => match metaLatestVersion m with
                         | Some v => TrimSpace v
                         | None => EmptyString
                         end
             | None => EmptyString
             end in
    if isEmpty v then "latest" else v
  else version.

Definition malwareBlocked (w : remote) : bool :=
  match meta w with Some m => metaIsMalwareBlocked m | None => false end.

Section Install.
Variable isSameOrChildPath : string -> string -> bool.
(** What follows a successful extraction ([normalizeSkillLayout], the
    check for SKILL.md, [writeSkillOrigin]): the file system it leaves and
    its error, if any. *)
Variable finish : string -> FS -> FS * option string.

(** The part of [Install] that runs with the cleanup armed. *)
Definition fetchAndExtract (w : remote) (slug targetDir version : string) (fs : FS)
  : FS * (string + SkillInstallResult) :=
  let summary := match meta w with Some m => TrimSpace (metaSummary m) | None => EmptyString end in
  let suspicious := match meta w with Some m => metaIsSuspicious m | None => false end in
  let blocked := malwareBlocked w in
  if blocked then
    (fs, inl ("skill " +:+ quoted slug +:+ " is flagged as malware and cannot be installed"))
  else
    let version := resolveVersion w version in
    match download w version with
    | inl err => (fs, inl err)
    | inr archive =>
      match extractZipSecure isSameOrChildPath archive targetDir fs with
      | (fs1, Some err) => (fs1, inl err)
      | (fs1, None) =>
        match finish targetDir fs1 with
        | (fs2, Some err) => (fs2, inl err)
        | (fs2, None) =>
          (fs2, inr {| resRegistryName := "clawhub"; resSlug := slug;
                       resVersion := version; resInstallPath := targetDir;
                       resSummary := summary; resIsSuspicious := suspicious;
                       resIsMalwareBlocked := blocked |})
        end
      end
    end.

Definition Install (req : SkillInstallRequest) (w : remote) (fs : FS)
  : FS * (string + SkillInstallResult) :=
  match prepare req w fs with
  | (fs1, inl err) => (fs1, inl err)
  | (fs1, inr (slug, targetDir, version)) =>
    match fetchAndExtract w slug targetDir version fs1 with
    | (fs2, inl err) => (RemoveAll targetDir fs2, inl err)   (* deferred cleanup *)
    | (fs2, inr res) => (fs2, inr res)
    end
  end.

End Install.

(** An entry the extraction rejects as a path traversal. *)
Definition unsafeName (name : string) : bool :=
  negb (String.eqb (Clean name) ".")
  && (HasPrefix (Clean name) ".." || IsAbs (Clean name)).

End Skills.

(** ** Inbound messages ([bus.InboundMessage], as far as the adapters here
    fill it) *)

Module BusIn.

Record InboundMessage := {
  inChannel : string;
  inSenderID : string;
  inChatID : string;
  inContent : string;
  inSessionKey : string;
  inDelivery : Bus.Delivery
}.

End BusIn.

(** ** More of the WhatsApp adapter: configuration, Retry-After, inbound
    webhook *)

Module WhatsAppInbound.
Import Go BusIn.

Definition defaultWhatsAppWebhookPath : string := "/whatsapp/webhook".
Definition defaultWhatsAppWebhookListen : string := "127.0.0.1:18791".

Definition webhookListen (v : string) : string :=
  let v := TrimSpace v in
  if isEmpty v then defaultWhatsAppWebhookListen else v.

Definition normalizeWebhookPath (path : string) : string :=
  let path := TrimSpace path in
  if isEmpty path then defaultWhatsAppWebhookPath
  else if negb (HasPrefix path "/") then "/" +:+ path
  else path.

(** The fields of [config.WhatsAppConfig] the adapter reads. *)
Record WhatsAppConfig := {
  AccessToken : string;
  PhoneNumberID : string;
  VerifyToken : string;
  AppSecret : string;
  WebhookPath : string;
  WebhookListen : string
}.

(** The checks at the head of [Start]: the error it returns before it
    opens the listener, if any. *)
Definition startConfigError (cfg : WhatsAppConfig) : option string :=
  if isEmpty (TrimSpace (AccessToken cfg)) then Some "whatsapp accessToken is empty"
  else if isEmpty (TrimSpace (PhoneNumberID cfg)) then Some "whatsapp phoneNumberId is empty"
  else if isEmpty (TrimSpace (VerifyToken cfg)) then Some "whatsapp verifyToken is empty"
  else None.

Section RetryAfter.
(** [http.ParseTime(v)] followed by [time.Until(at)]: the nanoseconds from
    now to the date in the header, [None] when it is no HTTP date. *)
Variable untilDate : string -> option Z.

Definition parseRetryAfter (v : string) : Z :=
  let v := TrimSpace v in
  if isEmpty v then 0
  else match Atoi v with
       | Some secs =>
         if 0 <=? secs then wrap64 (secs * Second)
         else match untilDate v with
              | None => 0
              | Some d => if d <? 0 then 0 else d
              end
       | None =>
         match untilDate v with
         | None => 0
         | Some d => if d <? 0 then 0 else d
         end
       end.

(** What one exchange with the provider came to: no response at all
    ([json.Marshal], [http.NewRequestWithContext] or [c.hc.Do] returned an
    error), or a response with its status code, its [Retry-After] header
    and the outcome of reading its body ([Some] for an error of
    [io.ReadAll]). *)
Inductive exchange :=
| NoResponse (err : WhatsApp.SendErr)
| Response (statusCode : Z) (retryAfterHeader : string)
    (readErr : option WhatsApp.SendErr).

(** [sendMessageOnce], from the exchange on: the error it returns, [None]
    for nil.  The body is read before the status code is looked at. *)
Definition sendMessageOnce (x : exchange) : option WhatsApp.SendErr :=
  match x with
  | NoResponse err => Some err
  | Response statusCode retryAfterHeader readErr =>
    match readErr with
    | Some err => Some err
    | None =>
      if (statusCode <? 200) || (300 <=? statusCode) then
        Some {| WhatsApp.isCanceled := false; WhatsApp.isDeadline := false;
                WhatsApp.asHTTP :=
                  Some (statusCode, parseRetryAfter retryAfterHeader);
                WhatsApp.asNet := None |}
      else None
    end
  end.

End RetryAfter.

(** The webhook payload ([whatsappWebhookPayload] and the structs below it). *)
Record whatsappInboundText := { textBody : string }.
Record whatsappInboundButton := { buttonText : string; buttonPayload : string }.
Record whatsappInteractiveReply := { replyID : string; replyTitle : string }.
Record whatsappInteractive := {
  interactiveType : string;
  ButtonReply : whatsappInteractiveReply;
  ListReply : whatsappInteractiveReply
}.
Record whatsappMediaPayload := { mediaCaption : string }.
Record whatsappDocument := { docCaption : string; docFilename : string }.
Record whatsappInboundReact := { Emoji : string }.
Record whatsappInboundContext := { contextID : string }.

Record whatsappInboundMessage := {
  From : string;
  ID : string;
  Type_ : string;
  Text : whatsappInboundText;
  Button : whatsappInboundButton;
  Interactive : whatsappInteractive;
  Image : whatsappMediaPayload;
  Video : whatsappMediaPayload;
  Document : whatsappDocument;
  Reaction : whatsappInboundReact;
  Context_ : whatsappInboundContext
}.

Record whatsappChangeValue := { Messages : list whatsappInboundMessage }.
Record whatsappWebhookChange := { Field : string; Value : whatsappChangeValue }.
Record whatsappWebhookEntry := { Changes : list whatsappWebhookChange }.
Record whatsappWebhookPayload := { Object : string; Entry : list whatsappWebhookEntry }.

Record whatsappInboundEvent := {
  evSenderID : string;
  evChatID : string;
  evContent : string;
  evDelivery : Bus.Delivery
}.

(** [if a != "" { return a }; return b]. *)
Definition orElse (a b : string) : string := if negb (isEmpty a) then a else b.

(** ["[Label] " + caption] when there is a caption, else ["[Label]"]. *)
Definition labelled (label caption : string) : string :=
  if negb (isEmpty caption) then label +:+ " " +:+ caption else label.

Definition whatsappInboundContent (msg : whatsappInboundMessage) : string :=
  let msgType := TrimSpace (Type_ msg) in
  if String.eqb msgType "text" then TrimSpace (textBody (Text msg))
  else if String.eqb msgType "button" then
    orElse (TrimSpace (buttonText (Button msg))) (TrimSpace (buttonPayload (Button msg)))
  else if String.eqb msgType "interactive" then
    let it := TrimSpace (interactiveType (Interactive msg)) in
    if String.eqb it "button_reply" then
      orElse (TrimSpace (replyTitle (ButtonReply (Interactive msg))))
             (TrimSpace (replyID (ButtonReply (Interactive msg))))
    else if String.eqb it "list_reply" then
      orElse (TrimSpace (replyTitle (ListReply (Interactive msg))))
             (TrimSpace (replyID (ListReply (Interactive msg))))
    else EmptyString
  else if String.eqb msgType "image" then
    labelled "[Image]" (TrimSpace (mediaCaption (Image msg)))
  else if String.eqb msgType "video" then
    labelled "[Video]" (TrimSpace (mediaCaption (Video msg)))
  else if String.eqb msgType "document" then
    let caption := TrimSpace (docCaption (Document msg)) in
    if negb (isEmpty caption) then "[Document] " +:+ caption
    else labelled "[Document]" (TrimSpace (docFilename (Document msg)))
  else if String.eqb msgType "audio" then "[Voice Message]"
  else if String.eqb msgType "reaction" then
    labelled "[Reaction]" (TrimSpace (Emoji (Reaction msg)))
  else EmptyString.

(** The body of the innermost loop: the event a message yields, if any. *)
Definition eventOf (msg : whatsappInboundMessage) : option whatsappInboundEvent :=
  let content := whatsappInboundContent msg in
  if isEmpty content then None
  else
    let sender := TrimSpace (From msg) in
    if isEmpty sender then None
    else Some {| evSenderID := sender; evChatID := sender; evContent := content;
                 evDelivery := {| Bus.MessageID := TrimSpace (ID msg);
                                  Bus.ReplyToID := TrimSpace (contextID (Context_ msg));
                                  Bus.ThreadID := EmptyString;
                                  Bus.IsDirect := true |} |}.

Definition eventsOfChange (ch : whatsappWebhookChange) : list whatsappInboundEvent :=
  if negb (String.eqb (TrimSpace (Field ch)) "messages") then []
  else omap eventOf (Messages (Value ch)).

Definition extractWhatsAppInboundMessages (payload : whatsappWebhookPayload)
  : list whatsappInboundEvent :=
  if negb (String.eqb (Object payload) "whatsapp_business_account") then []
  else flat_map (fun entry => flat_map eventsOfChange (Changes entry)) (Entry payload).

Definition toInbound (evt : whatsappInboundEvent) : InboundMessage :=
  {| inChannel := "whatsapp"; inSenderID := evSenderID evt;
     inChatID := evChatID evt; inContent := evContent evt;
     inSessionKey := "whatsapp:" +:+ evChatID evt;
     inDelivery := evDelivery evt |}.

(** An incoming HTTP request on the webhook path. *)
Record request := {
  method : string;
  hubMode : string;
  hubVerifyToken : string;
  hubChallenge : string;
  reqBody : option string;      (* [None]: reading the body fails *)
  signatureHeader : string      (* X-Hub-Signature-256 *)
}.

(** The webhook reads at most 2 MiB of the body. *)
Definition bodyLimit : nat := Z.to_nat (2 * 2 ^ 20).

Definition okBody : string :=
  "{" +:+ Skills.quoted "status" +:+ ":" +:+ Skills.quoted "ok" +:+ "}".

Section Webhook.
(** [json.Unmarshal] into the payload struct, and [AllowList.Allowed], both
    defined outside the files at hand. *)
Variable unmarshal : string -> option whatsappWebhookPayload.
Variable allowed : string -> bool.

(** [handleInbound]: the response, and the messages handed to
    [PublishInbound], in order. *)
Definition handleInbound (cfg : WhatsAppConfig) (r : request)
  : WhatsApp.response * list InboundMessage :=
  match reqBody r with
  | None => (WhatsApp.httpError "bad request" 400, [])
  | Some raw =>
    let body := take bodyLimit raw in
    if negb (WhatsAppSig.verifyWhatsAppSignature (TrimSpace (AppSecret cfg)) body
               (signatureHeader r))
    then (WhatsApp.httpError "unauthorized" 401, [])
    else match unmarshal body with
         | None => (WhatsApp.httpError "bad request" 400, [])
         | Some payload =>
           let events := extractWhatsAppInboundMessages payload in
           ({| WhatsApp.status := 200; WhatsApp.contentType := "application/json";
               WhatsApp.body := okBody |},
            map toInbound (List.filter (fun evt => allowed (evSenderID evt)) events))
         end
  end.

(** [handleWebhook]. *)
Definition handleWebhook (cfg : WhatsAppConfig) (r : request)
  : WhatsApp.response * list InboundMessage :=
  if String.eqb (method r) "GET" then
    (WhatsApp.handleVerify (VerifyToken cfg) (hubMode r) (hubVerifyToken r)
       (hubChallenge r), [])
  else if String.eqb (method r) "POST" then handleInbound cfg r
  else (WhatsApp.httpError "method not allowed" 405, []).

End Webhook.

End WhatsAppInbound.

(** ** Discord adapter: inbound events *)

Module DiscordInbound.
Import Go BusIn.

Record User := { userID : string; userBot : bool }.

(** [discordgo.Message], as far as the adapter reads it; the reference
    fields hold the referenced message's id. *)
Record Message := {
  msgID : string;
  msgChannelID : string;
  msgGuildID : string;
  msgContent : string;
  msgAuthor : option User;
  MessageReference : option string;
  ReferencedMessage : option string
}.

(** [buildDiscordDelivery]; [None] is a nil event or a nil message. *)
Definition buildDiscordDelivery (m : option Message) : Bus.Delivery :=
  match m with
  | None => {| Bus.MessageID := EmptyString; Bus.ReplyToID := EmptyString;
               Bus.ThreadID := EmptyString; Bus.IsDirect := false |}
  | Some m =>
    let r1 := match MessageReference m with
              | Some id => TrimSpace id
              | None => EmptyString
              end in
    let r2 := if isEmpty r1 then
                match ReferencedMessage m with
                | Some id => TrimSpace id
                | None => r1
                end
              else r1 in
    {| Bus.MessageID := TrimSpace (msgID m); Bus.ReplyToID := r2;
       Bus.ThreadID := EmptyString;
       Bus.IsDirect := isEmpty (TrimSpace (msgGuildID m)) |}
  end.

Section Handler.
(** [channels.AllowList.Allowed], defined outside the files at hand. *)
Variable allowed : string -> bool.

(** [onMessageCreate]: the messages handed to [PublishInbound]. *)
Definition onMessageCreate (m : option Message) : list InboundMessage :=
  match m with
  | None => []
  | Some m =>
    match msgAuthor m with
    | None => []
    | Some author =>
      if userBot author then []
      else if negb (allowed (userID author)) then []
      else
        let chID := TrimSpace (msgChannelID m) in
        let content := TrimSpace (msgContent m) in
        if isEmpty chID || isEmpty content then []
        else [{| inChannel := "discord"; inSenderID := userID author;
                 inChatID := chID; inContent := content;
                 inSessionKey := "discord:" +:+ chID;
                 inDelivery := buildDiscordDelivery (Some m) |}]
    end
  end.

End Handler.

End DiscordInbound.

(** ** Telegram adapter: configuration clamps *)

Module TelegramConfig.

Definition clampTelegramPollTimeout (v : Z) : Z :=
  if v <=? 0 then 25 else if 50 <? v then 50 else v.

Definition clampTelegramWorkers (v : Z) : Z :=
  if v <=? 0 then 2 else if 8 <? v then 8 else v.

(** What [New] and [Start] make of the configured numbers: the long-poll
    timeout, the HTTP client timeout (both as durations), the workers. *)
Definition pollTimeout (cfgPollTimeoutSec : Z) : Z :=
  Go.wrap64 (clampTelegramPollTimeout cfgPollTimeoutSec * Go.Second).

Definition httpTimeout (cfgPollTimeoutSec : Z) : Z :=
  Go.wrap64 (Go.wrap64 (clampTelegramPollTimeout cfgPollTimeoutSec + 15) * Go.Second).

End TelegramConfig.

(** ** Channel manager: lookups and status *)

Module ManagerView.
Import Manager.

(** [Require]. *)
Definition Require (name : string) (m : Manager) : Channel + string :=
  match channels m !! name with
  | Some ch => inl ch
  | None => inr ("channel not found: " +:+ name)
  end.

(** One row of [Status]: ["running"] and, when present, ["lastError"]. *)
Record row := {
  rowRunning : bool;
  rowLastError : option string
}.

Section Status.
(** [ch.IsRunning()], which the adapters answer from an atomic flag. *)
Variable isRunning : Channel -> bool.

Definition Status (m : Manager) : gmap string row :=
  map_imap (fun name ch =>
    Some {| rowRunning := isRunning ch;
            rowLastError :=
              match lastErrorByChannel m !! name with
              | Some last => if Go.isEmpty last then None else Some last
              | None => None
              end |}) (channels m).

End Status.

(** Every channel is registered under its own name, every recorded error
    belongs to a registered channel, and no recorded error is empty. *)
Definition wellFormed (m : Manager) : Prop :=
  (forall k ch, channels m !! k = Some ch -> chName ch = k)
  /\ (forall k e, lastErrorByChannel m !! k = Some e ->
        e <> EmptyString /\ k <> EmptyString /\ is_Some (channels m !! k)).

(** The managers a program can build: from [NewManager], by the
    manager's operations; a start goroutine reports for a channel whose
    name is registered. *)
Inductive reachable : Manager -> Prop :=
| reach_new : reachable NewManager
| reach_add ch m : reachable m -> reachable (Add ch m)
| reach_start m : reachable m -> reachable (StartAll m).1
| reach_stop m : reachable m -> reachable (StopAll m).1.1
| reach_exit ch m :
    reachable m -> is_Some (channels m !! chName ch) ->
    reachable (startExited ch m)
| reach_dispatch msg m : reachable m -> reachable (dispatchOne msg m).1.

(** [StartAll] is not atomic: it releases the lock before it spawns the
    dispatcher and the start goroutines, so other goroutines can act in
    between.  [others 0] are the operations of others between the unlock
    and the spawning of the dispatcher, [others 1] those before the loop,
    [others (2 + i)] those after iteration [i] of the loop, which clears
    the channel's last error and spawns its start goroutine. *)
Fixpoint startEachWith (others : nat -> list op) (i : nat) (chs : list Channel)
    (m : Manager) : Manager * list event :=
  match chs with
  | [] => (m, [])
  | ch :: rest =>
    let m1 := setChannelError (chName ch) EmptyString m in
    let '(m2, ev2) := run (others i) m1 in
    let '(m3, ev3) := startEachWith others (S i) rest m2 in
    (m3, StartCall (chName ch) :: ev2 ++ ev3)
  end.

Definition StartAllWith (others : nat -> list op) (m : Manager)
  : Manager * list event :=
  if running m then (m, [])
  else
    let m1 := {| channels := channels m; running := true;
                 stopOnce := stopOnce m;
                 lastErrorByChannel := lastErrorByChannel m |} in
    let chs := snapshot m1 in
    let '(m2, ev2) := run (others 0%nat) m1 in
    let '(m3, ev3) := run (others 1%nat) m2 in
    let '(m4, ev4) := startEachWith others 2 chs m3 in
    (m4, ev2 ++ SpawnDispatcher :: ev3 ++ ev4).

(** Whether an operation of another goroutine can record a last error
    under [name]: the exit of that channel's start goroutine, a send to
    that channel, and [StopAll], which reports for every channel. *)
Definition touches (name : string) (o : op) : bool :=
  match o with
  | OpAdd _ => false
  | OpStartAll => false
  | OpStopAll => true
  | OpStartExited ch => String.eqb (chName ch) name
  | OpDispatch msg => String.eqb (Bus.Channel msg) name
  end.

Definition stops (o : op) : bool :=
  match o with OpStopAll => true | _ => false end.

End ManagerView.

(** ** LLM client: provider routing and model listing *)

Module LLMProviders.
Import Go.

Definition normalizeProvider (p : string) : string :=
  let x := ToLower (TrimSpace p) in
  if String.eqb x "local" then "ollama" else x.

(** The four request dialects [doChat] chooses between. *)
Inductive dialect := OpenAICompatible | Anthropic | Gemini | Antigravity.

Definition isOpenAICompatible (n : string) : bool :=
  isEmpty n || String.eqb n "openai" || String.eqb n "openrouter"
  || String.eqb n "ollama".

(** The [switch normalizeProvider(c.Provider)] of [doChat]. *)
Definition route (provider : string) : option dialect :=
  let n := normalizeProvider provider in
  if isOpenAICompatible n then Some OpenAICompatible
  else if String.eqb n "anthropic" then Some Anthropic
  else if String.eqb n "gemini" then Some Gemini
  else if String.eqb n "antigravity" then Some Antigravity
  else None.

Record ModelInfo := { modelID : string; modelStatus : string }.

Definition antigravityModels : list ModelInfo :=
  map (fun id => {| modelID := id; modelStatus := EmptyString |})
      ["gemini-2.5-flash"; "gemini-2.5-pro"; "gemini-3-flash-preview";
       "gemini-3-pro-preview"].

Section Dispatch.
Context {R : Type}.
(** The dialect implementations ([chatOpenAICompatible], [chatAnthropic],
    [chatGemini], [chatAntigravity]) for the model given, and
    [listOpenAICompatible]: a result, or an error by its text. *)
Variable chat : dialect -> string -> R + string.
Variable listOpenAICompatible : list ModelInfo + string.

Definition doChat (provider model : string) : R + string :=
  match route provider with
  | Some d => chat d model
  | None => inr ("unsupported llm provider: " +:+ TrimSpace provider)
  end.

Definition ListModels (provider : string) : list ModelInfo + string :=
  let n := normalizeProvider provider in
  if String.eqb n "antigravity" then inl antigravityModels
  else if isOpenAICompatible n then listOpenAICompatible
  else inr ("listing models is not supported for provider: " +:+ provider).

(** [ProbeModel]: the info it returns and the error it passes through. *)
Definition ProbeModel (provider modelID : string) : ModelInfo * option string :=
  match doChat provider modelID with
  | inl _ => ({| modelID := modelID; modelStatus := "ok" |}, None)
  | inr err =>
    let errStr := ToLower err in
    let status :=
      if Contains errStr "404" || Contains errStr "not found" then "not_found"
      else if Contains errStr "429" || Contains errStr "quota"
              || Contains errStr "exhausted" then "ok"
      else "error" in
    ({| modelID := modelID; modelStatus := status |}, Some err)
  end.

End Dispatch.

Definition maxTokensValue (maxTokens : Z) : Z :=
  if maxTokens <=? 0 then 8192 else maxTokens.

End LLMProviders.

(** ** Leading white space, for the lemmas on trimming *)

Module Trim.
Import Go.

(** [s] starts with a white-space sequence. *)
Definition wsHead (p1 : ascii -> bool) (p2 : ascii -> ascii -> bool)
    (p3 : ascii -> ascii -> ascii -> bool) (s : string) : bool :=
  match s with
  | EmptyString => false
  | String c r =>
    p1 c || match r with
            | EmptyString => false
            | String d r2 =>
              p2 c d || match r2 with
                        | EmptyString => false
                        | String e _ => p3 c d e
                        end
            end
  end.

Fixpoint mapString (f : ascii -> ascii) (s : string) : string :=
  match s with
  | EmptyString => EmptyString
  | String c r => String (f c) (mapString f r)
  end.

End Trim.

(** ** Sample inputs used by the examples and counterexamples below *)

Module Samples.
Import Go.

Definition blankMessage : Bus.OutboundMessage :=
  {| Bus.Channel := "discord"; Bus.ChatID := EmptyString; Bus.Content := "  ";
     Bus.ReplyTo := EmptyString;
     Bus.Delivery_ := {| Bus.MessageID := EmptyString; Bus.ReplyToID := EmptyString;
                         Bus.ThreadID := EmptyString; Bus.IsDirect := false |} |}.

Definition blankToChat : Bus.OutboundMessage :=
  {| Bus.Channel := "whatsapp"; Bus.ChatID := "15551234567";
     Bus.Content := String (ascii_of_N 9) " ";
     Bus.ReplyTo := EmptyString;
     Bus.Delivery_ := {| Bus.MessageID := EmptyString; Bus.ReplyToID := EmptyString;
                         Bus.ThreadID := EmptyString; Bus.IsDirect := true |} |}.


Definition helloTo (name : string) : Bus.OutboundMessage :=
  {| Bus.Channel := name; Bus.ChatID := "c1"; Bus.Content := "hello";
     Bus.ReplyTo := EmptyString;
     Bus.Delivery_ := {| Bus.MessageID := EmptyString; Bus.ReplyToID := EmptyString;
                         Bus.ThreadID := EmptyString; Bus.IsDirect := false |} |}.

(** A stub adapter whose [Send] fails with an error whose text is empty
    (an [errors.New] of the empty string). *)
Definition silentStub : Manager.Channel :=
  {| Manager.chName := "stub"; Manager.chStart := None; Manager.chStop := None;
     Manager.chSend := fun _ => Some {| Manager.isCanceled := false; Manager.errText := EmptyString |} |}.

(** The archive of the repository's traversal test: one entry
    [../evil.txt]. *)
Definition evilEntry : Skills.entry :=
  {| Skills.Name := "../evil.txt"; Skills.isSymlink := false;
     Skills.isDirEntry := false; Skills.UncompressedSize64 := 5;
     Skills.content := "owned"; Skills.openErr := None |}.

Definition skillEntry : Skills.entry :=
  {| Skills.Name := "SKILL.md"; Skills.isSymlink := false;
     Skills.isDirEntry := false; Skills.UncompressedSize64 := 9;
     Skills.content := "# github"; Skills.openErr := None |}.

Definition sameOrChild (dest target : string) : bool := Skills.under target dest.

Definition finishOK (targetDir : string) (fs : gmap string Skills.node)
  : gmap string Skills.node * option string := (fs, None).

Definition registry : Skills.remote :=
  {| Skills.cwd := "/";
     Skills.meta := Some {| Skills.metaSummary := EmptyString;
                            Skills.metaLatestVersion := Some "1.0.0";
                            Skills.metaIsSuspicious := false;
                            Skills.metaIsMalwareBlocked := false |};
     Skills.download := fun _ => inr (Some [skillEntry; evilEntry]) |}.

Definition installReq (force : bool) : Skills.SkillInstallRequest :=
  {| Skills.Slug := "github"; Skills.RegistryName := "clawhub";
     Skills.WorkspaceDir := "/ws"; Skills.Version := EmptyString;
     Skills.Force := force |}.

(** A workspace without skills, and one where the skill is installed. *)
Definition fsFresh : gmap string Skills.node := {[ "/ws" := Skills.IsDir ]}.

Definition fsInstalled : gmap string Skills.node :=
  <[ "/ws/skills/github/SKILL.md" := Skills.IsFile "# github v0" ]>
  (<[ "/ws/skills/github" := Skills.IsDir ]>
   (<[ "/ws/skills" := Skills.IsDir ]> fsFresh)).

Definition timing0 : LLM.Timing :=
  {| LLM.before := 0; LLM.oversleep := 0; LLM.lag := 0; LLM.duration := 0 |}.

Definition client2s : LLM.Client :=
  {| LLM.Cooldown := 2 * Second; LLM.MaxRetries := 0; LLM.lastReqAt := None |}.

End Samples.

(** ** Skill registry: search *)

Module SkillSearch.
Import Go.

(** One item of the registry's search response; [Score] stands for
    [float64], the pointer fields are [None] when absent. *)
Record clawHubSearchResult (Score : Type) := {
  itScore : Score;
  itSlug : option string;
  itDisplayName : option string;
  itSummary : option string;
  itVersion : option string
}.
Arguments itScore {Score} _.
Arguments itSlug {Score} _.
Arguments itDisplayName {Score} _.
Arguments itSummary {Score} _.
Arguments itVersion {Score} _.

Record SkillSearchResult (Score : Type) := {
  srScore : Score;
  srSlug : string;
  srDisplayName : string;
  srSummary : string;
  srVersion : string;
  srRegistryName : string
}.
Arguments srScore {Score} _.
Arguments srSlug {Score} _.
Arguments srDisplayName {Score} _.
Arguments srSummary {Score} _.
Arguments srVersion {Score} _.
Arguments srRegistryName {Score} _.

Definition deref (v : option string) : string :=
  match v with Some s => s | None => EmptyString end.

Section Search.
Context {Score : Type}.
(** [a > b] on scores. *)
Variable gt : Score -> Score -> bool.

(** The body of the loop over [resp.Results]: the result appended for an
    item, [None] when the item is skipped. *)
Definition resultOf (item : clawHubSearchResult Score)
  : option (SkillSearchResult Score) :=
  let slug := TrimSpace (deref (itSlug item)) in
  if isEmpty slug then None
  else
    let summary := TrimSpace (deref (itSummary item)) in
    if isEmpty summary then None
    else
      let displayName := TrimSpace (deref (itDisplayName item)) in
      Some {| srScore := itScore item; srSlug := slug;
              srDisplayName := if isEmpty displayName then slug else displayName;
              srSummary := summary;
              srVersion := TrimSpace (deref (itVersion item));
              srRegistryName := "clawhub" |}.

(** [sort.SliceStable(out, func(i, j) bool { return out[i].Score >
    out[j].Score })].  When [>] is a strict weak order on the scores at
    hand (no NaN among them), a stable sort has one possible result, which
    is what this insertion sort computes. *)
Fixpoint insertStable (x : SkillSearchResult Score)
    (l : list (SkillSearchResult Score)) : list (SkillSearchResult Score) :=
  match l with
  | [] => [x]
  | y :: r =>
    if gt (srScore y) (srScore x) then y :: insertStable x r else x :: y :: r
  end.

Definition sortStable (l : list (SkillSearchResult Score))
  : list (SkillSearchResult Score) :=
  fold_right insertStable [] l.

Definition clampLimit (limit : Z) : Z :=
  if limit <=? 0 then 5 else if 20 <? limit then 20 else limit.

(** [Search].  [fetch query limit] stands for building the URL, the GET
    and [json.Unmarshal]: an error of the first two, or the parse error's
    text, or the items of the response. *)
Definition Search
    (fetch : string -> Z -> string + (string + list (clawHubSearchResult Score)))
    (query : string) (limit : Z) : string + list (SkillSearchResult Score) :=
  let query := TrimSpace query in
  if isEmpty query then inl "query is empty"
  else
    let limit := clampLimit limit in
    match fetch query limit with
    | inl err => inl err
    | inr (inl detail) => inl ("failed to parse search response: " +:+ detail)
    | inr (inr items) =>
      match omap resultOf items with
      | [] => inr []
      | out => inr (firstn (Z.to_nat limit) (sortStable out))
      end
    end.

End Search.

(** The head of [findSkills]: the error it returns before it calls
    [Search], or the query and limit it calls [Search] with. *)
Definition findSkillsRequest (configured : bool) (query : string)
    (limit SkillSearchDefaultLimit : Z) : string + (string * Z) :=
  if negb configured then inl "skill registry is not configured"
  else
    let query := TrimSpace query in
    if isEmpty query then inl "query is empty"
    else
      let limit := if limit <=? 0 then SkillSearchDefaultLimit else limit in
      let limit := if limit <=? 0 then 5 else limit in
      let limit := if 20 <? limit then 20 else limit in
      inr (query, limit).

End SkillSearch.

(** ** Sample inputs for the further properties *)

Module Fixtures.

(** The stub of the manager's test: [Send] fails with [send failed]. *)
Definition failingStub : Manager.Channel :=
  {| Manager.chName := "stub"; Manager.chStart := None; Manager.chStop := None;
     Manager.chSend := fun _ =>
       Some {| Manager.isCanceled := false; Manager.errText := "send failed" |} |}.

(** The manager of that test after one outbound message to the stub. *)
Definition afterFailedSend : Manager.Manager :=
  (Manager.dispatchOne (Samples.helloTo "stub")
     (Manager.StartAll (Manager.Add (Some failingStub) Manager.NewManager)).1).1.

(** What other goroutines do while a [StartAll] runs: a channel is added
    before the dispatcher is spawned, and a message for it is dispatched
    during the loop. *)
Definition othersDuringStart (i : nat) : list Manager.op :=
  match i with
  | O => [Manager.OpAdd (Some Samples.silentStub)]
  | 2%nat => [Manager.OpDispatch (Samples.helloTo "other")]
  | _ => []
  end.

(** A registry that flags the skill as malware. *)
Definition blockedRegistry : Skills.remote :=
  {| Skills.cwd := "/";
     Skills.meta := Some {| Skills.metaSummary := EmptyString;
                            Skills.metaLatestVersion := Some "1.0.0";
                            Skills.metaIsSuspicious := true;
                            Skills.metaIsMalwareBlocked := true |};
     Skills.download := fun _ => inr (Some [Samples.skillEntry]) |}.

(** A WhatsApp configuration that [Start] accepts. *)
Definition whatsappConfig : WhatsAppInbound.WhatsAppConfig :=
  {| WhatsAppInbound.AccessToken := "token";
     WhatsAppInbound.PhoneNumberID := "12345";
     WhatsAppInbound.VerifyToken := " verify-me ";
     WhatsAppInbound.AppSecret := "secret";
     WhatsAppInbound.WebhookPath := EmptyString;
     WhatsAppInbound.WebhookListen := EmptyString |}.

(** A Discord message in a guild channel, replying to message 41. *)
Definition discordMessage : DiscordInbound.Message :=
  {| DiscordInbound.msgID := "42"; DiscordInbound.msgChannelID := " c1 ";
     DiscordInbound.msgGuildID := "g1"; DiscordInbound.msgContent := " hello ";
     DiscordInbound.msgAuthor :=
       Some {| DiscordInbound.userID := "u1"; DiscordInbound.userBot := false |};
     DiscordInbound.MessageReference := Some "41";
     DiscordInbound.ReferencedMessage := None |}.

(** Telegram rejecting the rendered HTML of a message. *)
Definition parseError : Telegram.SendErr :=
  {| Telegram.isCanceled := false; Telegram.isDeadline := false;
     Telegram.asTooMany := None; Telegram.asNet := None;
     Telegram.text := "bad request, Bad Request: can't parse entities" |}.

(** A provider that rejects the first call that way and accepts the next. *)
Definition rejectsHTML (n : Z) : option Telegram.SendErr :=
  if n =? 1 then Some parseError else None.

(** A search response with scores in thousandths: one item without a
    summary, two complete ones. *)
Definition searchItems : list (SkillSearch.clawHubSearchResult Z) :=
  [ {| SkillSearch.itScore := 990; SkillSearch.itSlug := Some "nameless";
       SkillSearch.itDisplayName := None; SkillSearch.itSummary := None;
       SkillSearch.itVersion := None |};
    {| SkillSearch.itScore := 410; SkillSearch.itSlug := Some " git-helper ";
       SkillSearch.itDisplayName := None; SkillSearch.itSummary := Some "git";
       SkillSearch.itVersion := None |};
    {| SkillSearch.itScore := 870; SkillSearch.itSlug := Some "github";
       SkillSearch.itDisplayName := Some "GitHub";
       SkillSearch.itSummary := Some "GitHub workflows";
       SkillSearch.itVersion := Some "1.0.0" |} ].

Definition searchFetch (query : string) (limit : Z)
  : string + (string + list (SkillSearch.clawHubSearchResult Z)) :=
  inr (inr searchItems).

End Fixtures.

(* ===================================================================== *)
(** * Part II. Theorems                                                   *)
(* ===================================================================== *)

Section StringFacts.
Import Go.

Lemma isEmpty_true (s : string) : isEmpty s = true <-> s = EmptyString.
Proof. unfold isEmpty. apply String.eqb_eq. Qed.

Lemma isEmpty_false (s : string) : isEmpty s = false <-> s <> EmptyString.
Proof. unfold isEmpty. apply String.eqb_neq. Qed.

End StringFacts.

(** ** Empty outbound content (C4) *)

Section EmptyContent.
Import Go Adapter Samples.

(** C4, as stated, fails: a message whose content is blank but whose chat id
    is blank too makes the Discord and WhatsApp adapters return the error
    "chat_id is empty" instead of nil. *)
Lemma send_blank_content_chat_id_error :
  TrimSpace (Bus.Content blankMessage) = EmptyString
  /\ Discord.Send (fun _ => None) (fun _ => None) true blankMessage
     = ([], Discord.ErrText "chat_id is empty")
  /\ WhatsApp.Send (fun _ => None) (fun _ => None) blankMessage
     = ([], WhatsApp.ErrText "chat_id is empty").
Proof. repeat split; reflexivity. Qed.

(** C4 (amended): when the content is empty after trimming, no adapter
    issues a provider call; Telegram returns nil whatever the other fields
    are, Discord and WhatsApp return nil when the trimmed chat id is not
    empty and the error "chat_id is empty" when it is. *)
Theorem send_empty_content_no_call
    (msg : Bus.OutboundMessage)
    (H : TrimSpace (Bus.Content msg) = EmptyString) :
  (forall provider ctxDone connected render,
      Telegram.Send provider ctxDone connected render msg = ([], Telegram.Nil))
  /\ (forall provider ctxDone connected,
      Discord.Send provider ctxDone connected msg
      = ([], if isEmpty (TrimSpace (Bus.ChatID msg))
             then Discord.ErrText "chat_id is empty" else Discord.Nil))
  /\ (forall provider ctxDone,
      WhatsApp.Send provider ctxDone msg
      = ([], if isEmpty (TrimSpace (Bus.ChatID msg))
             then WhatsApp.ErrText "chat_id is empty" else WhatsApp.Nil)).
Proof.
  repeat split; intros.
  - unfold Telegram.Send. now rewrite H.
  - unfold Discord.Send. rewrite H.
    now destruct (isEmpty (TrimSpace (Bus.ChatID msg))).
  - unfold WhatsApp.Send. rewrite H.
    now destruct (isEmpty (TrimSpace (Bus.ChatID msg))).
Qed.

Lemma send_empty_content_no_call_witness :
  WhatsApp.Send (fun _ => None) (fun _ => None) blankToChat = ([], WhatsApp.Nil).
Proof.
  exact (proj2 (proj2 (send_empty_content_no_call blankToChat eq_refl)) _ _).
Defined.

End EmptyContent.

(** ** WhatsApp webhook verification (C7) *)

Section WebhookVerify.
Import Go WhatsApp.

(** C7, as stated, fails: the handler compares after trimming white space,
    so a token that differs from the configured one by surrounding blanks is
    accepted. *)
Lemma handleVerify_accepts_padded_token :
  " T" <> "T"
  /\ handleVerify "T" "subscribe" " T" "X"
     = {| status := 200; contentType := "text/plain; charset=utf-8"; body := "X" |}.
Proof. split; [discriminate | reflexivity]. Qed.

(** An empty configured token never verifies, although the tokens are equal. *)
Lemma handleVerify_rejects_empty_token :
  status (handleVerify EmptyString "subscribe" EmptyString "X") = 403.
Proof. reflexivity. Qed.

(** C7 (amended): the GET handler answers 200 with the challenge echoed
    verbatim as text/plain exactly when, after trimming white space,
    hub.mode is "subscribe", hub.verify_token is not empty and equals the
    trimmed configured token; in every other case it answers 403 with the
    fixed body "forbidden", whatever the challenge is. *)
Theorem handleVerify_spec (cfgToken mode token challenge : string) :
  let ok := TrimSpace mode = "subscribe"
            /\ TrimSpace token <> EmptyString
            /\ TrimSpace token = TrimSpace cfgToken in
  (ok -> handleVerify cfgToken mode token challenge
         = {| status := 200; contentType := "text/plain; charset=utf-8";
              body := challenge |})
  /\ (~ ok -> handleVerify cfgToken mode token challenge
              = httpError "forbidden" 403)
  /\ (status (handleVerify cfgToken mode token challenge) = 200 <-> ok).
Proof.
  intros ok. unfold handleVerify.
  destruct (String.eqb_spec (TrimSpace mode) "subscribe") as [Hm|Hm];
  destruct (String.eqb_spec (TrimSpace token) EmptyString) as [He|He];
  destruct (String.eqb_spec (TrimSpace token) (TrimSpace cfgToken)) as [Ht|Ht];
  unfold isEmpty;
  try (rewrite (proj2 (String.eqb_eq _ _) He));
  try (rewrite (proj2 (String.eqb_neq _ _) He));
  simpl; unfold ok; repeat split; intros; try tauto; try discriminate;
  try (exfalso; tauto).
Qed.

End WebhookVerify.

(** ** Send-path retry policy (C5) *)

Section SendRetry.
Import Go Adapter Samples.








Lemma telegram_loop_calls provider ctxDone fuel to text reply mode (n a : Z) :
  1 <= a ->
  Z.of_nat (calls (Telegram.sendLoop provider ctxDone fuel
                     (Call to text reply mode) n a).1.1)
  <= Z.max 0 (Telegram.maxAttempts + 1 - a).
Proof.
  unfold Telegram.maxAttempts. revert n a.
  induction fuel as [|fuel IH]; intros n a Ha; simpl; unfold Telegram.maxAttempts; [lia|].
  destruct (Z.leb_spec a 3); [|simpl; lia].
  destruct (provider (n + 1)) as [err|]; [|simpl; lia].
  destruct (Telegram.shouldRetryTelegramSend err a) as [retry wait].
  destruct (negb retry || (a =? 3)); [simpl; lia|].
  destruct (ctxDone (n + 1)); [simpl; lia|].
  specialize (IH (n + 1) (a + 1) ltac:(lia)).
  destruct (Telegram.sendLoop provider ctxDone fuel _ (n + 1) (a + 1)) as [[tr r] n'].
  simpl in *. lia.
Qed.



















End SendRetry.

(** ** Channel manager: outbound dispatch (C6) and StopAll (C10) *)

Section ManagerFacts.
Import Manager Samples.

Lemma setChannelError_fields name msg m :
  channels (setChannelError name msg m) = channels m
  /\ running (setChannelError name msg m) = running m
  /\ stopOnce (setChannelError name msg m) = stopOnce m.
Proof.
  unfold setChannelError.
  destruct (Go.isEmpty name); [auto|]. now destruct (Go.isEmpty msg).
Qed.

Lemma startEach_fields chs m :
  channels (startEach chs m).1 = channels m
  /\ running (startEach chs m).1 = running m
  /\ stopOnce (startEach chs m).1 = stopOnce m.
Proof.
  revert m. induction chs as [|ch chs IH]; intros m; simpl; [auto|].
  specialize (IH (setChannelError (chName ch) EmptyString m)).
  destruct (startEach chs _) as [m2 ev]. simpl in *.
  destruct (setChannelError_fields (chName ch) EmptyString m) as (?&?&?).
  intuition congruence.
Qed.

Lemma stopEach_fields chs m :
  channels (stopEach chs m).1 = channels m
  /\ running (stopEach chs m).1 = running m
  /\ stopOnce (stopEach chs m).1 = stopOnce m.
Proof.
  revert m. induction chs as [|ch chs IH]; intros m; simpl; [auto|].
  match goal with |- context [stopEach chs ?x] => specialize (IH x); set (m1 := x) in * end.
  assert (channels m1 = channels m /\ running m1 = running m
          /\ stopOnce m1 = stopOnce m) as (?&?&?).
  { subst m1. destruct (chStop ch); [apply setChannelError_fields | auto]. }
  destruct (stopEach chs m1) as [m2 ev]. simpl in *. intuition congruence.
Qed.

Lemma startEach_events chs m :
  (startEach chs m).2 = map (fun ch => StartCall (chName ch)) chs.
Proof.
  revert m. induction chs as [|ch chs IH]; intros m; simpl; [reflexivity|].
  specialize (IH (setChannelError (chName ch) EmptyString m)).
  destruct (startEach chs _). simpl in *. now rewrite IH.
Qed.

Lemma stopEach_events chs m :
  (stopEach chs m).2 = map (fun ch => StopCall (chName ch)) chs.
Proof.
  revert m. induction chs as [|ch chs IH]; intros m; simpl; [reflexivity|].
  match goal with |- context [stopEach chs ?x] => specialize (IH x) end.
  destruct (stopEach chs _). simpl in *. now rewrite IH.
Qed.

Lemma snapshot_complete m k ch :
  channels m !! k = Some ch -> ch ∈ snapshot m.
Proof.
  intros H. unfold snapshot. apply list_elem_of_fmap.
  exists (k, ch). split; [reflexivity|]. now apply elem_of_map_to_list.
Qed.

Lemma snapshot_sound m ch :
  ch ∈ snapshot m -> exists k, channels m !! k = Some ch.
Proof.
  unfold snapshot. intros H. apply list_elem_of_fmap in H.
  destruct H as ([k c] & -> & H). exists k. now apply elem_of_map_to_list.
Qed.

(** Once the [sync.Once] has fired, [StopAll] does nothing. *)
Lemma StopAll_spent m : stopOnce m = true -> StopAll m = (m, [], None).
Proof. intros H. unfold StopAll. now rewrite H. Qed.

Lemma StopAll_fires m : stopOnce (StopAll m).1.1 = true.
Proof.
  unfold StopAll. destruct (stopOnce m) eqn:E; [exact E|].
  match goal with |- context [stopEach ?c ?x] =>
    pose proof (stopEach_fields c x) as (_ & _ & H) end.
  destruct (stopEach _ _) as [m2 ev]. simpl in *. exact H.
Qed.

Lemma step_keeps_once o m :
  stopOnce m = true ->
  stopOnce (step o m).1 = true /\ Forall (fun e => isStop e = false) (step o m).2.
Proof.
  intros H. destruct o as [[ch|]| | |ch|msg]; simpl; auto.
  - unfold StartAll. destruct (running m); [auto|].
    match goal with |- context [startEach ?c ?x] =>
      pose proof (startEach_fields c x) as (_ & _ & Hf);
      pose proof (startEach_events c x) as He end.
    destruct (startEach _ _) as [m2 ev]. simpl in *. split; [congruence|].
    constructor; [reflexivity|]. subst ev. apply Forall_forall.
    intros e He. apply list_elem_of_fmap in He. now destruct He as (c & -> & _).
  - rewrite (StopAll_spent m H). auto.
  - unfold startExited. destruct (chStart ch) as [err|]; [|auto].
    destruct (isCanceled err); [auto|].
    destruct (setChannelError_fields (chName ch) (errText err) m) as (_&_&->). auto.
  - unfold dispatchOne. destruct (channels m !! Bus.Channel msg) as [ch|]; [|auto].
    destruct (chSend ch msg) as [err|]; [|simpl; auto].
    destruct (isCanceled err); simpl; [auto|].
    destruct (setChannelError_fields (Bus.Channel msg) (errText err) m) as (_&_&->).
    auto.
Qed.

Lemma run_keeps_once ops m :
  stopOnce m = true ->
  stopOnce (run ops m).1 = true /\ Forall (fun e => isStop e = false) (run ops m).2.
Proof.
  revert m. induction ops as [|o ops IH]; intros m H; simpl; [auto|].
  destruct (step_keeps_once o m H) as [H1 H2].
  destruct (step o m) as [m1 ev1]. simpl in *.
  destruct (IH m1 H1) as [H3 H4].
  destruct (run ops m1) as [m2 ev2]. simpl in *. split; [auto|].
  apply Forall_app. auto.
Qed.

(** C10: [StopAll] runs its stop sequence only the first time.  The first
    call marks the manager not running and calls [Stop] on every registered
    channel (and on nothing else); after it, whatever operations follow
    (including [StartAll]), no [Stop] is ever called again and every later
    [StopAll] returns nil and leaves the manager as it found it. *)
Theorem StopAll_only_once (m : Manager) (ops : list op) :
  (StopAll m).2 = None
  /\ (stopOnce m = false ->
      running (StopAll m).1.1 = false
      /\ (StopAll m).1.2 = map (fun ch => StopCall (chName ch)) (snapshot m)
      /\ (forall k ch, channels m !! k = Some ch ->
                       StopCall (chName ch) ∈ (StopAll m).1.2))
  /\ (let m1 := (StopAll m).1.1 in
      let m2 := (run ops m1).1 in
      Forall (fun e => isStop e = false) (run ops m1).2
      /\ StopAll m2 = (m2, [], None)).
Proof.
  split; [|split].
  - unfold StopAll. destruct (stopOnce m); [reflexivity|].
    now destruct (stopEach _ _).
  - intros H. unfold StopAll. rewrite H.
    match goal with |- context [stopEach ?c ?x] =>
      pose proof (stopEach_fields c x) as (_ & Hr & _);
      pose proof (stopEach_events c x) as He end.
    destruct (stopEach _ _) as [m2 ev]. simpl in *.
    split; [exact Hr|]. split; [exact He|].
    intros k ch Hk. rewrite He. apply list_elem_of_fmap.
    exists ch. split; [reflexivity|]. exact (snapshot_complete _ k ch Hk).
  - intros m1 m2.
    destruct (run_keeps_once ops m1 (StopAll_fires m)) as [H1 H2].
    split; [exact H2|]. now apply StopAll_spent.
Qed.

Lemma setChannelError_lookup name msg m :
  lastErrorByChannel (setChannelError name msg m) !! name =
  if Go.isEmpty name then lastErrorByChannel m !! name
  else if Go.isEmpty msg then None else Some msg.
Proof.
  unfold setChannelError. destruct (Go.isEmpty name); [reflexivity|].
  destruct (Go.isEmpty msg); simpl.
  - apply lookup_delete_eq.
  - apply lookup_insert_eq.
Qed.

Lemma setChannelError_other name msg m k :
  k <> name ->
  lastErrorByChannel (setChannelError name msg m) !! k = lastErrorByChannel m !! k.
Proof.
  intros Hk. unfold setChannelError. destruct (Go.isEmpty name); [reflexivity|].
  destruct (Go.isEmpty msg); simpl.
  - now apply lookup_delete_ne.
  - now apply lookup_insert_ne.
Qed.

Lemma dispatchOne_channels msg m : channels (dispatchOne msg m).1 = channels m.
Proof.
  unfold dispatchOne. destruct (channels m !! Bus.Channel msg) as [ch|]; [|reflexivity].
  destruct (chSend ch msg) as [err|]; [|reflexivity].
  destruct (isCanceled err); simpl; [reflexivity|].
  apply setChannelError_fields.
Qed.

(** The dispatcher goes on after every message: each consumed message that
    names a registered channel gets exactly one [Send], in order, whatever
    the earlier sends returned. *)
Lemma dispatchOutbound_events msgs m :
  (dispatchOutbound msgs m).2 =
  omap (fun msg => ch ← channels m !! Bus.Channel msg;
                   Some (SendCall (chName ch) msg)) msgs.
Proof.
  revert m. induction msgs as [|msg msgs IH]; intros m; simpl; [reflexivity|].
  pose proof (dispatchOne_channels msg m) as Hc.
  assert ((dispatchOne msg m).2 =
          match channels m !! Bus.Channel msg with
          | Some ch => [SendCall (chName ch) msg] | None => [] end) as He.
  { unfold dispatchOne. destruct (channels m !! Bus.Channel msg) as [ch|]; [|reflexivity].
    destruct (chSend ch msg) as [err|]; [|reflexivity].
    now destruct (isCanceled err). }
  destruct (dispatchOne msg m) as [m1 ev1]. simpl in *.
  specialize (IH m1). destruct (dispatchOutbound msgs m1) as [m2 ev2].
  simpl in *. rewrite IH, He, Hc.
  now destruct (channels m !! Bus.Channel msg).
Qed.

(** C6, as stated, fails: [setChannelError] treats an empty text as "no
    error", so a non-cancellation [Send] error with empty text is not
    recorded; it even clears the error recorded before. *)
Lemma dispatch_empty_error_text_not_recorded :
  let m := setChannelError "stub" "start failed" (Add (Some silentStub) NewManager) in
  channels m !! "stub" = Some silentStub
  /\ lastErrorByChannel m !! "stub" = Some "start failed"
  /\ (dispatchOne (helloTo "stub") m).2 = [SendCall "stub" (helloTo "stub")]
  /\ lastErrorByChannel (dispatchOne (helloTo "stub") m).1 !! "stub" = None.
Proof.
  intros m. assert (channels m !! "stub" = Some silentStub) as Hc.
  { subst m. simpl. apply lookup_insert_eq. }
  split; [exact Hc|]. split; [subst m; apply lookup_insert_eq|].
  unfold dispatchOne. change (Bus.Channel (helloTo "stub")) with "stub".
  rewrite Hc. cbn [chSend silentStub isCanceled errText negb chName fst snd].
  split; [reflexivity|]. now rewrite setChannelError_lookup.
Qed.

(** A channel registered under the empty name never gets an error recorded. *)
Lemma dispatch_empty_name_not_recorded (msg : Bus.OutboundMessage) m :
  Bus.Channel msg = EmptyString ->
  lastErrorByChannel (dispatchOne msg m).1 = lastErrorByChannel m.
Proof.
  intros Hn. unfold dispatchOne. rewrite Hn.
  destruct (channels m !! EmptyString) as [c|]; [|reflexivity].
  destruct (chSend c msg) as [err|]; [|reflexivity].
  now destruct (isCanceled err).
Qed.

(** C6 (amended): a consumed message whose channel is not registered is
    dropped: no [Send] is called and the manager, its error map included, is
    unchanged.  If a channel is registered under that name, its [Send] is
    called exactly once; when [Send] returns nil or a cancellation the
    manager is unchanged; when it returns any other error with a non-empty
    text (and the channel name is not empty) that text becomes the channel's
    last error and no other channel's entry changes; an error with an empty
    text clears the channel's entry instead.  In every case the dispatcher
    goes on with the next message. *)
Theorem dispatchOutbound_spec (m : Manager) (msg : Bus.OutboundMessage) :
  (channels m !! Bus.Channel msg = None -> dispatchOne msg m = (m, []))
  /\ (forall ch, channels m !! Bus.Channel msg = Some ch ->
       (dispatchOne msg m).2 = [SendCall (chName ch) msg]
       /\ match chSend ch msg with
          | None => (dispatchOne msg m).1 = m
          | Some err =>
            if isCanceled err then (dispatchOne msg m).1 = m
            else
              (forall k, k <> Bus.Channel msg ->
                 lastErrorByChannel (dispatchOne msg m).1 !! k
                 = lastErrorByChannel m !! k)
              /\ lastErrorByChannel (dispatchOne msg m).1 !! Bus.Channel msg
                 = if Go.isEmpty (Bus.Channel msg)
                   then lastErrorByChannel m !! Bus.Channel msg
                   else if Go.isEmpty (errText err) then None
                   else Some (errText err)
          end)
  /\ (forall rest,
       dispatchOutbound (msg :: rest) m =
       (let '(m1, ev1) := dispatchOne msg m in
        let '(m2, ev2) := dispatchOutbound rest m1 in (m2, ev1 ++ ev2))
       /\ (dispatchOutbound (msg :: rest) m).2 =
          omap (fun x => ch ← channels m !! Bus.Channel x;
                         Some (SendCall (chName ch) x)) (msg :: rest)).
Proof.
  split; [|split].
  - intros H. unfold dispatchOne. now rewrite H.
  - intros ch H. unfold dispatchOne. rewrite H.
    destruct (chSend ch msg) as [err|]; [|auto].
    destruct (isCanceled err); simpl; [auto|].
    split; [reflexivity|]. split.
    + intros k Hk. now apply setChannelError_other.
    + apply setChannelError_lookup.
  - intros rest. split; [reflexivity|]. apply dispatchOutbound_events.
Qed.

End ManagerFacts.

(** ** LLM client: retry policy (C2) *)

Section LLMRetry.
Import Go LLM.

Lemma wrap64_small (x : Z) : MinInt64 <= x <= MaxInt64 -> wrap64 x = x.
Proof.
  unfold wrap64, MinInt64, MaxInt64. intros H.
  rewrite Z.mod_small; lia.
Qed.

Lemma pow2_le (a b : Z) : 0 <= a <= b -> 2 ^ a <= 2 ^ b.
Proof. intros H. apply Z.pow_le_mono_r; lia. Qed.

(** The exponential branch: [1 << (try+1)] seconds, as long as it fits. *)
Lemma exponential_wait (try : Z) :
  0 <= try <= 32 -> wrap64 (shl1 (try + 1) * Second) = 2 ^ (try + 1) * Second.
Proof.
  intros H. unfold shl1.
  destruct (Z.leb_spec 64 (try + 1)); [lia|].
  pose proof (pow2_le (try + 1) 33 ltac:(lia)) as Hp.
  pose proof (Z.pow_pos_nonneg 2 (try + 1) ltac:(lia) ltac:(lia)) as Hq.
  change (2 ^ 33) with 8589934592 in Hp.
  rewrite (wrap64_small (2 ^ (try + 1))) by (unfold MinInt64, MaxInt64; lia).
  apply wrap64_small. unfold MinInt64, MaxInt64, Second. lia.
Qed.

Lemma computeWait_exponential (errStr : string) (try : Z) :
  retryAfterRegex errStr = None -> 0 <= try <= 32 ->
  computeWaitDuration errStr try = 2 ^ (try + 1) * Second.
Proof.
  intros Hr Ht. unfold computeWaitDuration. rewrite Hr.
  now apply exponential_wait.
Qed.

Lemma computeWait_reset (errStr ds : string) (n try : Z) :
  retryAfterRegex errStr = Some ds -> Atoi ds = Some n ->
  0 <= n <= 9223372035 ->
  computeWaitDuration errStr try = (n + 1) * Second.
Proof.
  intros Hr Ha Hn. unfold computeWaitDuration. rewrite Hr, Ha.
  rewrite (wrap64_small (n + 1)) by (unfold MinInt64, MaxInt64; lia).
  apply wrap64_small. unfold MinInt64, MaxInt64, Second. lia.
Qed.

Lemma digitsValue_nonneg (s : string) : forall acc,
  0 <= acc -> allDigits s = true -> 0 <= digitsValue acc s.
Proof.
  induction s as [|c r IH]; intros acc Ha Hd; simpl; [exact Ha|].
  simpl in Hd. apply andb_prop in Hd as [Hc Hr]. apply IH; [|exact Hr].
  unfold isDigit in Hc. apply andb_prop in Hc as [H1 H2].
  apply N.leb_le in H1, H2. lia.
Qed.

Lemma Atoi_digits_nonneg (ds : string) (n : Z) :
  allDigits ds = true -> Atoi ds = Some n -> 0 <= n.
Proof.
  intros Hd Ha. unfold Atoi in Ha.
  destruct ds as [|c r]; [discriminate|].
  simpl in Hd. apply andb_prop in Hd as [Hc Hr].
  assert ((code c =? 45)%N = false /\ (code c =? 43)%N = false) as [E1 E2].
  { unfold isDigit in Hc. apply andb_prop in Hc as [H1 H2].
    apply N.leb_le in H1, H2. split; apply N.eqb_neq; lia. }
  rewrite E1, E2 in Ha.
  destruct (isEmpty (String c r) || negb (allDigits (String c r))); [discriminate|].
  destruct ((MinInt64 <=? digitsValue 0 (String c r))
            && (digitsValue 0 (String c r) <=? MaxInt64)); [|discriminate].
  injection Ha as <-. apply digitsValue_nonneg; [|exact Hr].
  unfold isDigit in Hc. apply andb_prop in Hc as [H1 H2].
  apply N.leb_le in H1, H2. lia.
Qed.

Lemma spanDigits_run (ds rest : string) :
  allDigits ds = true -> HasPrefixFold rest "s" = true ->
  spanDigits (ds +:+ rest) = (ds, rest).
Proof.
  intros Hd Hs. induction ds as [|c r IH].
  - change (EmptyString +:+ rest) with rest.
    destruct rest as [|x rest']; [discriminate|].
    cbn [HasPrefixFold] in Hs. apply andb_prop in Hs as [Hx _].
    cbn [spanDigits]. destruct (isDigit x) eqn:E; [|reflexivity].
    exfalso. apply Ascii.eqb_eq in Hx. revert E. unfold isDigit, code.
    assert (N_of_ascii (lowerChar x) = 115%N) as Hl by (now rewrite <- Hx).
    unfold lowerChar, code in Hl.
    destruct ((65 <=? N_of_ascii x)%N && (N_of_ascii x <=? 90)%N) eqn:Hu.
    + apply andb_prop in Hu as [H1 H2]. apply N.leb_le in H1, H2.
      intros E. apply andb_prop in E as [E1 E2]. apply N.leb_le in E1, E2. lia.
    + rewrite Hl. discriminate.
  - simpl in Hd. apply andb_prop in Hd as [Hc Hr].
    change (String c r +:+ rest) with (String c (r +:+ rest)).
    simpl. rewrite Hc, (IH Hr). reflexivity.
Qed.

(** A text that starts with "reset after", a number and "s" matches, and
    the number is what is captured. *)
Lemma retryAfterRegex_here (ds post : string) :
  ds <> EmptyString -> allDigits ds = true ->
  retryAfterRegex ("reset after " +:+ ds +:+ "s" +:+ post) = Some ds.
Proof.
  intros Hne Hd.
  assert (matchResetHere ("reset after " +:+ ds +:+ "s" +:+ post) = Some ds) as Hm.
  { unfold matchResetHere.
    change (HasPrefixFold ("reset after " +:+ ds +:+ "s" +:+ post) "reset after ")
      with true.
    change (drop 12 ("reset after " +:+ ds +:+ "s" +:+ post))
      with (ds +:+ "s" +:+ post).
    rewrite (spanDigits_run ds ("s" +:+ post) Hd eq_refl).
    rewrite (proj2 (isEmpty_false ds) Hne). reflexivity. }
  change ("reset after " +:+ ds +:+ "s" +:+ post)
    with (String "r" ("eset after " +:+ ds +:+ "s" +:+ post)) in *.
  simpl retryAfterRegex. now rewrite Hm.
Qed.

Lemma computeWait_unparsable (errStr ds : string) (try : Z) :
  retryAfterRegex errStr = Some ds -> Atoi ds = None -> 0 <= try <= 32 ->
  computeWaitDuration errStr try = 2 ^ (try + 1) * Second.
Proof.
  intros Hr Ha Ht. unfold computeWaitDuration. rewrite Hr, Ha.
  now apply exponential_wait.
Qed.

Section Loop.
Context {R : Type}.
Variable doChat : Z -> R + string.
Variable ctxDone : Z -> option Adapter.CtxErr.

Lemma chatLoop_attempts fuel mt try last :
  Z.of_nat (attempts (chatLoop doChat ctxDone fuel mt try last).1)
  <= Z.max 0 (mt + 1 - try).
Proof.
  revert try last. induction fuel as [|fuel IH]; intros try last; simpl; [lia|].
  destruct (Z.leb_spec try mt); [|simpl; lia].
  destruct (doChat try) as [res|err]; [simpl; lia|].
  destruct ((isRateLimit (ToLower err) || isTimeout (ToLower err)) && (try <? mt));
    [|simpl; lia].
  destruct (ctxDone try); [simpl; lia|].
  specialize (IH (try + 1) (Fail err)).
  destruct (chatLoop doChat ctxDone fuel mt (try + 1) (Fail err)) as [tr o].
  simpl in *. lia.
Qed.

(** The [k]-th completed wait follows the failed attempt [try + k], whose
    error is retryable, and lasts what [computeWaitDuration] says. *)
Lemma chatLoop_waits fuel mt try last (k : nat) (d : Z) :
  waits (chatLoop doChat ctxDone fuel mt try last).1 !! k = Some d ->
  exists err, doChat (try + Z.of_nat k) = inr err
    /\ retryable err = true
    /\ try + Z.of_nat k < mt
    /\ d = computeWaitDuration (ToLower err) (try + Z.of_nat k).
Proof.
  revert try last k. induction fuel as [|fuel IH]; intros try last k; simpl;
    [discriminate|].
  destruct (Z.leb_spec try mt); [|discriminate].
  destruct (doChat try) as [res|err] eqn:Hd; [discriminate|].
  destruct (isRateLimit (ToLower err) || isTimeout (ToLower err)) eqn:Hc;
    simpl; [|discriminate].
  destruct (Z.ltb_spec try mt); [|discriminate].
  destruct (ctxDone try); [discriminate|].
  specialize (IH (try + 1) (Fail err)).
  destruct (chatLoop doChat ctxDone fuel mt (try + 1) (Fail err)) as [tr o].
  destruct k as [|k]; simpl.
  - intros [= <-]. exists err. rewrite Z.add_0_r. unfold retryable. auto.
  - intros Hk. destruct (IH k Hk) as (e & H1 & H2 & H3 & H4).
    exists e. replace (try + Z.of_nat (S k)) with (try + 1 + Z.of_nat k) by lia.
    auto.
Qed.

(** An error that is neither a rate limit nor a timeout ends the loop at
    once and is returned. *)
Lemma chatLoop_fatal fuel mt try last err :
  try <= mt -> doChat try = inr err -> retryable err = false ->
  chatLoop doChat ctxDone (S fuel) mt try last = ([Attempt try], Fail err).
Proof.
  intros Ht Hd Hc. simpl. destruct (Z.leb_spec try mt); [|lia].
  rewrite Hd. unfold retryable in Hc. now rewrite Hc.
Qed.

(** A retryable error on the last permitted attempt is returned too. *)
Lemma chatLoop_exhausted fuel mt last err :
  doChat mt = inr err ->
  chatLoop doChat ctxDone (S fuel) mt mt last = ([Attempt mt], Fail err).
Proof.
  intros Hd. simpl. rewrite Z.leb_refl, Hd, Z.ltb_irrefl.
  now rewrite andb_false_r.
Qed.

(** The caller's context ending during the wait returns its error; no
    further attempt is made. *)
Lemma chatLoop_cancel fuel mt try last err e :
  try < mt -> doChat try = inr err -> retryable err = true ->
  ctxDone try = Some e ->
  chatLoop doChat ctxDone (S fuel) mt try last = ([Attempt try], CtxErr e).
Proof.
  intros Ht Hd Hc He. simpl. destruct (Z.leb_spec try mt); [|lia].
  rewrite Hd. unfold retryable in Hc. rewrite Hc.
  destruct (Z.ltb_spec try mt); [|lia]. simpl. now rewrite He.
Qed.

(** A retryable error before the last attempt, with the context alive, is
    followed by the computed wait and the next attempt. *)
Lemma chatLoop_retry fuel mt try last err :
  try < mt -> doChat try = inr err -> retryable err = true ->
  ctxDone try = None ->
  chatLoop doChat ctxDone (S fuel) mt try last =
  (Attempt try :: Wait (computeWaitDuration (ToLower err) try)
     :: (chatLoop doChat ctxDone fuel mt (try + 1) (Fail err)).1,
   (chatLoop doChat ctxDone fuel mt (try + 1) (Fail err)).2).
Proof.
  intros Ht Hd Hc He. simpl. destruct (Z.leb_spec try mt); [|lia].
  rewrite Hd. unfold retryable in Hc. rewrite Hc.
  destruct (Z.ltb_spec try mt); [|lia]. simpl. rewrite He.
  now destruct (chatLoop doChat ctxDone fuel mt (try + 1) (Fail err)).
Qed.

(** When every attempt fails with a retryable error and the context stays
    alive, the loop makes exactly [maxTries + 1] attempts. *)
Lemma chatLoop_all_fail fuel mt try last :
  0 <= try <= mt -> (Z.to_nat (mt + 1 - try) <= fuel)%nat ->
  (forall k, exists err, doChat k = inr err /\ retryable err = true) ->
  (forall k, ctxDone k = None) ->
  Z.of_nat (attempts (chatLoop doChat ctxDone fuel mt try last).1) = mt + 1 - try.
Proof.
  intros Ht Hf Hall Hctx. revert try last Ht Hf.
  induction fuel as [|fuel IH]; intros try last Ht Hf; [lia|].
  destruct (Hall try) as (err & Hd & Hc).
  destruct (Z.eq_dec try mt) as [->|Hne].
  - rewrite (chatLoop_exhausted fuel mt last err Hd). simpl. lia.
  - rewrite (chatLoop_retry fuel mt try last err ltac:(lia) Hd Hc (Hctx try)).
    simpl. specialize (IH (try + 1) (Fail err) ltac:(lia) ltac:(lia)). lia.
Qed.

Lemma chatLoop_last fuel mt : forall try last,
  try <= mt -> (Z.to_nat (mt + 1 - try) <= fuel)%nat ->
  let r := chatLoop doChat ctxDone fuel mt try last in
  attempts r.1 = S (length (waits r.1))
  /\ match r.2 with
     | Ok res => doChat (try + Z.of_nat (length (waits r.1))) = inl res
     | Fail err =>
       doChat (try + Z.of_nat (length (waits r.1))) = inr err
       /\ (retryable err = false \/ mt <= try + Z.of_nat (length (waits r.1)))
     | CtxErr e =>
       ctxDone (try + Z.of_nat (length (waits r.1))) = Some e
       /\ try + Z.of_nat (length (waits r.1)) < mt
       /\ exists err, doChat (try + Z.of_nat (length (waits r.1))) = inr err
                      /\ retryable err = true
     end.
Proof.
  unfold retryable.
  induction fuel as [|fuel IH]; intros try last Ht Hf; [lia|].
  cbn [chatLoop]. destruct (Z.leb_spec try mt); [|lia].
  destruct (doChat try) as [res|err] eqn:Hd.
  { cbn. rewrite Z.add_0_r. auto. }
  destruct (isRateLimit (ToLower err) || isTimeout (ToLower err)) eqn:Hc;
    cbn [andb]; [|cbn; rewrite Z.add_0_r; auto].
  destruct (Z.ltb_spec try mt); [|cbn; rewrite Z.add_0_r; auto].
  destruct (ctxDone try) as [e|] eqn:He.
  { cbn. rewrite Z.add_0_r. split; [reflexivity|]. split; [exact He|].
    split; [assumption|]. exists err. auto. }
  specialize (IH (try + 1) (Fail err) ltac:(lia) ltac:(lia)).
  destruct (chatLoop doChat ctxDone fuel mt (try + 1) (Fail err)) as [tr o].
  cbn [fst snd attempts waits length] in *. destruct IH as [IH1 IH2].
  split; [now rewrite IH1|].
  replace (try + Z.of_nat (S (length (waits tr))))
    with (try + 1 + Z.of_nat (length (waits tr))) by lia.
  exact IH2.
Qed.

(** The loop always makes its first attempt. *)
Lemma chatLoop_first fuel mt try last :
  try <= mt -> (1 <= fuel)%nat ->
  exists rest, (chatLoop doChat ctxDone fuel mt try last).1 = Attempt try :: rest.
Proof.
  intros Ht Hf. destruct fuel as [|fuel]; [lia|]. cbn [chatLoop].
  destruct (Z.leb_spec try mt); [|lia].
  destruct (doChat try) as [res|err]; [cbn; eauto|].
  destruct ((isRateLimit (ToLower err) || isTimeout (ToLower err)) && (try <? mt));
    [|cbn; eauto].
  destruct (ctxDone try); [cbn; eauto|].
  destruct (chatLoop doChat ctxDone fuel mt (try + 1) (Fail err)) as [tr o].
  cbn. eauto.
Qed.

(** Attempt [k + 1] of the loop (counting from 0) is made exactly when
    attempt [k] failed with a retryable error, was not the last one
    allowed, and the context stayed alive during the wait; the wait
    computed for that error then sits between the two attempts. *)
Lemma chatLoop_next fuel mt : forall try last (k : nat),
  try <= mt -> (Z.to_nat (mt + 1 - try) <= fuel)%nat ->
  (k < attempts (chatLoop doChat ctxDone fuel mt try last).1)%nat ->
  ((S k < attempts (chatLoop doChat ctxDone fuel mt try last).1)%nat ->
   exists err pre post,
     doChat (try + Z.of_nat k) = inr err /\ retryable err = true
     /\ try + Z.of_nat k < mt /\ ctxDone (try + Z.of_nat k) = None
     /\ waits (chatLoop doChat ctxDone fuel mt try last).1 !! k
        = Some (computeWaitDuration (ToLower err) (try + Z.of_nat k))
     /\ (chatLoop doChat ctxDone fuel mt try last).1
        = pre ++ Attempt (try + Z.of_nat k)
              :: Wait (computeWaitDuration (ToLower err) (try + Z.of_nat k))
              :: Attempt (try + Z.of_nat k + 1) :: post
     /\ attempts pre = k)
  /\ ((exists err, doChat (try + Z.of_nat k) = inr err /\ retryable err = true
         /\ try + Z.of_nat k < mt /\ ctxDone (try + Z.of_nat k) = None) ->
      (S k < attempts (chatLoop doChat ctxDone fuel mt try last).1)%nat).
Proof.
  unfold retryable.
  induction fuel as [|fuel IH]; intros try last k Ht Hf Hk; [cbn in Hk; lia|].
  revert Hk. cbn [chatLoop].
  destruct (Z.leb_spec try mt); [|lia].
  destruct (doChat try) as [res|err] eqn:Hd.
  { cbn. intros Hk. assert (k = 0%nat) by lia. subst k. rewrite Z.add_0_r.
    split; [lia|]. intros (e & He & _). congruence. }
  destruct (isRateLimit (ToLower err) || isTimeout (ToLower err)) eqn:Hc;
    cbn [andb].
  2:{ cbn. intros Hk. assert (k = 0%nat) by lia. subst k. rewrite Z.add_0_r.
      split; [lia|]. intros (e & He & Hr & _). congruence. }
  destruct (Z.ltb_spec try mt) as [Hlt|Hge].
  2:{ cbn. intros Hk. assert (k = 0%nat) by lia. subst k. rewrite Z.add_0_r.
      split; [lia|]. intros (e & _ & _ & Hl & _). lia. }
  destruct (ctxDone try) eqn:Hx.
  { cbn. intros Hk. assert (k = 0%nat) by lia. subst k. rewrite Z.add_0_r.
    split; [lia|]. intros (e & _ & _ & _ & Hn). congruence. }
  destruct (chatLoop_first fuel mt (try + 1) (Fail err) ltac:(lia) ltac:(lia))
    as [rest Hrest].
  specialize (IH (try + 1) (Fail err)).
  destruct (chatLoop doChat ctxDone fuel mt (try + 1) (Fail err)) as [tr o].
  cbn [fst snd attempts waits] in *. subst tr. intros Hk. destruct k as [|k].
  - rewrite Z.add_0_r. split.
    + intros _. exists err, [], rest. cbn. repeat split; auto.
    + intros _. cbn. lia.
  - specialize (IH k ltac:(lia) ltac:(lia) ltac:(lia)).
    replace (try + Z.of_nat (S k)) with (try + 1 + Z.of_nat k) by lia.
    destruct IH as [IH1 IH2]. split.
    + intros Hs. destruct (IH1 ltac:(lia)) as (e & pre & post & H1 & H2 & H3 & H4 & H5 & H6 & H7).
      exists e, (Attempt try :: Wait (computeWaitDuration (ToLower err) try) :: pre), post.
      repeat split; auto.
      * cbn. now rewrite H6.
      * cbn. now rewrite H7.
    + intros Hs. specialize (IH2 Hs). lia.
Qed.

Lemma Chat_trace t clk c :
  (Chat doChat ctxDone t clk c).1.2
  = (chatLoop doChat ctxDone (Z.to_nat (maxTries c + 1)) (maxTries c) 0
       (Fail EmptyString)).1
  /\ (Chat doChat ctxDone t clk c).2
  = (chatLoop doChat ctxDone (Z.to_nat (maxTries c + 1)) (maxTries c) 0
       (Fail EmptyString)).2.
Proof. unfold Chat. now destruct (chatLoop _ _ _ _ _ _). Qed.

Lemma maxTries_pos c : 1 <= maxTries c.
Proof. unfold maxTries. destruct (Z.leb_spec (MaxRetries c) 0); lia. Qed.

End Loop.

(** C2, as stated, fails on the wait: a "reset after Ns" whose number does
    not fit an [int] makes [strconv.Atoi] fail, and the code falls back to
    the exponential wait instead of waiting N+1 seconds. *)
Lemma reset_after_unparsable_falls_back :
  let err := "HTTP 429: quota will reset after 99999999999999999999s" in
  retryable err = true
  /\ retryAfterRegex (ToLower err) = Some "99999999999999999999"
  /\ computeWaitDuration (ToLower err) 0 = 2 * Second
  /\ 2 * Second <> (99999999999999999999 + 1) * Second
  /\ (chatLoop (R := unit)
        (fun try => if try =? 0 then inr err else inl tt) (fun _ => None)
        4 3 0 (Fail EmptyString)).1
     = [Attempt 0; Wait (2 * Second); Attempt 1].
Proof. repeat split; try reflexivity. discriminate. Qed.

(** C2 (amended): [Chat] always makes a first attempt and at most
    [maxTries + 1] attempts, where [maxTries] is [max_retries], or 3 when
    that is not positive, and exactly that many when every attempt fails
    with a retryable error and the context stays alive.  An error is
    retryable when its lowercased text contains "429", "rate limit",
    "resource_exhausted", "timeout" or "deadline exceeded".  Attempt
    [k + 1] is made if and only if attempt [k] failed with a retryable
    error, [k < maxTries], and the context stayed alive during the wait,
    which sits between the two attempts; a success, any other error, a
    failure of the last attempt allowed, and the end of the context
    during a wait each end the loop at that attempt and are what [Chat]
    returns.  The wait is [wrap64 (wrap64 (N+1) * Second)] when the text
    matches "reset after Ns" and N parses as an int: N+1 seconds for
    N <= 9223372035 ("reset after 7s" waits 8 s at every attempt), while
    for N = 9223372036 the 64-bit Duration wraps to a negative value.
    Otherwise, also when N does not parse, it is
    [wrap64 ((1 << (attempt+1)) * Second)]: 2^(attempt+1) seconds for
    attempts 0..32, a negative value at attempt 33, and 0 from attempt 63
    on. *)
Theorem chat_retry_policy {R : Type} (doChat : Z -> R + string)
    (ctxDone : Z -> option Adapter.CtxErr) (t : Timing) (clk : Z) (c : Client) :
  let mt := maxTries c in
  let tr := (Chat doChat ctxDone t clk c).1.2 in
  mt = (if MaxRetries c <=? 0 then 3 else MaxRetries c)
  /\ Z.of_nat (attempts tr) <= mt + 1
  /\ ((forall k, exists err, doChat k = inr err /\ retryable err = true) ->
      (forall k, ctxDone k = None) ->
      Z.of_nat (attempts tr) = mt + 1)
  /\ (forall err,
      retryable err =
      (Contains (ToLower err) "429" || Contains (ToLower err) "rate limit"
       || Contains (ToLower err) "resource_exhausted"
       || (Contains (ToLower err) "timeout"
           || Contains (ToLower err) "deadline exceeded")))
  /\ (forall fuel try last err,
      try <= mt -> doChat try = inr err -> retryable err = false ->
      chatLoop doChat ctxDone (S fuel) mt try last = ([Attempt try], Fail err))
  /\ (forall err,
      doChat 0 = inr err -> retryable err = false ->
      tr = [Attempt 0] /\ (Chat doChat ctxDone t clk c).2 = Fail err)
  /\ (forall (k : nat) d,
      waits tr !! k = Some d ->
      exists err, doChat (Z.of_nat k) = inr err /\ retryable err = true
        /\ Z.of_nat k < mt
        /\ d = computeWaitDuration (ToLower err) (Z.of_nat k))
  /\ (forall errStr ds n try,
      retryAfterRegex errStr = Some ds -> Atoi ds = Some n ->
      0 <= n <= 9223372035 ->
      computeWaitDuration errStr try = (n + 1) * Second)
  /\ (forall ds post n try,
      ds <> EmptyString -> allDigits ds = true -> Atoi ds = Some n ->
      n <= 9223372035 ->
      computeWaitDuration ("reset after " +:+ ds +:+ "s" +:+ post) try
      = (n + 1) * Second)
  /\ (forall try, computeWaitDuration "reset after 7s" try = 8 * Second)
  /\ (forall errStr try,
      retryAfterRegex errStr = None
      \/ (exists ds, retryAfterRegex errStr = Some ds /\ Atoi ds = None) ->
      0 <= try <= 32 ->
      computeWaitDuration errStr try = 2 ^ (try + 1) * Second)
  /\ (forall fuel try last err e,
      try < mt -> doChat try = inr err -> retryable err = true ->
      ctxDone try = Some e ->
      chatLoop doChat ctxDone (S fuel) mt try last = ([Attempt try], CtxErr e))
  /\ (exists rest, tr = Attempt 0 :: rest)
  /\ (forall k : nat, (k < attempts tr)%nat ->
      ((S k < attempts tr)%nat <->
       exists err, doChat (Z.of_nat k) = inr err /\ retryable err = true
         /\ Z.of_nat k < mt /\ ctxDone (Z.of_nat k) = None))
  /\ (forall k : nat, (S k < attempts tr)%nat ->
      exists err pre post,
        doChat (Z.of_nat k) = inr err
        /\ waits tr !! k = Some (computeWaitDuration (ToLower err) (Z.of_nat k))
        /\ tr = pre ++ Attempt (Z.of_nat k)
                   :: Wait (computeWaitDuration (ToLower err) (Z.of_nat k))
                   :: Attempt (Z.of_nat k + 1) :: post
        /\ attempts pre = k)
  /\ (forall (k : nat) res,
      (k < attempts tr)%nat -> doChat (Z.of_nat k) = inl res ->
      attempts tr = S k /\ (Chat doChat ctxDone t clk c).2 = Ok res)
  /\ (forall (k : nat) err,
      (k < attempts tr)%nat -> doChat (Z.of_nat k) = inr err ->
      retryable err = false \/ mt <= Z.of_nat k ->
      attempts tr = S k /\ (Chat doChat ctxDone t clk c).2 = Fail err)
  /\ (forall (k : nat) err e,
      (k < attempts tr)%nat -> doChat (Z.of_nat k) = inr err ->
      retryable err = true -> Z.of_nat k < mt -> ctxDone (Z.of_nat k) = Some e ->
      attempts tr = S k /\ (Chat doChat ctxDone t clk c).2 = CtxErr e)
  /\ (forall errStr ds n try,
      retryAfterRegex errStr = Some ds -> Atoi ds = Some n ->
      computeWaitDuration errStr try = wrap64 (wrap64 (n + 1) * Second))
  /\ (forall try,
      computeWaitDuration "reset after 9223372036s" try
      = 9223372037 * Second - 2 ^ 64)
  /\ (forall errStr try,
      retryAfterRegex errStr = None
      \/ (exists ds, retryAfterRegex errStr = Some ds /\ Atoi ds = None) ->
      computeWaitDuration errStr try = wrap64 (shl1 (try + 1) * Second))
  /\ (forall errStr,
      retryAfterRegex errStr = None
      \/ (exists ds, retryAfterRegex errStr = Some ds /\ Atoi ds = None) ->
      computeWaitDuration errStr 33 = 2 ^ 34 * Second - 2 ^ 64)
  /\ (forall errStr try,
      retryAfterRegex errStr = None
      \/ (exists ds, retryAfterRegex errStr = Some ds /\ Atoi ds = None) ->
      63 <= try ->
      computeWaitDuration errStr try = 0).
Proof.
  intros mt tr.
  destruct (Chat_trace doChat ctxDone t clk c) as [Htr Hout].
  fold tr in Htr. fold mt in Htr, Hout.
  pose proof (maxTries_pos c) as Hmt. fold mt in Hmt.
  assert (Hlast : forall (k : nat) (o : outcome R),
    (k < attempts tr)%nat ->
    ~ (exists err, doChat (Z.of_nat k) = inr err /\ retryable err = true
         /\ Z.of_nat k < mt /\ ctxDone (Z.of_nat k) = None) ->
    (forall o', match o' with
                | Ok res => doChat (Z.of_nat k) = inl res
                | Fail err =>
                  doChat (Z.of_nat k) = inr err
                  /\ (retryable err = false \/ mt <= Z.of_nat k)
                | CtxErr e =>
                  ctxDone (Z.of_nat k) = Some e /\ Z.of_nat k < mt
                  /\ exists err, doChat (Z.of_nat k) = inr err
                                 /\ retryable err = true
                end -> o' = o) ->
    attempts tr = S k /\ (Chat doChat ctxDone t clk c).2 = o).
  { intros k o Hk Hno Huniq. rewrite Hout. rewrite Htr in Hk |- *.
    destruct (chatLoop_next doChat ctxDone (Z.to_nat (mt + 1)) mt 0 (Fail EmptyString) k
                ltac:(lia) ltac:(lia) Hk) as [Hfw _].
    rewrite Z.add_0_l in Hfw.
    pose proof (chatLoop_last doChat ctxDone (Z.to_nat (mt + 1)) mt 0 (Fail EmptyString)
                  ltac:(lia) ltac:(lia)) as [Hl1 Hl2].
    assert (Hn : attempts (chatLoop doChat ctxDone (Z.to_nat (mt + 1)) mt 0
                             (Fail EmptyString)).1 = S k).
    { destruct (Nat.lt_ge_cases (S k)
                  (attempts (chatLoop doChat ctxDone (Z.to_nat (mt + 1)) mt 0
                               (Fail EmptyString)).1)) as [Hlt|Hge]; [|lia].
      exfalso. apply Hno. destruct (Hfw Hlt) as (err & _ & _ & H1 & H2 & H3 & H4 & _).
      eauto. }
    split; [exact Hn|]. apply Huniq.
    rewrite Hn in Hl1. injection Hl1 as Hl1. rewrite <- Hl1 in Hl2.
    rewrite Z.add_0_l in Hl2. exact Hl2. }
  repeat match goal with |- _ /\ _ => split end.
  - reflexivity.
  - rewrite Htr. pose proof (chatLoop_attempts doChat ctxDone
      (Z.to_nat (mt + 1)) mt 0 (Fail EmptyString)). lia.
  - intros Hall Hctx. rewrite Htr.
    rewrite (chatLoop_all_fail doChat ctxDone (Z.to_nat (mt + 1)) mt 0
               (Fail EmptyString) ltac:(lia) ltac:(lia) Hall Hctx).
    lia.
  - intros err. unfold retryable, isRateLimit, isTimeout. reflexivity.
  - intros. now apply chatLoop_fatal.
  - intros err Hd Hc. rewrite Hout, Htr.
    destruct (Z.to_nat (mt + 1)) as [|fuel] eqn:Hf; [lia|].
    rewrite (chatLoop_fatal doChat ctxDone fuel mt 0 _ err ltac:(lia) Hd Hc).
    auto.
  - intros k d Hk. rewrite Htr in Hk. apply chatLoop_waits in Hk.
    destruct Hk as (err & H1 & H2 & H3 & H4). rewrite Z.add_0_l in *. eauto.
  - intros. eapply computeWait_reset; eauto.
  - intros ds post n try Hne Hd Ha Hn.
    eapply computeWait_reset; [now apply retryAfterRegex_here | exact Ha |].
    split; [|exact Hn]. now apply (Atoi_digits_nonneg ds).
  - intros try. reflexivity.
  - intros errStr try [Hn|(ds & Hs & Ha)] Ht.
    + now apply computeWait_exponential.
    + eapply computeWait_unparsable; eauto.
  - intros fuel try last err e Ht Hd Hc He.
    now apply (chatLoop_cancel doChat ctxDone fuel mt try last err e).
  - rewrite Htr. apply chatLoop_first; lia.
  - intros k Hk. rewrite Htr in Hk |- *.
    destruct (chatLoop_next doChat ctxDone (Z.to_nat (mt + 1)) mt 0 (Fail EmptyString) k
                ltac:(lia) ltac:(lia) Hk) as [Hfw Hbw].
    rewrite Z.add_0_l in Hfw, Hbw. split; [|exact Hbw].
    intros H. destruct (Hfw H) as (err & pre & post & H1 & H2 & H3 & H4 & _).
    eauto.
  - intros k Hk. rewrite Htr in Hk |- *.
    assert (Hk0 : (k < attempts (chatLoop doChat ctxDone (Z.to_nat (mt + 1)) mt 0
                                   (Fail EmptyString)).1)%nat) by lia.
    destruct (chatLoop_next doChat ctxDone (Z.to_nat (mt + 1)) mt 0 (Fail EmptyString) k
                ltac:(lia) ltac:(lia) Hk0) as [Hfw _].
    rewrite Z.add_0_l in Hfw.
    destruct (Hfw Hk) as (err & pre & post & H1 & _ & _ & _ & H5 & H6 & H7).
    exists err, pre, post. auto.
  - intros k res Hk Hd. apply Hlast; [exact Hk| |].
    + intros (err & He & _). congruence.
    + intros o Ho. destruct o as [res'|err'|e']; cbn in Ho.
      * congruence.
      * destruct Ho as [Ho _]. congruence.
      * destruct Ho as (_ & _ & err' & Ho & _). congruence.
  - intros k err Hk Hd Hstop. apply Hlast; [exact Hk| |].
    + intros (err' & He & Hr & Hl & _).
      destruct Hstop as [Hs|Hs]; [congruence|lia].
    + intros o Ho. destruct o as [res'|err'|e']; cbn in Ho.
      * congruence.
      * destruct Ho as [Ho _]. congruence.
      * destruct Ho as (_ & Hl & err' & Ho & Hr).
        destruct Hstop as [Hs|Hs]; [congruence|lia].
  - intros k err e Hk Hd Hr Hl He. apply Hlast; [exact Hk| |].
    + intros (err' & _ & _ & _ & Hn). congruence.
    + intros o Ho. destruct o as [res'|err'|e']; cbn in Ho.
      * congruence.
      * destruct Ho as [Ho [Hs|Hs]]; [congruence|lia].
      * destruct Ho as (Ho & _). congruence.
  - intros errStr ds n try Hr Ha. unfold computeWaitDuration. now rewrite Hr, Ha.
  - intros try. reflexivity.
  - intros errStr try [Hn|(ds & Hs & Ha)]; unfold computeWaitDuration.
    + now rewrite Hn.
    + now rewrite Hs, Ha.
  - intros errStr [Hn|(ds & Hs & Ha)]; unfold computeWaitDuration.
    + now rewrite Hn.
    + now rewrite Hs, Ha.
  - intros errStr try Hfb Ht.
    assert (computeWaitDuration errStr try = wrap64 (shl1 (try + 1) * Second)) as ->.
    { destruct Hfb as [Hn|(ds & Hs & Ha)]; unfold computeWaitDuration.
      - now rewrite Hn.
      - now rewrite Hs, Ha. }
    unfold shl1. destruct (Z.leb_spec 64 (try + 1)); [reflexivity|lia].
Qed.

End LLMRetry.

(** ** LLM client: cooldown between request starts (C1) *)

Section LLMCooldown.
Import Go LLM.
Context {R : Type}.
Variable doChat : Z -> R + string.
Variable ctxDone : Z -> option Adapter.CtxErr.

Lemma cooldown_pos c : 0 < cooldown c.
Proof.
  unfold cooldown, Second. destruct (Z.leb_spec (Cooldown c) 0); lia.
Qed.

Lemma cooldown_default c : Cooldown c <= 0 -> cooldown c = 1 * Second.
Proof. unfold cooldown. intros H. destruct (Z.leb_spec (Cooldown c) 0); [auto|lia]. Qed.

Lemma cooldown_configured c : 0 < Cooldown c -> cooldown c = Cooldown c.
Proof. unfold cooldown. intros H. destruct (Z.leb_spec (Cooldown c) 0); [lia|auto]. Qed.

Lemma cooldown_fits c : Cooldown c <= MaxInt64 -> cooldown c <= MaxInt64.
Proof.
  unfold cooldown, Second, MaxInt64.
  destruct (Z.leb_spec (Cooldown c) 0); lia.
Qed.

(** One [Chat]: the request start it records, and the clock afterwards. *)
Lemma Chat_start t clk c :
  validTiming t -> Cooldown c <= MaxInt64 ->
  (forall u, lastReqAt c = Some u -> u <= clk) ->
  exists s,
    lastReqAt (Chat doChat ctxDone t clk c).1.1.2 = Some s
    /\ Cooldown (Chat doChat ctxDone t clk c).1.1.2 = Cooldown c
    /\ clk <= s <= (Chat doChat ctxDone t clk c).1.1.1
    /\ (forall u, lastReqAt c = Some u -> cooldown c <= s - u).
Proof.
  intros (Hb & Ho & Hl & Hd) Hfit Hinv. unfold Chat.
  pose proof (cooldown_pos c) as Hpos.
  pose proof (cooldown_fits c Hfit) as Hcf.
  destruct (chatLoop _ _ _ _ _ _) as [tr o]. simpl.
  eexists. split; [reflexivity|]. split; [reflexivity|].
  destruct (lastReqAt c) as [u|] eqn:Hu; simpl.
  - specialize (Hinv u eq_refl).
    unfold MinInt64, MaxInt64 in *.
    destruct (Z.ltb_spec (Z.max (- 2 ^ 63) (Z.min (2 ^ 63 - 1) (clk + before t - u)))
                (cooldown c)) as [Hlt|Hge].
    + assert (Z.max (- 2 ^ 63) (Z.min (2 ^ 63 - 1) (clk + before t - u))
              = clk + before t - u) as -> by lia.
      rewrite wrap64_small by (unfold MinInt64, MaxInt64; lia).
      split; [lia|]. intros u' [= <-]. lia.
    + split; [lia|]. intros u' [= <-]. lia.
  - unfold MaxInt64 in *.
    destruct (Z.ltb_spec (2 ^ 63 - 1) (cooldown c)); [lia|].
    split; [lia|]. discriminate.
Qed.

Lemma starts_spaced ts : forall clk c,
  Forall validTiming ts -> Cooldown c <= MaxInt64 ->
  (forall u, lastReqAt c = Some u -> u <= clk) ->
  spaced (cooldown c) (starts doChat ctxDone ts clk c)
  /\ (forall u, lastReqAt c = Some u ->
        Forall (fun y => cooldown c <= y - u) (starts doChat ctxDone ts clk c)).
Proof.
  induction ts as [|t ts IH]; intros clk c Hv Hfit Hinv; simpl.
  - split; [exact I|]. intros; constructor.
  - inversion Hv as [|? ? Ht Hts]; subst.
    destruct (Chat_start t clk c Ht Hfit Hinv) as (s & Hs & Hc & Hclk & Hgap).
    destruct (Chat doChat ctxDone t clk c) as [[[clk' c'] tr] o]. simpl in *.
    rewrite Hs.
    assert (cooldown c' = cooldown c) as Hcd by (unfold cooldown; now rewrite Hc).
    destruct (IH clk' c' Hts ltac:(lia)) as [IH1 IH2].
    { intros u Hu. rewrite Hs in Hu. injection Hu as <-. lia. }
    rewrite Hcd in *. specialize (IH2 s Hs).
    split; [split; assumption|].
    intros u Hu. specialize (Hgap u Hu). constructor; [exact Hgap|].
    pose proof (cooldown_pos c).
    eapply Forall_impl; [exact IH2|]. simpl. intros y Hy. lia.
Qed.

Lemma spaced_lookup d l : forall (i j : nat) a b,
  spaced d l -> (i < j)%nat -> l !! i = Some a -> l !! j = Some b -> d <= b - a.
Proof.
  induction l as [|x r IH]; intros i j a b Hs Hij Hi Hj; [discriminate|].
  destruct Hs as [Hx Hr]. destruct j as [|j]; [lia|].
  destruct i as [|i]; simpl in *.
  - injection Hi as <-. rewrite Forall_forall in Hx. apply Hx.
    eapply list_elem_of_lookup_2; eauto.
  - eapply (IH i j); eauto. lia.
Qed.

Lemma starts_length ts : forall clk c,
  length (starts doChat ctxDone ts clk c) = length ts.
Proof.
  induction ts as [|t ts IH]; intros clk c; [reflexivity|].
  cbn [starts]. unfold Chat at 1.
  destruct (chatLoop _ _ _ _ _ _) as [tr o]. cbn [lastReqAt length].
  now rewrite IH.
Qed.

(** One [Chat]: the elapsed time it computes, the remainder it sleeps, and
    the start it records. *)
Lemma Chat_start_exact t clk c :
  validTiming t -> Cooldown c <= MaxInt64 ->
  (forall u, lastReqAt c = Some u -> u <= clk) ->
  lastReqAt (Chat doChat ctxDone t clk c).1.1.2
  = Some (match lastReqAt c with
          | None => clk + before t + lag t
          | Some u =>
            if clk + before t - u <? cooldown c
            then clk + before t + (cooldown c - (clk + before t - u))
                 + oversleep t + lag t
            else clk + before t + lag t
          end)
  /\ (forall s, lastReqAt (Chat doChat ctxDone t clk c).1.1.2 = Some s ->
        (Chat doChat ctxDone t clk c).1.1.1 = s + duration t)
  /\ Cooldown (Chat doChat ctxDone t clk c).1.1.2 = Cooldown c.
Proof.
  intros (Hb & Ho & Hl & Hd) Hfit Hinv. unfold Chat.
  pose proof (cooldown_pos c) as Hpos.
  pose proof (cooldown_fits c Hfit) as Hcf.
  destruct (chatLoop _ _ _ _ _ _) as [tr o]. cbn [fst snd lastReqAt Cooldown].
  split; [|split; [intros s [= <-]; reflexivity|reflexivity]].
  f_equal. destruct (lastReqAt c) as [u|] eqn:Hu; cbn [Sub].
  - specialize (Hinv u eq_refl). unfold MinInt64, MaxInt64 in *.
    destruct (Z.ltb_spec (Z.max (- 2 ^ 63) (Z.min (2 ^ 63 - 1) (clk + before t - u)))
                (cooldown c)) as [Hlt|Hge];
      destruct (Z.ltb_spec (clk + before t - u) (cooldown c)) as [Hlt'|Hge'];
      try lia.
    assert (Z.max (- 2 ^ 63) (Z.min (2 ^ 63 - 1) (clk + before t - u))
            = clk + before t - u) as -> by lia.
    rewrite wrap64_small by (unfold MinInt64, MaxInt64; lia). lia.
  - unfold MaxInt64 in *.
    destruct (Z.ltb_spec (2 ^ 63 - 1) (cooldown c)); [lia|reflexivity].
Qed.

(** C1 (amended): on one client, under a monotonic clock, the recorded
    starts of any two [Chat] calls are at least the cooldown apart, where
    the cooldown is the configured one, or 1 s when that is not positive;
    every call records one start.  [Chat] computes the time elapsed
    since the recorded start of the previous call (none for the first
    call), sleeps the remainder of the cooldown when the elapsed time is
    shorter, and records as start the clock reading taken after the sleep;
    it returns the request's duration after that start.  The spacing is
    start to start, not end to start: a call that arrives when the
    previous request took at least the cooldown starts without sleeping,
    straight after the previous call has returned.  (All [Timing]
    components are non-negative: the clock never goes back and
    [time.Sleep] sleeps at least as long as asked.) *)
Theorem chat_cooldown_spacing (ts : list Timing) (clk : Z) (c : Client) :
  Forall validTiming ts ->
  Cooldown c <= MaxInt64 ->
  (forall u, lastReqAt c = Some u -> u <= clk) ->
  let cd := if Cooldown c <=? 0 then 1 * Second else Cooldown c in
  (forall (i j : nat) (t1 t2 : Z), (i < j)%nat ->
     starts doChat ctxDone ts clk c !! i = Some t1 ->
     starts doChat ctxDone ts clk c !! j = Some t2 ->
     cd <= t2 - t1)
  /\ length (starts doChat ctxDone ts clk c) = length ts
  /\ (forall t, validTiming t ->
      let now := clk + before t in
      let start :=
        match lastReqAt c with
        | None => now + lag t
        | Some u =>
          let elapsed := now - u in
          if elapsed <? cd
          then now + (cd - elapsed) + oversleep t + lag t
          else now + lag t
        end in
      lastReqAt (Chat doChat ctxDone t clk c).1.1.2 = Some start
      /\ (Chat doChat ctxDone t clk c).1.1.1 = start + duration t
      /\ Cooldown (Chat doChat ctxDone t clk c).1.1.2 = Cooldown c)
  /\ (forall t1 t2, validTiming t1 -> validTiming t2 -> cd <= duration t1 ->
      exists s1,
        lastReqAt (Chat doChat ctxDone t1 clk c).1.1.2 = Some s1
        /\ starts doChat ctxDone [t1; t2] clk c
           = [s1; s1 + duration t1 + before t2 + lag t2]).
Proof.
  intros Hv Hfit Hinv cd.
  assert (Hcd : cd = cooldown c) by reflexivity.
  split; [|split; [|split]].
  - intros i j t1 t2 Hij Hi Hj.
    destruct (starts_spaced ts clk c Hv Hfit Hinv) as [Hs _].
    exact (spaced_lookup _ _ i j t1 t2 Hs Hij Hi Hj).
  - apply starts_length.
  - intros t Ht. cbv zeta. rewrite Hcd.
    destruct (Chat_start_exact t clk c Ht Hfit Hinv) as (H1 & H2 & H3).
    split; [exact H1|]. split; [|exact H3]. now apply H2.
  - intros t1 t2 Ht1 Ht2 Hlong. rewrite Hcd in Hlong.
    destruct (Chat_start_exact t1 clk c Ht1 Hfit Hinv) as (H1 & H2 & H3).
    set (s1 := match lastReqAt c with
               | None => clk + before t1 + lag t1
               | Some u =>
                 if clk + before t1 - u <? cooldown c
                 then clk + before t1 + (cooldown c - (clk + before t1 - u))
                      + oversleep t1 + lag t1
                 else clk + before t1 + lag t1
               end) in *.
    specialize (H2 s1 H1).
    exists s1. split; [exact H1|].
    cbn [starts].
    destruct (Chat doChat ctxDone t1 clk c) as [[[clk1 c1] tr1] o1].
    cbn [fst snd] in H1, H2, H3. rewrite H1.
    assert (Hfit1 : Cooldown c1 <= MaxInt64) by now rewrite H3.
    assert (Hinv1 : forall u, lastReqAt c1 = Some u -> u <= clk1).
    { intros u Hu. rewrite H1 in Hu. injection Hu as <-.
      destruct Ht1 as (_ & _ & _ & Hd). lia. }
    destruct (Chat_start_exact t2 clk1 c1 Ht2 Hfit1 Hinv1) as (K1 & _ & _).
    destruct (Chat doChat ctxDone t2 clk1 c1) as [[[clk2 c2] tr2] o2].
    cbn [fst snd] in K1. rewrite K1, H1.
    assert (cooldown c1 = cooldown c) as -> by (unfold cooldown; now rewrite H3).
    destruct Ht2 as (Hb2 & _ & _ & _).
    destruct (Z.ltb_spec (clk1 + before t2 - s1) (cooldown c)); [lia|].
    now rewrite H2.
Qed.

End LLMCooldown.

Section LLMCooldownExamples.
Import Go LLM Samples.

(** Two back-to-back calls with a 2 s cooldown: the second request starts
    2 s after the first. *)
Example back_to_back_starts :
  starts (R := unit) (fun _ => inl tt) (fun _ => None) [timing0; timing0] 0 client2s
  = [0; 2 * Second].
Proof. reflexivity. Qed.

Lemma chat_cooldown_spacing_witness : 2 * Second <= 2 * Second - 0.
Proof.
  refine (proj1 (chat_cooldown_spacing (R := unit) (fun _ => inl tt) (fun _ => None)
                   [timing0; timing0] 0 client2s _ _ _)
            0%nat 1%nat 0 (2 * Second) _ _ _).
  - repeat constructor; simpl; lia.
  - vm_compute. discriminate.
  - simpl. discriminate.
  - lia.
  - reflexivity.
  - reflexivity.
Defined.

(** C1, as stated for every pair of requests through one client, fails
    for the requests of one [Chat] call: after a rate-limit answer the
    retry goes out after the retry wait, here 2 s, however long the
    cooldown is, here 10 s. *)
Lemma retry_requests_closer_than_cooldown :
  let c := {| Cooldown := 10 * Second; MaxRetries := 0; lastReqAt := None |} in
  let out := Chat (R := unit)
               (fun try => if try =? 0 then inr "HTTP 429 Too Many Requests"
                           else inl tt)
               (fun _ => None) timing0 0 c in
  out.1.2 = [Attempt 0; Wait (2 * Second); Attempt 1]
  /\ lastReqAt out.1.1.2 = Some 0
  /\ LLMTimeline.requestStarts (fun _ => 0) 0 out.1.2 = [0; 2 * Second]
  /\ 2 * Second - 0 < cooldown c.
Proof. repeat split; reflexivity. Qed.

End LLMCooldownExamples.

(** ** LLM client: serialization by the mutex (C3) *)

Section LLMSerial.
Import LLMSync.

(** C3, as stated, fails: [ProbeModel] (and [ListModels]) never lock the
    mutex, so two probes on one client, or a probe during a [Chat] that
    holds the mutex, have their upstream requests in flight together. *)
Lemma probe_requests_overlap :
  (exists st, runSchedule [0; 1]%nat (initial [[OpProbeModel]; [OpProbeModel]]) = Some st
              /\ inflight st = 2%nat)
  /\ (exists st, runSchedule [0; 0; 1]%nat (initial [[OpChat 1]; [OpProbeModel]]) = Some st
                 /\ mutex st = true /\ inflight st = 2%nat)
  /\ (exists st, runSchedule [0; 0; 1]%nat (initial [[OpChat 1]; [OpListModels true]])
                 = Some st /\ mutex st = true /\ inflight st = 2%nat).
Proof. repeat split; eexists; (split; [reflexivity|]); repeat split; reflexivity. Qed.

Lemma count_insert (p : thread -> bool) (l : list thread) : forall (i : nat) t t',
  l !! i = Some t ->
  (count p (<[i := t']> l) + (if p t then 1 else 0)
   = count p l + (if p t' then 1 else 0))%nat.
Proof.
  induction l as [|x r IH]; intros i t t' Hi; [discriminate|].
  destruct i as [|i]; simpl in *.
  - injection Hi as ->. lia.
  - specialize (IH i t t' Hi). lia.
Qed.

Lemma count_le (p q : thread -> bool) (l : list thread) :
  Forall (fun t => p t = true -> q t = true) l -> (count p l <= count q l)%nat.
Proof.
  induction 1 as [|x r Hx _ IH]; simpl; [lia|].
  destruct (p x); [rewrite Hx by reflexivity|]; destruct (q x); lia.
Qed.

Lemma guarded_flying h f p : guarded h f p = true -> f = true -> h = true.
Proof.
  intros Hg ->. destruct p as [|[] r]; simpl in Hg;
    destruct h; simpl in *; congruence.
Qed.

Lemma guarded_requests n h rest :
  guarded h false (requests n ++ rest) = match n with O => true | S _ => h end && guarded h false rest.
Proof.
  induction n as [|n IH]; simpl; [reflexivity|].
  rewrite IH. destruct h; simpl; [|reflexivity]. now destruct n.
Qed.

Lemma guarded_chats (ns : list nat) :
  guarded false false (concat (map program (map OpChat ns))) = true.
Proof.
  induction ns as [|n ns IH]; simpl; [reflexivity|].
  rewrite <- app_assoc, guarded_requests. simpl. rewrite IH. now destruct n.
Qed.

Lemma inv_initial (work : list (list nat)) :
  inv (initial (map (map OpChat) work)).
Proof.
  unfold inv, initial. simpl. induction work as [|ns work [IH1 IH2]]; simpl.
  - split; [constructor | reflexivity].
  - split; [|exact IH2]. constructor; [|exact IH1]. simpl. apply guarded_chats.
Qed.

Lemma inv_step i st st' : inv st -> stepAt i st = Some st' -> inv st'.
Proof.
  intros [Hg Hc] Hs. unfold stepAt in Hs.
  destruct (threads st !! i) as [t|] eqn:Hi; simpl in Hs; [|discriminate].
  assert (guarded (held t) (flying t) (todo t) = true) as Ht.
  { rewrite Forall_forall in Hg. apply Hg. eapply list_elem_of_lookup_2; eauto. }
  destruct (threadStep (mutex st) t) as [[mu t']|] eqn:Hts; simpl in Hs; [|discriminate].
  injection Hs as <-. unfold inv. simpl.
  pose proof (count_insert held (threads st) i t t' Hi) as Hcnt.
  unfold threadStep in Hts.
  destruct t as [h f p]. simpl in *.
  destruct p as [|[] r]; [discriminate| | | |]; simpl in Ht;
    repeat (apply andb_prop in Ht; destruct Ht as [Ht ?]);
    repeat match goal with
           | H : negb _ = true |- _ => apply negb_true_iff in H
           | H : andb _ _ = true |- _ => apply andb_prop in H; destruct H
           end; subst.
  - destruct (mutex st) eqn:Hm; [discriminate|]. injection Hts as <- <-.
    simpl in *. split; [|lia].
    apply Forall_insert; [exact Hg|]. simpl. assumption.
  - destruct (mutex st) eqn:Hm; [|discriminate]. injection Hts as <- <-.
    simpl in *. split; [|lia].
    apply Forall_insert; [exact Hg|]. simpl. assumption.
  - injection Hts as <- <-. simpl in *. split; [|lia].
    apply Forall_insert; [exact Hg|]. simpl. assumption.
  - injection Hts as <- <-. simpl in *. split; [|lia].
    apply Forall_insert; [exact Hg|]. simpl. assumption.
Qed.

Lemma inv_run sched : forall st st',
  inv st -> runSchedule sched st = Some st' -> inv st'.
Proof.
  induction sched as [|i sched IH]; intros st st' Hinv Hr; simpl in Hr.
  - now injection Hr as <-.
  - destruct (stepAt i st) as [st1|] eqn:Hs; simpl in Hr; [|discriminate].
    eapply IH; [|exact Hr]. eapply inv_step; eauto.
Qed.

Lemma inv_inflight st : inv st -> (inflight st <= 1)%nat /\ (inflight st = 1%nat -> mutex st = true).
Proof.
  intros [Hg Hc]. unfold inflight.
  assert (count flying (threads st) <= count held (threads st))%nat as Hle.
  { apply count_le. eapply Forall_impl; [exact Hg|]. simpl.
    intros t Ht Hf. eapply guarded_flying; eauto. }
  rewrite Hc in Hle. destruct (mutex st); split; auto; lia.
Qed.

(** C3 (amended): the mutex serializes the [Chat] operations of a client:
    however many goroutines run however many [Chat] calls (with any number
    of attempts each) under any schedule, at most one upstream request is in
    flight at any time, and only while the mutex is held.  [ListModels] and
    [ProbeModel] contain no lock action at all. *)
Theorem chat_requests_serialized (work : list (list nat)) (sched : list nat)
    (st : state) :
  runSchedule sched (initial (map (map OpChat) work)) = Some st ->
  (inflight st <= 1)%nat
  /\ (inflight st = 1%nat -> mutex st = true)
  /\ (forall remote, Lock ∉ program (OpListModels remote))
  /\ Lock ∉ program OpProbeModel.
Proof.
  intros Hr.
  pose proof (inv_inflight st (inv_run sched _ st (inv_initial work) Hr)) as [H1 H2].
  split; [exact H1|]. split; [exact H2|]. split.
  - intros [|]; simpl; intros H; repeat (apply elem_of_cons in H as [H|H]; [discriminate|]);
      now apply elem_of_nil in H.
  - simpl. intros H; repeat (apply elem_of_cons in H as [H|H]; [discriminate|]).
    now apply elem_of_nil in H.
Qed.

Lemma chat_requests_serialized_witness :
  exists st,
    runSchedule [0; 0; 0; 0; 1; 1]%nat (initial (map (map OpChat) [[1]; [2]]%nat)) = Some st
    /\ (inflight st <= 1)%nat.
Proof.
  eexists. split; [reflexivity|].
  exact (proj1 (chat_requests_serialized [[1]; [2]]%nat [0; 0; 0; 0; 1; 1]%nat _ eq_refl)).
Defined.

End LLMSerial.

(** ** WhatsApp signature verification (C8) *)

Section Signature.
Import Go Crypto WhatsAppSig.

(** The embedded hash agrees with the published test values. *)
Example sha256_abc :
  EncodeToString (stringOf (sha256 (bytesOf "abc")))
  = "ba7816bf8f01cfea414140de5dae2223b00361a396177a9cb410ff61f20015ad".
Proof. vm_compute. reflexivity. Qed.

Example hmac_sha256_fox :
  EncodeToString (hmac_sha256 "key" "The quick brown fox jumps over the lazy dog")
  = "f7bc83f430538424b13298e6aa6fb143ef4d59a14946175997479dbc2d1a3cd8".
Proof. vm_compute. reflexivity. Qed.


Lemma revOnto_revOnto s : forall a b, revOnto (revOnto s a) b = revOnto a (s +:+ b).
Proof.
  induction s as [|c r IH]; intros a b; simpl; [reflexivity|].
  now rewrite IH.
Qed.

Lemma append_empty_r (s : string) : s +:+ EmptyString = s.
Proof.
  induction s as [|c r IH]; [reflexivity|].
  change (String c (r +:+ EmptyString) = String c r). now f_equal.
Qed.

Lemma rev_involutive (s : string) : rev (rev s) = s.
Proof. unfold rev. rewrite revOnto_revOnto. simpl. apply append_empty_r. Qed.

Lemma allPlain_revOnto s : forall a,
  allPlain (revOnto s a) = allPlain s && allPlain a.
Proof.
  induction s as [|c r IH]; intros a; simpl; [reflexivity|].
  rewrite IH. simpl. now destruct (plain c), (allPlain r).
Qed.

Lemma allPlain_app s t : allPlain (s +:+ t) = allPlain s && allPlain t.
Proof.
  induction s as [|c r IH]; simpl; [reflexivity|].
  rewrite IH. now rewrite andb_assoc.
Qed.

Lemma plain_not_space (c : ascii) :
  plain c = true ->
  asciiSpace c = false
  /\ (forall d, space2 c d = false) /\ (forall d, space2 d c = false)
  /\ (forall d e, space3 c d e = false) /\ (forall d e, space3 e d c = false).
Proof.
  unfold plain. intros H. apply andb_prop in H as [Hlt Hsp].
  apply N.ltb_lt in Hlt. apply negb_true_iff in Hsp.
  assert (forall k, (128 <= k)%N -> (code c =? k)%N = false) as Hne.
  { intros k Hk. apply N.eqb_neq. lia. }
  assert ((128 <=? code c)%N = false) as Hge by (apply N.leb_gt; lia).
  split; [exact Hsp|]. unfold space2, space3.
  repeat split; intros;
    rewrite ?Hge, ?(Hne 194%N), ?(Hne 133%N), ?(Hne 160%N), ?(Hne 225%N),
      ?(Hne 226%N), ?(Hne 227%N), ?(Hne 128%N), ?(Hne 168%N), ?(Hne 169%N),
      ?(Hne 175%N), ?(Hne 159%N) by lia;
    rewrite ?andb_false_r, ?andb_false_l, ?orb_false_r; reflexivity.
Qed.

Lemma trimLeftBy_keep p1 p2 p3 c r :
  p1 c = false -> (forall d, p2 c d = false) -> (forall d e, p3 c d e = false) ->
  trimLeftBy p1 p2 p3 (String c r) = String c r.
Proof.
  intros H1 H2 H3. simpl. rewrite H1.
  destruct r as [|d r2]; [reflexivity|]. rewrite H2.
  destruct r2 as [|e r3]; [reflexivity|]. now rewrite H3.
Qed.

(** White-space trimming leaves a string of plain characters alone. *)
Lemma TrimSpace_plain (s : string) : allPlain s = true -> TrimSpace s = s.
Proof.
  intros H. unfold TrimSpace, TrimLeftSpace, TrimRightSpace.
  assert (trimLeftBy asciiSpace space2 space3 s = s) as ->.
  { destruct s as [|c r]; [reflexivity|]. simpl in H.
    apply andb_prop in H as [Hc _].
    destruct (plain_not_space c Hc) as (?&?&?&?&?).
    now apply trimLeftBy_keep. }
  assert (allPlain (rev s) = true) as Hr.
  { unfold rev. rewrite allPlain_revOnto, H. reflexivity. }
  destruct (rev s) as [|c r] eqn:E.
  - simpl. rewrite <- (rev_involutive s), E. reflexivity.
  - simpl in Hr. apply andb_prop in Hr as [Hc _].
    destruct (plain_not_space c Hc) as (?&?&?&?&?).
    rewrite trimLeftBy_keep by auto. rewrite <- E. apply rev_involutive.
Qed.

Lemma hex_char (c : ascii) :
  fromHexChar (hexDigit (code c / 16)) = Some (code c / 16)%N
  /\ fromHexChar (hexDigit (code c mod 16)) = Some (code c mod 16)%N
  /\ ascii_of_N (16 * (code c / 16) + code c mod 16) = c
  /\ plain (hexDigit (code c / 16)) = true
  /\ plain (hexDigit (code c mod 16)) = true.
Proof.
  destruct c as [[] [] [] [] [] [] [] []]; vm_compute; repeat split; reflexivity.
Qed.

Lemma Decode_Encode (s : string) : DecodeString (EncodeToString s) = Some s.
Proof.
  induction s as [|c r IH]; [reflexivity|].
  destruct (hex_char c) as (H1 & H2 & H3 & _).
  cbn [EncodeToString DecodeString]. now rewrite H1, H2, IH, H3.
Qed.

Lemma Encode_plain (s : string) : allPlain (EncodeToString s) = true.
Proof.
  induction s as [|c r IH]; [reflexivity|].
  destruct (hex_char c) as (_ & _ & _ & H4 & H5).
  cbn [EncodeToString allPlain]. now rewrite H4, H5, IH.
Qed.

(** What the check accepts when a secret is configured. *)
Lemma verify_iff (secret body header : string) :
  TrimSpace secret <> EmptyString ->
  verifyWhatsAppSignature secret body header = true
  <-> HasPrefix (ToLower (TrimSpace header)) prefix = true
      /\ DecodeString (TrimSpace (drop 7 (TrimSpace header)))
         = Some (hmac_sha256 (TrimSpace secret) body).
Proof.
  intros Hs. unfold verifyWhatsAppSignature.
  rewrite (proj2 (isEmpty_false _) Hs).
  change (String.length prefix) with 7%nat.
  destruct (HasPrefix (ToLower (TrimSpace header)) prefix); cbn [negb].
  2:{ split; [discriminate | intros [? _]; discriminate]. }
  destruct (DecodeString (TrimSpace (drop 7 (TrimSpace header)))) as [given|].
  2:{ split; [discriminate | intros [_ ?]; discriminate]. }
  unfold ConstantTimeCompare.
  set (want := hmac_sha256 (TrimSpace secret) body). split.
  - intros H.
    destruct (String.length given =? String.length want)%nat;
      cbn [negb] in H; [|discriminate].
    apply String.eqb_eq in H. now subst.
  - intros [_ [= ->]]. rewrite Nat.eqb_refl. cbn [negb]. apply String.eqb_refl.
Qed.

Lemma verify_sign (secret body : string) :
  TrimSpace secret <> EmptyString ->
  verifyWhatsAppSignature secret body (sign (TrimSpace secret) body) = true.
Proof.
  intros Hs. apply verify_iff; [exact Hs|]. unfold sign.
  generalize (hmac_sha256 (TrimSpace secret) body). intros mac.
  assert (allPlain (prefix +:+ EncodeToString mac) = true) as Hp.
  { rewrite allPlain_app, Encode_plain. reflexivity. }
  rewrite (TrimSpace_plain _ Hp). split; [reflexivity|].
  change (drop 7 (prefix +:+ EncodeToString mac)) with (EncodeToString mac).
  rewrite (TrimSpace_plain _ (Encode_plain mac)). apply Decode_Encode.
Qed.

(** C8, as stated, fails twice.  The prefix is compared case-insensitively
    and the hex digits are decoded case-insensitively, so flipping one bit
    of the signature ('s' to 'S') still verifies; and the secret is trimmed
    before use, so a signature made with a secret that has surrounding
    white space does not verify against that secret. *)
Lemma signature_mutation_still_verifies :
  let good := sign "topsecret" "hello" in
  let bad := "SHA256=" +:+ EncodeToString (hmac_sha256 "topsecret" "hello") in
  bad <> good
  /\ verifyWhatsAppSignature "topsecret" "hello" good = true
  /\ verifyWhatsAppSignature "topsecret" "hello" bad = true
  /\ verifyWhatsAppSignature " topsecret" "hello" (sign " topsecret" "hello") = false.
Proof.
  repeat split; try (vm_compute; reflexivity). vm_compute. discriminate.
Qed.

(** C8 (amended): with a secret that is empty after trimming, every body
    and header verifies.  Otherwise the header verifies exactly when, after
    trimming, it starts with "sha256=" in any letter case and the rest,
    trimmed, is the hex encoding (in any letter case) of
    HMAC-SHA256(trimmed secret, body).  Hence the header
    "sha256=" + hex(HMAC-SHA256(secret, body)) made with the trimmed secret
    verifies, a header whose payload decodes to other bytes does not, and
    another body is rejected whenever its HMAC differs. *)
Theorem verify_signature_spec (secret body header : string) :
  (TrimSpace secret = EmptyString ->
   verifyWhatsAppSignature secret body header = true)
  /\ (TrimSpace secret <> EmptyString ->
      verifyWhatsAppSignature secret body (sign (TrimSpace secret) body) = true
      /\ (verifyWhatsAppSignature secret body header = true
          <-> HasPrefix (ToLower (TrimSpace header)) prefix = true
              /\ DecodeString (TrimSpace (drop 7 (TrimSpace header)))
                 = Some (hmac_sha256 (TrimSpace secret) body))
      /\ (forall body',
          hmac_sha256 (TrimSpace secret) body' <> hmac_sha256 (TrimSpace secret) body ->
          verifyWhatsAppSignature secret body' (sign (TrimSpace secret) body) = false)).
Proof.
  split.
  - intros H. unfold verifyWhatsAppSignature. now rewrite H.
  - intros Hs. split; [now apply verify_sign|]. split; [now apply verify_iff|].
    intros body' Hne.
    destruct (verifyWhatsAppSignature secret body' (sign (TrimSpace secret) body)) eqn:E;
      [|reflexivity].
    apply verify_iff in E; [|exact Hs]. destruct E as [_ E].
    pose proof (verify_sign secret body Hs) as G.
    apply verify_iff in G; [|exact Hs]. destruct G as [_ G].
    rewrite G in E. injection E as E. congruence.
Qed.

End Signature.

(** ** Skill installation: traversal entries and cleanup (C9) *)

Section SkillInstall.
Import Go Skills.
Variable isSameOrChildPath : string -> string -> bool.
Variable finish : string -> FS -> FS * option string.

Lemma RemoveAll_under (t p : string) (fs : FS) :
  under t p = true -> RemoveAll t fs !! p = None.
Proof.
  intros H. unfold RemoveAll. apply map_lookup_filter_None. right.
  intros x _. simpl. congruence.
Qed.

Lemma RemoveAll_other (t p : string) (fs : FS) :
  under t p = false -> RemoveAll t fs !! p = fs !! p.
Proof.
  intros H. unfold RemoveAll. destruct (fs !! p) as [x|] eqn:E.
  - apply map_lookup_filter_Some. auto.
  - apply map_lookup_filter_None. auto.
Qed.









End SkillInstall.

Section SkillInstallExamples.
Import Go Skills Samples.

(** The repository's traversal test: a first install into an empty
    workspace fails with "unsafe path" and leaves no target directory. *)
Example install_rejects_traversal_zip :
  exists fs',
    Install sameOrChild finishOK (installReq false) registry fsFresh
    = (fs', inl "zip entry has unsafe path: ../evil.txt")
    /\ fs' !! "/ws/skills/github" = None
    /\ fs' !! "/ws/skills/github/SKILL.md" = None.
Proof. eexists. split; [vm_compute; reflexivity|]. split; vm_compute; reflexivity. Qed.



End SkillInstallExamples.

(** ** Worked examples *)

Section Examples.
Import Go Samples.

(** The exponential schedule of the LLM client: 2 s, 4 s, 8 s. *)
Example llm_wait_schedule :
  map (LLM.computeWaitDuration (ToLower "HTTP 429 Too Many Requests")) [0; 1; 2]
  = [2 * Second; 4 * Second; 8 * Second].
Proof. reflexivity. Qed.

(** The leftmost match of the pattern decides, in any letter case. *)
Example llm_wait_reset_after :
  LLM.computeWaitDuration "quota exhausted, Reset After 12s (then reset after 3s)" 2
  = 13 * Second.
Proof. reflexivity. Qed.

Example trim_space_examples :
  TrimSpace "  hub token  " = "hub token"
  /\ TrimSpace (String (ascii_of_N 9) (String (ascii_of_N 10) " ")) = EmptyString
  /\ TrimSpace (String (ascii_of_N 194) (String (ascii_of_N 160) "x")) = "x".
Proof. repeat split; reflexivity. Qed.

(** A WhatsApp send that meets 429 with Retry-After 1 s and then succeeds
    waits exactly that second. *)
Example whatsapp_retry_after :
  WhatsApp.sendMessage
    (fun n => if n =? 1
              then Some {| WhatsApp.isCanceled := false; WhatsApp.isDeadline := false;
                           WhatsApp.asHTTP := Some (429, 1 * Second);
                           WhatsApp.asNet := None |}
              else None)
    (fun _ => None) (Adapter.Call "1555" "hi" EmptyString "text")
  = ([Adapter.Call "1555" "hi" EmptyString "text"; Adapter.Wait (1 * Second);
      Adapter.Call "1555" "hi" EmptyString "text"], WhatsApp.Nil).
Proof. reflexivity. Qed.

(** A manager with one channel: stop, start again, stop again.  Only the
    first [StopAll] reaches the channel. *)
Example stop_start_stop :
  (Manager.run [Manager.OpStopAll; Manager.OpStartAll; Manager.OpStopAll]
     (Manager.Add (Some silentStub) Manager.NewManager)).2
  = [Manager.StopCall "stub"; Manager.SpawnDispatcher; Manager.StartCall "stub"].
Proof. vm_compute. reflexivity. Qed.

(** A message for a channel nobody registered is dropped. *)
Example dispatch_unknown_channel :
  Manager.dispatchOne (helloTo "nope") (Manager.Add (Some silentStub) Manager.NewManager)
  = (Manager.Add (Some silentStub) Manager.NewManager, []).
Proof. vm_compute. reflexivity. Qed.

End Examples.

(* ===================================================================== *)
(** * Part III. Further properties of the code                            *)
(* ===================================================================== *)

(** ** White-space trimming *)

Section TrimFacts.
Import Go Trim.

Lemma revOnto_app (s : string) : forall acc, revOnto s acc = rev s +:+ acc.
Proof.
  unfold rev. induction s as [|c r IH]; intros acc; [reflexivity|].
  cbn [revOnto]. rewrite (IH (String c acc)), (IH (String c EmptyString)).
  generalize (revOnto r EmptyString). intros t.
  induction t as [|x t IHt]; [reflexivity|].
  change (String x (t +:+ String c acc)
          = String x ((t +:+ String c EmptyString) +:+ acc)).
  now rewrite IHt.
Qed.

Lemma append_assoc (a b c : string) : (a +:+ b) +:+ c = a +:+ (b +:+ c).
Proof.
  induction a as [|x a IH]; [reflexivity|].
  change (String x ((a +:+ b) +:+ c) = String x (a +:+ (b +:+ c))).
  now rewrite IH.
Qed.

Lemma rev_app (a b : string) : rev (a +:+ b) = rev b +:+ rev a.
Proof.
  induction a as [|x a IH].
  - change (rev b = rev b +:+ EmptyString). now rewrite append_empty_r.
  - change (rev (String x (a +:+ b)) = rev b +:+ rev (String x a)).
    unfold rev at 1 3. cbn [revOnto].
    rewrite !revOnto_app, IH. apply append_assoc.
Qed.

Section Left.
Variable p1 : ascii -> bool.
Variable p2 : ascii -> ascii -> bool.
Variable p3 : ascii -> ascii -> ascii -> bool.

Lemma trimLeftBy_fixed (s : string) :
  wsHead p1 p2 p3 s = false -> trimLeftBy p1 p2 p3 s = s.
Proof.
  destruct s as [|c [|d [|e r3]]]; cbn [wsHead trimLeftBy]; intros H;
    try reflexivity.
  - apply orb_false_elim in H as [-> _]. reflexivity.
  - apply orb_false_elim in H as [-> H]. apply orb_false_elim in H as [-> _].
    reflexivity.
  - apply orb_false_elim in H as [-> H]. apply orb_false_elim in H as [-> ->].
    reflexivity.
Qed.

Lemma trimLeftBy_spec (n : nat) : forall s,
  (String.length s <= n)%nat ->
  wsHead p1 p2 p3 (trimLeftBy p1 p2 p3 s) = false
  /\ exists pre, s = pre +:+ trimLeftBy p1 p2 p3 s.
Proof.
  induction n as [|n IH]; intros s Hn.
  - destruct s; [|simpl in Hn; lia]. split; [reflexivity|]. now exists EmptyString.
  - destruct s as [|c r]; [split; [reflexivity | now exists EmptyString]|].
    cbn [String.length] in Hn. cbn [trimLeftBy].
    destruct (p1 c) eqn:E1.
    { destruct (IH r ltac:(lia)) as [H1 [pre H2]]. split; [exact H1|].
      exists (String c pre). change (String c r = String c (pre +:+ trimLeftBy p1 p2 p3 r)).
      now rewrite <- H2. }
    destruct r as [|d r2].
    { split; [cbn [wsHead]; now rewrite E1 | now exists EmptyString]. }
    cbn [String.length] in Hn. destruct (p2 c d) eqn:E2.
    { destruct (IH r2 ltac:(lia)) as [H1 [pre H2]]. split; [exact H1|].
      exists (String c (String d pre)).
      change (String c (String d r2)
              = String c (String d (pre +:+ trimLeftBy p1 p2 p3 r2))).
      now rewrite <- H2. }
    destruct r2 as [|e r3].
    { split; [cbn [wsHead]; now rewrite E1, E2 | now exists EmptyString]. }
    cbn [String.length] in Hn. destruct (p3 c d e) eqn:E3.
    { destruct (IH r3 ltac:(lia)) as [H1 [pre H2]]. split; [exact H1|].
      exists (String c (String d (String e pre))).
      change (String c (String d (String e r3))
              = String c (String d (String e (pre +:+ trimLeftBy p1 p2 p3 r3)))).
      now rewrite <- H2. }
    split; [cbn [wsHead]; now rewrite E1, E2, E3 | now exists EmptyString].
Qed.

Lemma trimLeftBy_head (s : string) :
  wsHead p1 p2 p3 (trimLeftBy p1 p2 p3 s) = false.
Proof. exact (proj1 (trimLeftBy_spec (String.length s) s (le_n _))). Qed.

Lemma trimLeftBy_suffix (s : string) :
  exists pre, s = pre +:+ trimLeftBy p1 p2 p3 s.
Proof. exact (proj2 (trimLeftBy_spec (String.length s) s (le_n _))). Qed.

Lemma trimLeftBy_idem (s : string) :
  trimLeftBy p1 p2 p3 (trimLeftBy p1 p2 p3 s) = trimLeftBy p1 p2 p3 s.
Proof. apply trimLeftBy_fixed, trimLeftBy_head. Qed.

Lemma wsHead_app (s t : string) :
  wsHead p1 p2 p3 s = true -> wsHead p1 p2 p3 (s +:+ t) = true.
Proof.
  destruct s as [|c [|d [|e r3]]]; cbn [wsHead]; intros H; try discriminate.
  - rewrite orb_false_r in H.
    change (String c EmptyString +:+ t) with (String c t).
    cbn [wsHead]. now rewrite H.
  - rewrite orb_false_r in H.
    change (String c (String d EmptyString) +:+ t) with (String c (String d t)).
    cbn [wsHead]. apply orb_prop in H as [->| ->]; [reflexivity|].
    now rewrite orb_true_l, orb_true_r.
  - change (String c (String d (String e r3)) +:+ t)
      with (String c (String d (String e (r3 +:+ t)))).
    cbn [wsHead]. exact H.
Qed.

End Left.

Lemma TrimRightSpace_prefix (s : string) : exists suf, s = TrimRightSpace s +:+ suf.
Proof.
  unfold TrimRightSpace.
  destruct (trimLeftBy_suffix asciiSpace (fun c d => space2 d c)
              (fun c d e => space3 e d c) (rev s)) as [pre H].
  exists (rev pre). rewrite <- rev_app, <- H. symmetry. apply rev_involutive.
Qed.

Lemma TrimRightSpace_idem (s : string) :
  TrimRightSpace (TrimRightSpace s) = TrimRightSpace s.
Proof.
  unfold TrimRightSpace. rewrite rev_involutive. now rewrite trimLeftBy_idem.
Qed.

Lemma TrimSpace_head (s : string) :
  wsHead asciiSpace space2 space3 (TrimSpace s) = false.
Proof.
  unfold TrimSpace. set (t := TrimLeftSpace s).
  assert (wsHead asciiSpace space2 space3 t = false) as Ht
    by apply trimLeftBy_head.
  destruct (wsHead asciiSpace space2 space3 (TrimRightSpace t)) eqn:E; [|reflexivity].
  destruct (TrimRightSpace_prefix t) as [suf Hs].
  apply (wsHead_app _ _ _ _ suf) in E. rewrite <- Hs in E. congruence.
Qed.

(** Trimming again changes nothing. *)
Lemma TrimSpace_idem (s : string) : TrimSpace (TrimSpace s) = TrimSpace s.
Proof.
  pose proof (TrimSpace_head s) as H. unfold TrimSpace at 1.
  unfold TrimLeftSpace at 1. rewrite (trimLeftBy_fixed _ _ _ _ H).
  unfold TrimSpace. apply TrimRightSpace_idem.
Qed.

(** A trimmed string is empty or starts with a character that is not one
    of the six one-byte white-space characters. *)
Lemma TrimSpace_no_leading_space (s : string) (c : ascii) (r : string) :
  TrimSpace s = String c r -> asciiSpace c = false.
Proof.
  intros H. pose proof (TrimSpace_head s) as Hw.
  rewrite H in Hw. cbn [wsHead] in Hw. now apply orb_false_elim in Hw as [-> _].
Qed.

End TrimFacts.

(** ** Lower-casing and trimming commute *)

Section LowerFacts.
Import Go Trim.

Lemma lowerChar_cases (c : ascii) :
  lowerChar c = c \/ ((code c < 128)%N /\ (code (lowerChar c) < 128)%N).
Proof.
  destruct c as [[] [] [] [] [] [] [] []];
    first [left; reflexivity | right; split; reflexivity].
Qed.

Lemma lowerChar_idem (c : ascii) : lowerChar (lowerChar c) = lowerChar c.
Proof. destruct c as [[] [] [] [] [] [] [] []]; reflexivity. Qed.

Lemma lowerChar_space (c : ascii) : asciiSpace (lowerChar c) = asciiSpace c.
Proof. destruct c as [[] [] [] [] [] [] [] []]; reflexivity. Qed.

Lemma lowerChar_eqb (c : ascii) (k : N) :
  (128 <= k)%N -> (code (lowerChar c) =? k)%N = (code c =? k)%N.
Proof.
  intros Hk. destruct (lowerChar_cases c) as [->|[H1 H2]]; [reflexivity|].
  rewrite (proj2 (N.eqb_neq _ _)) by lia. symmetry. apply N.eqb_neq. lia.
Qed.

Lemma lowerChar_geb (c : ascii) :
  (128 <=? code (lowerChar c))%N = (128 <=? code c)%N.
Proof.
  destruct (lowerChar_cases c) as [->|[H1 H2]]; [reflexivity|].
  rewrite (proj2 (N.leb_gt _ _)) by lia. symmetry. apply N.leb_gt. lia.
Qed.

Lemma lowerChar_leb (c : ascii) :
  (code (lowerChar c) <=? 138)%N = (code c <=? 138)%N.
Proof.
  destruct (lowerChar_cases c) as [->|[H1 H2]]; [reflexivity|].
  rewrite (proj2 (N.leb_le _ _)) by lia. symmetry. apply N.leb_le. lia.
Qed.

Lemma lowerChar_space2 (c d : ascii) :
  space2 (lowerChar c) (lowerChar d) = space2 c d.
Proof.
  unfold space2. now rewrite !lowerChar_eqb by lia.
Qed.

Lemma lowerChar_space3 (c d e : ascii) :
  space3 (lowerChar c) (lowerChar d) (lowerChar e) = space3 c d e.
Proof.
  unfold space3. now rewrite !lowerChar_eqb, lowerChar_geb, lowerChar_leb by lia.
Qed.

Lemma ToLower_map (s : string) : ToLower s = mapString lowerChar s.
Proof. induction s as [|c r IH]; [reflexivity|]. cbn. now rewrite IH. Qed.

Lemma ToLower_idem (s : string) : ToLower (ToLower s) = ToLower s.
Proof.
  induction s as [|c r IH]; [reflexivity|].
  cbn [ToLower]. now rewrite lowerChar_idem, IH.
Qed.

Lemma mapString_revOnto (f : ascii -> ascii) (s : string) : forall acc,
  revOnto (mapString f s) (mapString f acc) = mapString f (revOnto s acc).
Proof.
  induction s as [|c r IH]; intros acc; [reflexivity|].
  cbn [mapString revOnto]. exact (IH (String c acc)).
Qed.

Lemma mapString_rev (f : ascii -> ascii) (s : string) :
  rev (mapString f s) = mapString f (rev s).
Proof. exact (mapString_revOnto f s EmptyString). Qed.

Lemma trimLeftBy_map (f : ascii -> ascii) p1 p2 p3 :
  (forall c, p1 (f c) = p1 c) ->
  (forall c d, p2 (f c) (f d) = p2 c d) ->
  (forall c d e, p3 (f c) (f d) (f e) = p3 c d e) ->
  forall n s, (String.length s <= n)%nat ->
  trimLeftBy p1 p2 p3 (mapString f s) = mapString f (trimLeftBy p1 p2 p3 s).
Proof.
  intros H1 H2 H3. induction n as [|n IH]; intros s Hn.
  - destruct s; [reflexivity | simpl in Hn; lia].
  - destruct s as [|c r]; [reflexivity|]. cbn [String.length] in Hn.
    cbn [mapString trimLeftBy]. rewrite H1. destruct (p1 c).
    { apply IH. lia. }
    destruct r as [|d r2]; [reflexivity|]. cbn [String.length] in Hn.
    cbn [mapString]. rewrite H2. destruct (p2 c d).
    { apply IH. lia. }
    destruct r2 as [|e r3]; [reflexivity|]. cbn [String.length] in Hn.
    cbn [mapString]. rewrite H3. destruct (p3 c d e); [|reflexivity].
    apply IH. lia.
Qed.

Lemma TrimSpace_ToLower (s : string) : TrimSpace (ToLower s) = ToLower (TrimSpace s).
Proof.
  rewrite !ToLower_map. unfold TrimSpace, TrimLeftSpace, TrimRightSpace.
  rewrite (trimLeftBy_map lowerChar asciiSpace space2 space3 lowerChar_space
             lowerChar_space2 lowerChar_space3 (String.length s) s (le_n _)).
  set (t := trimLeftBy asciiSpace space2 space3 s).
  rewrite mapString_rev.
  rewrite (trimLeftBy_map lowerChar asciiSpace (fun c d => space2 d c)
             (fun c d e => space3 e d c) lowerChar_space
             (fun c d => lowerChar_space2 d c)
             (fun c d e => lowerChar_space3 e d c)
             (String.length (rev t)) (rev t) (le_n _)).
  apply mapString_rev.
Qed.

End LowerFacts.

(** ** LLM client: provider names *)

Section ProviderFacts.
Import Go LLMProviders.

Lemma normalizeProvider_idem (p : string) :
  normalizeProvider (normalizeProvider p) = normalizeProvider p.
Proof.
  unfold normalizeProvider at 2 3.
  destruct (String.eqb_spec (ToLower (TrimSpace p)) "local") as [E|E]; [reflexivity|].
  unfold normalizeProvider.
  rewrite TrimSpace_ToLower, TrimSpace_idem, ToLower_idem.
  now rewrite (proj2 (String.eqb_neq _ _) E).
Qed.

(** X1: Provider names are matched ignoring letter case and surrounding white
    space, with "local" an alias of "ollama": normalising twice is
    normalising once, and routing sees only the normalised name.
    [ListModels] and [doChat] agree on the providers: [ListModels] asks the
    OpenAI-compatible endpoint exactly for the providers [doChat] routes to
    that dialect, answers from the built-in list exactly for Antigravity,
    and refuses every other provider, Anthropic and Gemini included, which
    [doChat] serves; a provider [doChat] refuses is refused by both. *)
Theorem provider_routing {R : Type} (chat : dialect -> string -> R + string)
    (list : list ModelInfo + string) (p model : string) :
  normalizeProvider (normalizeProvider p) = normalizeProvider p
  /\ route (normalizeProvider p) = route p
  /\ route " Local " = Some OpenAICompatible
  /\ match route p with
     | Some OpenAICompatible =>
       ListModels list p = list /\ doChat chat p model = chat OpenAICompatible model
     | Some Antigravity =>
       ListModels list p = inl antigravityModels
       /\ doChat chat p model = chat Antigravity model
     | Some d =>
       ListModels list p
       = inr ("listing models is not supported for provider: " +:+ p)
       /\ doChat chat p model = chat d model
     | None =>
       ListModels list p
       = inr ("listing models is not supported for provider: " +:+ p)
       /\ doChat chat p model = inr ("unsupported llm provider: " +:+ TrimSpace p)
     end.
Proof.
  split; [apply normalizeProvider_idem|].
  split; [unfold route; now rewrite normalizeProvider_idem|].
  split; [reflexivity|].
  unfold doChat, ListModels, route.
  set (n := normalizeProvider p).
  destruct (isOpenAICompatible n) eqn:Eo.
  - destruct (String.eqb_spec n "antigravity") as [E|E].
    + rewrite E in Eo. discriminate.
    + auto.
  - destruct (String.eqb_spec n "anthropic") as [Ea|Ea].
    + rewrite Ea. auto.
    + destruct (String.eqb_spec n "gemini") as [Eg|Eg].
      * rewrite Eg. auto.
      * destruct (String.eqb_spec n "antigravity") as [E|E]; auto.
Qed.

End ProviderFacts.

(** ** WhatsApp adapter: inbound webhook *)

Section WhatsAppInboundFacts.
Import Go BusIn WhatsAppInbound.

Lemma eventOf_wellformed (msg : whatsappInboundMessage) (evt : whatsappInboundEvent) :
  eventOf msg = Some evt ->
  evContent evt <> EmptyString /\ evSenderID evt <> EmptyString
  /\ evChatID evt = evSenderID evt
  /\ TrimSpace (evSenderID evt) = evSenderID evt
  /\ Bus.IsDirect (evDelivery evt) = true.
Proof.
  unfold eventOf.
  destruct (isEmpty (whatsappInboundContent msg)) eqn:Ec; [discriminate|].
  destruct (isEmpty (TrimSpace (From msg))) eqn:Es; [discriminate|].
  intros [= <-]. cbn.
  apply isEmpty_false in Ec, Es. repeat split; auto. apply TrimSpace_idem.
Qed.

Lemma omap_length {A B : Type} (f : A -> option B) (l : list A) :
  (length (omap f l) <= length l)%nat.
Proof.
  induction l as [|x l IH]; [reflexivity|].
  cbn. destruct (f x); cbn; lia.
Qed.

Lemma extracted_event (payload : whatsappWebhookPayload) (evt : whatsappInboundEvent) :
  In evt (extractWhatsAppInboundMessages payload) ->
  Object payload = "whatsapp_business_account"
  /\ exists msg, eventOf msg = Some evt.
Proof.
  unfold extractWhatsAppInboundMessages.
  destruct (String.eqb_spec (Object payload) "whatsapp_business_account") as [E|E];
    [|intros []].
  cbn [negb]. intros Hin. split; [exact E|].
  apply in_flat_map in Hin. destruct Hin as (entry & _ & Hin).
  apply in_flat_map in Hin. destruct Hin as (ch & _ & Hin).
  unfold eventsOfChange in Hin.
  destruct (negb (String.eqb (TrimSpace (Field ch)) "messages")); [destruct Hin|].
  apply list_elem_of_In, list_elem_of_omap in Hin. destruct Hin as (msg & _ & Hm).
  eauto.
Qed.

(** X2: Every event extracted from a webhook payload has a non-empty content
    and a non-empty, trimmed sender, is a direct chat with the sender as
    chat id, and comes from a payload whose object is
    "whatsapp_business_account"; a payload with another object yields
    nothing, and so does a change whose field is not "messages". *)
Theorem extract_events_wellformed (payload : whatsappWebhookPayload) :
  Forall (fun evt =>
            evContent evt <> EmptyString /\ evSenderID evt <> EmptyString
            /\ evChatID evt = evSenderID evt
            /\ TrimSpace (evSenderID evt) = evSenderID evt
            /\ Bus.IsDirect (evDelivery evt) = true
            /\ Object payload = "whatsapp_business_account")
         (extractWhatsAppInboundMessages payload)
  /\ (Object payload <> "whatsapp_business_account" ->
      extractWhatsAppInboundMessages payload = [])
  /\ (forall ch, TrimSpace (Field ch) <> "messages" -> eventsOfChange ch = [])
  /\ (forall ch, (length (eventsOfChange ch) <= length (Messages (Value ch)))%nat).
Proof.
  split; [|split; [|split]].
  - apply Forall_forall. intros evt Hin. apply list_elem_of_In in Hin.
    destruct (extracted_event payload evt Hin) as (E & msg & Hm).
    destruct (eventOf_wellformed msg evt Hm) as (?&?&?&?&?). auto 10.
  - intros E. unfold extractWhatsAppInboundMessages.
    now rewrite (proj2 (String.eqb_neq _ _) E).
  - intros ch E. unfold eventsOfChange. now rewrite (proj2 (String.eqb_neq _ _) E).
  - intros ch. unfold eventsOfChange.
    destruct (negb (String.eqb (TrimSpace (Field ch)) "messages")); [cbn; lia|].
    apply omap_length.
Qed.

Section Handler.
Variable unmarshal : string -> option whatsappWebhookPayload.
Variable allowed : string -> bool.

(** X3: The webhook publishes only what arrives by POST with a readable body
    whose signature verifies (over at most the first 2 MiB) and which
    parses; it then answers 200.  Whatever is published comes from an
    allowed sender, is marked as channel "whatsapp" with session key
    "whatsapp:<chat id>", and has non-empty content.  A request with a bad
    signature gets 401, and any method other than GET and POST gets 405. *)
Theorem webhook_publishes_only_verified (cfg : WhatsAppConfig) (r : request) :
  let out := handleWebhook unmarshal allowed cfg r in
  (out.2 <> [] ->
   method r = "POST"
   /\ WhatsApp.status out.1 = 200
   /\ exists raw payload,
       reqBody r = Some raw
       /\ WhatsAppSig.verifyWhatsAppSignature (AppSecret cfg)
            (take bodyLimit raw) (signatureHeader r) = true
       /\ unmarshal (take bodyLimit raw) = Some payload)
  /\ Forall (fun m => allowed (inSenderID m) = true
                      /\ inChannel m = "whatsapp"
                      /\ inSessionKey m = "whatsapp:" +:+ inChatID m
                      /\ inContent m <> EmptyString) out.2
  /\ (method r = "POST" ->
      forall raw, reqBody r = Some raw ->
      WhatsAppSig.verifyWhatsAppSignature (AppSecret cfg)
        (take bodyLimit raw) (signatureHeader r) = false ->
      out = (WhatsApp.httpError "unauthorized" 401, []))
  /\ (method r <> "GET" -> method r <> "POST" ->
      out = (WhatsApp.httpError "method not allowed" 405, [])).
Proof.
  intros out. subst out. unfold handleWebhook.
  assert (forall body,
             WhatsAppSig.verifyWhatsAppSignature (TrimSpace (AppSecret cfg)) body
               (signatureHeader r)
             = WhatsAppSig.verifyWhatsAppSignature (AppSecret cfg) body
                 (signatureHeader r)) as Hv.
  { intros body. unfold WhatsAppSig.verifyWhatsAppSignature.
    now rewrite TrimSpace_idem. }
  destruct (String.eqb_spec (method r) "GET") as [Eg|Eg].
  { cbn [fst snd]. split; [intros H; now elim H|]. split; [constructor|].
    split; [intros Hp; rewrite Eg in Hp; discriminate | congruence]. }
  destruct (String.eqb_spec (method r) "POST") as [Ep|Ep].
  2:{ cbn [fst snd]. split; [intros H; now elim H|]. split; [constructor|].
      split; [congruence | reflexivity]. }
  unfold handleInbound.
  destruct (reqBody r) as [raw|] eqn:Hb.
  2:{ cbn [fst snd]. split; [intros H; now elim H|]. split; [constructor|].
      split; [intros _ raw' Hr; discriminate | congruence]. }
  rewrite Hv.
  destruct (WhatsAppSig.verifyWhatsAppSignature (AppSecret cfg) (take bodyLimit raw)
              (signatureHeader r)) eqn:Hs; cbn [negb].
  2:{ cbn [fst snd]. split; [intros H; now elim H|]. split; [constructor|].
      split; [reflexivity | congruence]. }
  destruct (unmarshal (take bodyLimit raw)) as [payload|] eqn:Hu.
  2:{ cbn [fst snd]. split; [intros H; now elim H|]. split; [constructor|].
      split; [intros _ raw' [= <-]; congruence | congruence]. }
  cbn [fst snd]. split; [|split; [|split]].
  - intros _. split; [exact Ep|]. split; [reflexivity|]. eauto.
  - apply Forall_forall. intros m Hm.
    apply list_elem_of_In, in_map_iff in Hm. destruct Hm as (evt & <- & Hin).
    apply filter_In in Hin. destruct Hin as [Hin Ha].
    destruct (extracted_event payload evt Hin) as (_ & msg & Hmsg).
    destruct (eventOf_wellformed msg evt Hmsg) as (Hc & _).
    cbn. auto.
  - intros _ raw' [= <-]. congruence.
  - congruence.
Qed.

End Handler.

(** X4: The path the webhook is mounted on always starts with "/" (so it is
    never empty), and the listen address is never empty; values that are
    blank after trimming give the defaults. *)
Theorem webhook_mount_defaults (path listen : string) :
  HasPrefix (normalizeWebhookPath path) "/" = true
  /\ webhookListen listen <> EmptyString
  /\ (TrimSpace path = EmptyString ->
      normalizeWebhookPath path = "/whatsapp/webhook")
  /\ (TrimSpace listen = EmptyString -> webhookListen listen = "127.0.0.1:18791")
  /\ (HasPrefix (TrimSpace path) "/" = true ->
      normalizeWebhookPath path = TrimSpace path).
Proof.
  unfold normalizeWebhookPath, webhookListen.
  repeat split.
  - destruct (isEmpty (TrimSpace path)); [reflexivity|].
    destruct (HasPrefix (TrimSpace path) "/") eqn:E; [exact E | reflexivity].
  - destruct (isEmpty (TrimSpace listen)) eqn:E; [discriminate|].
    now apply isEmpty_false.
  - intros ->. reflexivity.
  - intros ->. reflexivity.
  - intros H. destruct (isEmpty (TrimSpace path)) eqn:E.
    + apply isEmpty_true in E. rewrite E in H. discriminate.
    + now rewrite H.
Qed.

(** X5: A configuration that [Start] accepts has a non-blank verify token, so
    for a running webhook the verification handshake succeeds exactly when
    the trimmed mode is "subscribe" and the trimmed token equals the trimmed
    configured token; its access token and phone number id are not blank
    either. *)
Theorem start_config_verify (cfg : WhatsAppConfig) (mode token challenge : string) :
  startConfigError cfg = None ->
  (TrimSpace (AccessToken cfg) <> EmptyString
   /\ TrimSpace (PhoneNumberID cfg) <> EmptyString
   /\ TrimSpace (VerifyToken cfg) <> EmptyString)
  /\ (WhatsApp.status (WhatsApp.handleVerify (VerifyToken cfg) mode token challenge) = 200
      <-> TrimSpace mode = "subscribe"
          /\ TrimSpace token = TrimSpace (VerifyToken cfg)).
Proof.
  unfold startConfigError.
  destruct (isEmpty (TrimSpace (AccessToken cfg))) eqn:E1; [discriminate|].
  destruct (isEmpty (TrimSpace (PhoneNumberID cfg))) eqn:E2; [discriminate|].
  destruct (isEmpty (TrimSpace (VerifyToken cfg))) eqn:E3; [discriminate|].
  intros _. apply isEmpty_false in E1, E2, E3. split; [auto|].
  unfold WhatsApp.handleVerify.
  destruct (String.eqb_spec (TrimSpace mode) "subscribe") as [Hm|Hm];
    cbn [negb orb].
  2:{ split; [discriminate | tauto]. }
  destruct (String.eqb_spec (TrimSpace token) (TrimSpace (VerifyToken cfg))) as [Ht|Ht].
  - rewrite Ht, (proj2 (isEmpty_false _) E3). cbn. tauto.
  - cbn [negb]. rewrite orb_true_r. cbn. split; [discriminate | tauto].
Qed.

Lemma start_config_verify_witness :
  WhatsApp.status
    (WhatsApp.handleVerify (VerifyToken Fixtures.whatsappConfig)
       "subscribe" "verify-me" "challenge") = 200
  <-> TrimSpace "subscribe" = "subscribe"
      /\ TrimSpace "verify-me" = TrimSpace (VerifyToken Fixtures.whatsappConfig).
Proof.
  apply (start_config_verify Fixtures.whatsappConfig "subscribe" "verify-me"
           "challenge").
  vm_compute; reflexivity.
Defined.

End WhatsAppInboundFacts.

(** ** Send path: backoff range, Retry-After, reply target *)

Section SendPathFacts.
Import Go WhatsAppInbound.

Lemma backoff_shape (n : Z) :
  300 * Millisecond * Z.shiftl 1 (Z.min ((if n <? 1 then 1 else n) - 1) 4)
  = 300 * Millisecond * 2 ^ Z.min (Z.max n 1 - 1) 4.
Proof.
  rewrite Z.shiftl_1_l. destruct (Z.ltb_spec n 1); do 2 f_equal; lia.
Qed.

Lemma pow2_range (k : Z) : 0 <= k <= 4 -> 1 <= 2 ^ k <= 16.
Proof.
  intros H. assert (k = 0 \/ k = 1 \/ k = 2 \/ k = 3 \/ k = 4) as Hk by lia.
  destruct Hk as [->|[->|[->|[->| ->]]]]; cbn; lia.
Qed.

Lemma pow2_mono4 (a b : Z) : 0 <= a <= b -> b <= 4 -> 2 ^ a <= 2 ^ b.
Proof. intros H _. apply Z.pow_le_mono_r; lia. Qed.

Lemma backoff_range (n : Z) :
  300 * Millisecond <= 300 * Millisecond * 2 ^ Z.min (Z.max n 1 - 1) 4
  <= 4800 * Millisecond.
Proof.
  pose proof (pow2_range (Z.min (Z.max n 1 - 1) 4) ltac:(lia)). unfold Millisecond. lia.
Qed.

Lemma backoff_mono (n m : Z) :
  n <= m ->
  300 * Millisecond * 2 ^ Z.min (Z.max n 1 - 1) 4
  <= 300 * Millisecond * 2 ^ Z.min (Z.max m 1 - 1) 4.
Proof.
  intros H.
  pose proof (pow2_mono4 (Z.min (Z.max n 1 - 1) 4) (Z.min (Z.max m 1 - 1) 4)
                ltac:(lia) ltac:(lia)).
  unfold Millisecond. lia.
Qed.

(** X6: Whatever attempt number it is given (zero, negative or huge), the
    backoff of each adapter lies between 300 ms and 4.8 s, never decreases
    with the attempt number, is 300 ms up to attempt 1 and 4.8 s from
    attempt 5 on. *)
Theorem send_backoff_bounds (n m : Z) :
  let ok (backoff : Z -> Z) :=
    300 * Millisecond <= backoff n <= 4800 * Millisecond
    /\ (n <= m -> backoff n <= backoff m)
    /\ (n <= 1 -> backoff n = 300 * Millisecond)
    /\ (5 <= n -> backoff n = 4800 * Millisecond) in
  ok WhatsApp.whatsappSendBackoff /\ ok Discord.discordSendBackoff
  /\ ok Telegram.telegramSendBackoff.
Proof.
  assert (forall k, k <= 1 -> 2 ^ Z.min (Z.max k 1 - 1) 4 = 1) as H1.
  { intros k Hk. replace (Z.min (Z.max k 1 - 1) 4) with 0 by lia. reflexivity. }
  assert (forall k, 5 <= k -> 2 ^ Z.min (Z.max k 1 - 1) 4 = 16) as H5.
  { intros k Hk. replace (Z.min (Z.max k 1 - 1) 4) with 4 by lia. reflexivity. }
  cbv zeta.
  unfold WhatsApp.whatsappSendBackoff, Discord.discordSendBackoff,
    Telegram.telegramSendBackoff.
  rewrite !backoff_shape.
  pose proof (backoff_range n). pose proof (backoff_mono n m).
  repeat split; try tauto; intros Hn;
    first [rewrite (H1 n Hn) | rewrite (H5 n Hn)]; unfold Millisecond; lia.
Qed.

Section RetryAfterFacts.
Variable untilDate : string -> option Z.

Lemma parseRetryAfter_numeric (header : string) (n : Z) :
  Atoi (TrimSpace header) = Some n -> 0 <= n <= 9223372036 ->
  parseRetryAfter untilDate header = n * Second.
Proof.
  intros Ha Hn. unfold parseRetryAfter.
  destruct (isEmpty (TrimSpace header)) eqn:E.
  { apply isEmpty_true in E. rewrite E in Ha. discriminate. }
  rewrite Ha. destruct (Z.leb_spec 0 n); [|lia].
  apply wrap64_small. unfold MinInt64, MaxInt64, Second. lia.
Qed.

(** X7: [sendMessageOnce] returns the error of a request that got no
    response, and the error of reading the response body whatever the
    status code is, also for a 2xx and for a 429.  When the body was read,
    a 2xx is no error, and a 429 is an error that is always retried, with
    a positive wait whatever the Retry-After header holds: a header of n
    seconds (1 <= n <= 9223372036) waits exactly n seconds, a blank header
    or one of 0 seconds waits the backoff. *)
Theorem whatsapp_429_wait (header : string) (attempt : Z) :
  (forall err, sendMessageOnce untilDate (NoResponse err) = Some err)
  /\ (forall status err,
        sendMessageOnce untilDate (Response status header (Some err)) = Some err)
  /\ (forall status, 200 <= status < 300 ->
        sendMessageOnce untilDate (Response status header None) = None)
  /\ exists err w,
      sendMessageOnce untilDate (Response 429 header None) = Some err
      /\ WhatsApp.shouldRetryWhatsAppSend err attempt = (true, w)
      /\ 0 < w
      /\ (forall n, Atoi (TrimSpace header) = Some n -> 1 <= n <= 9223372036 ->
            w = n * Second)
      /\ (TrimSpace header = EmptyString \/ Atoi (TrimSpace header) = Some 0 ->
            w = WhatsApp.whatsappSendBackoff attempt).
Proof.
  split; [reflexivity|]. split; [reflexivity|]. split.
  { intros status Hs. unfold sendMessageOnce.
    destruct (Z.ltb_spec status 200); [lia|]. destruct (Z.leb_spec 300 status); [lia|].
    reflexivity. }
  assert (0 < WhatsApp.whatsappSendBackoff attempt) as Hb.
  { unfold WhatsApp.whatsappSendBackoff. rewrite backoff_shape.
    pose proof (backoff_range attempt). unfold Millisecond in *. lia. }
  set (ra := parseRetryAfter untilDate header).
  exists {| WhatsApp.isCanceled := false; WhatsApp.isDeadline := false;
            WhatsApp.asHTTP := Some (429, ra); WhatsApp.asNet := None |}.
  exists (if 0 <? ra then ra else WhatsApp.whatsappSendBackoff attempt).
  split; [reflexivity|]. split.
  { unfold WhatsApp.shouldRetryWhatsAppSend.
    cbn [WhatsApp.isCanceled WhatsApp.isDeadline WhatsApp.asHTTP orb].
    change (429 =? 429) with true. cbv iota. now destruct (0 <? ra). }
  destruct (Z.ltb_spec 0 ra) as [Hra|Hra].
  - split; [exact Hra|]. split.
    + intros n Ha Hn. subst ra. apply parseRetryAfter_numeric; [exact Ha | lia].
    + intros [He|H0]; exfalso; subst ra.
      * unfold parseRetryAfter in Hra. rewrite He in Hra. cbn in Hra. lia.
      * rewrite (parseRetryAfter_numeric header 0 H0) in Hra by lia. lia.
  - split; [exact Hb|]. split.
    + intros n Ha Hn. exfalso. subst ra.
      rewrite (parseRetryAfter_numeric header n Ha) in Hra by lia.
      unfold Second in Hra. lia.
    + reflexivity.
Qed.

End RetryAfterFacts.

(** X8: The adapters agree on the message to reply to: WhatsApp and Discord
    both answer the trimmed [Delivery.ReplyToID] when it is not blank and the
    trimmed legacy [ReplyTo] otherwise; Telegram answers the first of the two
    that is a positive number, else nothing.  In every case the answer is
    trimmed. *)
Theorem reply_target_resolution (msg : Bus.OutboundMessage) :
  let typed := TrimSpace (Bus.ReplyToID (Bus.Delivery_ msg)) in
  let legacy := TrimSpace (Bus.ReplyTo msg) in
  WhatsApp.resolveWhatsAppReplyTarget msg = Discord.resolveDiscordReplyTarget msg
  /\ Discord.resolveDiscordReplyTarget msg
     = (if isEmpty typed then legacy else typed)
  /\ TrimSpace (Discord.resolveDiscordReplyTarget msg)
     = Discord.resolveDiscordReplyTarget msg
  /\ (Telegram.resolveTelegramReplyTarget msg = typed
      /\ Telegram.positiveInt typed = true
      \/ Telegram.resolveTelegramReplyTarget msg = legacy
         /\ Telegram.positiveInt legacy = true
         /\ Telegram.positiveInt typed = false
      \/ Telegram.resolveTelegramReplyTarget msg = EmptyString
         /\ Telegram.positiveInt typed = false
         /\ Telegram.positiveInt legacy = false).
Proof.
  intros typed legacy.
  unfold WhatsApp.resolveWhatsAppReplyTarget, Discord.resolveDiscordReplyTarget,
    Telegram.resolveTelegramReplyTarget.
  fold typed legacy.
  assert (Telegram.positiveInt EmptyString = false) as Hpe by reflexivity.
  destruct (isEmpty typed) eqn:Et; cbn [negb andb].
  - apply isEmpty_true in Et.
    destruct (isEmpty legacy) eqn:El; cbn [negb andb].
    + apply isEmpty_true in El. rewrite Et, El.
      repeat split; try reflexivity. right. right. auto.
    + repeat split; try reflexivity; [apply TrimSpace_idem|].
      rewrite Et, Hpe.
      destruct (Telegram.positiveInt legacy); [right; left | right; right]; auto.
  - repeat split; try reflexivity; [apply TrimSpace_idem|].
    destruct (Telegram.positiveInt typed) eqn:Ep; [left; auto|].
    destruct (isEmpty legacy) eqn:El; cbn [negb andb].
    + apply isEmpty_true in El. rewrite El, Hpe. right. right. auto.
    + destruct (Telegram.positiveInt legacy); [right; left | right; right]; auto.
Qed.

End SendPathFacts.

(** ** Channel manager: registration, status, restart *)

Section ManagerViewFacts.
Import Manager ManagerView.

Lemma setChannelError_wf (name msg : string) (m : Manager) :
  wellFormed m -> is_Some (channels m !! name) ->
  wellFormed (setChannelError name msg m).
Proof.
  intros [H1 H2] Hreg. unfold setChannelError.
  destruct (Go.isEmpty name) eqn:En; [split; assumption|].
  apply isEmpty_false in En.
  destruct (Go.isEmpty msg) eqn:Em; split; cbn; try exact H1.
  - intros k e Hk. apply lookup_delete_Some in Hk as [_ Hk]. eauto.
  - apply isEmpty_false in Em. intros k e Hk.
    apply lookup_insert_Some in Hk as [[<- <-]|[_ Hk]]; eauto.
Qed.

Lemma startEach_wf (chs : list Channel) : forall m,
  wellFormed m -> Forall (fun ch => is_Some (channels m !! chName ch)) chs ->
  wellFormed (startEach chs m).1.
Proof.
  induction chs as [|ch chs IH]; intros m Hwf Hall; cbn; [exact Hwf|].
  inversion Hall as [|? ? Hch Hrest]; subst.
  specialize (IH (setChannelError (chName ch) EmptyString m)
                 (setChannelError_wf _ _ _ Hwf Hch)).
  destruct (setChannelError_fields (chName ch) EmptyString m) as (Hc & _).
  rewrite Hc in IH. specialize (IH Hrest).
  now destruct (startEach chs _).
Qed.

Lemma stopEach_wf (chs : list Channel) : forall m,
  wellFormed m -> Forall (fun ch => is_Some (channels m !! chName ch)) chs ->
  wellFormed (stopEach chs m).1.
Proof.
  induction chs as [|ch chs IH]; intros m Hwf Hall; cbn; [exact Hwf|].
  inversion Hall as [|? ? Hch Hrest]; subst.
  set (m1 := match chStop ch with
             | Some err => setChannelError (chName ch) (errText err) m
             | None => m
             end).
  assert (wellFormed m1 /\ channels m1 = channels m) as [Hwf1 Hc].
  { subst m1. destruct (chStop ch) as [err|]; [|auto].
    split; [now apply setChannelError_wf | apply setChannelError_fields]. }
  specialize (IH m1 Hwf1). rewrite Hc in IH. specialize (IH Hrest).
  now destruct (stopEach chs m1).
Qed.

Lemma snapshot_registered (m : Manager) :
  (forall k ch, channels m !! k = Some ch -> chName ch = k) ->
  Forall (fun ch => is_Some (channels m !! chName ch)) (snapshot m).
Proof.
  intros H1. apply Forall_forall. intros ch Hin.
  destruct (snapshot_sound m ch Hin) as [k Hk].
  rewrite (H1 k ch Hk). eauto.
Qed.

Lemma reachable_wf (m : Manager) : reachable m -> wellFormed m.
Proof.
  induction 1 as [|ch m _ IH|m _ IH|m _ IH|ch m _ IH Hreg|msg m _ IH].
  - split; intros k x Hk; cbn in Hk; rewrite lookup_empty in Hk; discriminate.
  - destruct ch as [ch|]; [|exact IH]. destruct IH as [H1 H2]. split; cbn.
    + intros k c Hk. apply lookup_insert_Some in Hk as [[<- <-]|[_ Hk]]; eauto.
    + intros k e Hk. destruct (H2 k e Hk) as (?&?&Hs). repeat split; auto.
      destruct (decide (chName ch = k)) as [->|Hne].
      * rewrite lookup_insert_eq. eauto.
      * now rewrite lookup_insert_ne.
  - unfold StartAll. destruct (running m); [exact IH|].
    match goal with |- context [startEach ?c ?x] =>
      pose proof (startEach_wf c x) as Hs end.
    destruct (startEach _ _) as [m2 ev]. cbn in *. apply Hs.
    + exact IH.
    + apply (snapshot_registered m), IH.
  - unfold StopAll. destruct (stopOnce m); [exact IH|].
    match goal with |- context [stopEach ?c ?x] =>
      pose proof (stopEach_wf c x) as Hs end.
    destruct (stopEach _ _) as [m2 ev]. cbn in *. apply Hs.
    + exact IH.
    + apply (snapshot_registered m), IH.
  - unfold startExited. destruct (chStart ch) as [err|]; [|exact IH].
    destruct (isCanceled err); [exact IH|]. now apply setChannelError_wf.
  - unfold dispatchOne.
    destruct (channels m !! Bus.Channel msg) as [ch|] eqn:Hc; [|exact IH].
    destruct (chSend ch msg) as [err|]; [|exact IH].
    destruct (isCanceled err); cbn; [exact IH|].
    apply setChannelError_wf; [exact IH|]. rewrite Hc. eauto.
Qed.

(** X9: In every manager a program can build, each channel is registered under
    its own name, and each recorded last error is a non-empty text filed
    under the non-empty name of a registered channel. *)
Theorem manager_errors_belong_to_channels (m : Manager) :
  reachable m ->
  (forall k ch, channels m !! k = Some ch -> chName ch = k)
  /\ (forall k e, lastErrorByChannel m !! k = Some e ->
        e <> EmptyString /\ k <> EmptyString /\ is_Some (channels m !! k)).
Proof. exact (reachable_wf m). Qed.

Lemma manager_errors_belong_to_channels_witness :
  lastErrorByChannel Fixtures.afterFailedSend !! "stub" = Some "send failed"
  /\ "send failed" <> EmptyString /\ "stub" <> EmptyString
  /\ is_Some (channels Fixtures.afterFailedSend !! "stub").
Proof.
  split; [vm_compute; reflexivity|].
  apply (proj2 (manager_errors_belong_to_channels Fixtures.afterFailedSend
                  (reach_dispatch _ _ (reach_start _ (reach_add _ _ reach_new))))).
  vm_compute; reflexivity.
Defined.

Lemma startEach_subset (chs : list Channel) : forall m k e,
  lastErrorByChannel (startEach chs m).1 !! k = Some e ->
  lastErrorByChannel m !! k = Some e.
Proof.
  induction chs as [|ch chs IH]; intros m k e; cbn; [auto|].
  specialize (IH (setChannelError (chName ch) EmptyString m) k e).
  destruct (startEach chs _) as [m2 ev]. cbn in *. intros H.
  specialize (IH H). unfold setChannelError in IH.
  destruct (Go.isEmpty (chName ch)); [exact IH|]. cbn in IH.
  now apply lookup_delete_Some in IH as [_ IH].
Qed.

Lemma startEach_clears (chs : list Channel) : forall m ch,
  ch ∈ chs -> chName ch <> EmptyString ->
  lastErrorByChannel (startEach chs m).1 !! chName ch = None.
Proof.
  induction chs as [|c chs IH]; intros m ch Hin Hne; [now inversion Hin|].
  cbn. pose proof (startEach_subset chs
    (setChannelError (chName c) EmptyString m) (chName ch)) as Hsub.
  specialize (IH (setChannelError (chName c) EmptyString m) ch).
  destruct (startEach chs _) as [m2 ev]. cbn in *.
  apply elem_of_cons in Hin as [->|Hin]; [|auto].
  destruct (lastErrorByChannel m2 !! chName c) as [e|] eqn:E; [|reflexivity].
  specialize (Hsub e eq_refl). rewrite setChannelError_lookup in Hsub.
  destruct (Go.isEmpty (chName c)) eqn:En; [|discriminate].
  now apply isEmpty_true in En.
Qed.

Lemma StartAll_state (m : Manager) :
  running m = false ->
  StartAll m =
  ((startEach (snapshot m)
      {| channels := channels m; running := true; stopOnce := stopOnce m;
         lastErrorByChannel := lastErrorByChannel m |}).1,
   SpawnDispatcher :: map (fun ch => StartCall (chName ch)) (snapshot m)).
Proof.
  intros Hr. unfold StartAll. rewrite Hr.
  match goal with |- context [startEach ?c ?x] =>
    pose proof (startEach_events c x) as He end.
  destruct (startEach _ _) as [m2 ev]. cbn in *. now rewrite He.
Qed.

(** X10: [Add] then [Require]: a channel is found under its own name, the last
    one added under a name replaces the earlier ones, other names are not
    affected, adding nil changes nothing, and a name never added is
    answered with [channel not found: <name>] and no channel. *)
Theorem add_require_round_trip (m : Manager) (ch ch' : Channel) (name : string) :
  Require (chName ch) (Add (Some ch) m) = inl ch
  /\ (chName ch' = chName ch ->
      Require (chName ch) (Add (Some ch') (Add (Some ch) m)) = inl ch')
  /\ (name <> chName ch -> Require name (Add (Some ch) m) = Require name m)
  /\ Add None m = m
  /\ Require name NewManager = inr ("channel not found: " +:+ name)
  /\ (forall c, Require name m = inl c <-> channels m !! name = Some c).
Proof.
  unfold Require. split; [|split; [|split; [|split; [|split]]]].
  - cbn. now rewrite lookup_insert_eq.
  - intros <-. cbn. now rewrite lookup_insert_eq.
  - intros Hne. cbn. rewrite lookup_insert_ne; [reflexivity|congruence].
  - reflexivity.
  - reflexivity.
  - intros c. destruct (channels m !! name); split; congruence.
Qed.

Lemma step_untouched (name : string) (o : op) (m : Manager) (e : string) :
  touches name o = false ->
  lastErrorByChannel (step o m).1 !! name = Some e ->
  lastErrorByChannel m !! name = Some e.
Proof.
  destruct o as [ch| | |ch|msg]; cbn [touches step]; intros Ht.
  - now destruct ch.
  - unfold StartAll. destruct (running m); [auto|].
    match goal with |- context [startEach ?c ?x] =>
      pose proof (startEach_subset c x name e) as Hs end.
    destruct (startEach _ _) as [m2 ev]. exact Hs.
  - discriminate.
  - apply String.eqb_neq in Ht. cbn [fst]. unfold startExited.
    destruct (chStart ch) as [err|]; [|auto].
    destruct (isCanceled err); [auto|].
    rewrite setChannelError_other by congruence. auto.
  - apply String.eqb_neq in Ht. unfold dispatchOne.
    destruct (channels m !! Bus.Channel msg) as [ch|]; [|auto].
    destruct (chSend ch msg) as [err|]; [|auto].
    destruct (isCanceled err); cbn [negb fst]; [auto|].
    rewrite setChannelError_other by congruence. auto.
Qed.

Lemma run_untouched (name : string) (ops : list op) : forall (m : Manager) (e : string),
  Forall (fun o => touches name o = false) ops ->
  lastErrorByChannel (run ops m).1 !! name = Some e ->
  lastErrorByChannel m !! name = Some e.
Proof.
  induction ops as [|o ops IH]; intros m e Hall; cbn [run]; [auto|].
  inversion Hall as [|? ? Ho Hops]; subst.
  pose proof (step_untouched name o m e Ho) as Hstep.
  destruct (step o m) as [m1 ev1]. specialize (IH m1 e Hops).
  destruct (run ops m1) as [m2 ev2]. cbn [fst] in *. auto.
Qed.

Lemma setChannelError_clear_subset (k name : string) (m : Manager) (e : string) :
  lastErrorByChannel (setChannelError k EmptyString m) !! name = Some e ->
  lastErrorByChannel m !! name = Some e.
Proof.
  unfold setChannelError. destruct (Go.isEmpty k); [auto|]. cbn.
  intros H. now apply lookup_delete_Some in H as [_ H].
Qed.

Lemma startEachWith_untouched (others : nat -> list op) (name : string)
    (chs : list Channel) : forall (i : nat) (m : Manager) (e : string),
  (forall j, Forall (fun o => touches name o = false) (others j)) ->
  lastErrorByChannel (startEachWith others i chs m).1 !! name = Some e ->
  lastErrorByChannel m !! name = Some e.
Proof.
  induction chs as [|ch chs IH]; intros i m e Hall; cbn [startEachWith]; [auto|].
  pose proof (run_untouched name (others i)
                (setChannelError (chName ch) EmptyString m) e (Hall i)) as Hrun.
  destruct (run (others i) _) as [m2 ev2].
  specialize (IH (S i) m2 e Hall).
  destruct (startEachWith others (S i) chs m2) as [m3 ev3]. cbn [fst] in *.
  intros H. eapply setChannelError_clear_subset. eauto.
Qed.

Lemma startEachWith_clears (others : nat -> list op) (chs : list Channel) :
  forall (i : nat) (m : Manager) (ch : Channel),
  ch ∈ chs -> chName ch <> EmptyString ->
  (forall j, Forall (fun o => touches (chName ch) o = false) (others j)) ->
  lastErrorByChannel (startEachWith others i chs m).1 !! chName ch = None.
Proof.
  induction chs as [|c chs IH]; intros i m ch Hin Hne Hall; [now inversion Hin|].
  cbn [startEachWith].
  pose proof (run_untouched (chName ch) (others i)
                (setChannelError (chName c) EmptyString m)) as Hrun.
  pose proof (startEachWith_untouched others (chName ch) chs (S i)) as Hrest.
  destruct (run (others i) _) as [m2 ev2].
  specialize (IH (S i) m2 ch). specialize (Hrest m2).
  destruct (startEachWith others (S i) chs m2) as [m3 ev3]. cbn [fst] in *.
  apply elem_of_cons in Hin as [->|Hin]; [|auto].
  destruct (lastErrorByChannel m3 !! chName c) as [e|] eqn:E; [|reflexivity].
  specialize (Hrun e (Hall i) (Hrest e Hall eq_refl)).
  rewrite setChannelError_lookup in Hrun.
  destruct (Go.isEmpty (chName c)) eqn:En; [|discriminate].
  now apply isEmpty_true in En.
Qed.

Lemma startEachWith_alone (chs : list Channel) : forall (i : nat) (m : Manager),
  startEachWith (fun _ => []) i chs m = startEach chs m.
Proof.
  induction chs as [|ch chs IH]; intros i m; [reflexivity|].
  cbn [startEachWith startEach run]. rewrite IH.
  now destruct (startEach chs _).
Qed.

Lemma step_quiet (o : op) (m : Manager) :
  running m = true -> stops o = false ->
  running (step o m).1 = true
  /\ List.filter (fun e => negb (isSend e)) (step o m).2 = [].
Proof.
  intros Hr Hs. destruct o as [ch| | |ch|msg]; cbn [step stops] in *.
  - destruct ch; auto.
  - unfold StartAll. rewrite Hr. auto.
  - discriminate.
  - split; [|reflexivity]. cbn [fst]. unfold startExited.
    destruct (chStart ch) as [err|]; [|exact Hr].
    destruct (isCanceled err); [exact Hr|].
    destruct (setChannelError_fields (chName ch) (errText err) m) as (_ & H & _).
    congruence.
  - unfold dispatchOne.
    destruct (channels m !! Bus.Channel msg) as [ch|]; [|auto].
    destruct (chSend ch msg) as [err|]; [|auto].
    destruct (isCanceled err); cbn [negb fst snd]; [auto|].
    destruct (setChannelError_fields (Bus.Channel msg) (errText err) m) as (_ & H & _).
    split; [congruence|reflexivity].
Qed.

Lemma run_quiet (ops : list op) : forall (m : Manager),
  running m = true -> Forall (fun o => stops o = false) ops ->
  running (run ops m).1 = true
  /\ List.filter (fun e => negb (isSend e)) (run ops m).2 = [].
Proof.
  induction ops as [|o ops IH]; intros m Hr Hall; cbn [run]; [auto|].
  inversion Hall as [|? ? Ho Hops]; subst.
  destruct (step_quiet o m Hr Ho) as [H1 H2].
  destruct (step o m) as [m1 ev1]. cbn [fst snd] in *.
  destruct (IH m1 H1 Hops) as [H3 H4].
  destruct (run ops m1) as [m2 ev2]. cbn [fst snd] in *.
  split; [exact H3|]. now rewrite List.filter_app, H2, H4.
Qed.

Lemma startEachWith_quiet (others : nat -> list op) (chs : list Channel) :
  forall (i : nat) (m : Manager),
  running m = true -> (forall j, Forall (fun o => stops o = false) (others j)) ->
  running (startEachWith others i chs m).1 = true
  /\ List.filter (fun e => negb (isSend e)) (startEachWith others i chs m).2
     = map (fun ch => StartCall (chName ch)) chs.
Proof.
  induction chs as [|ch chs IH]; intros i m Hr Hall; cbn [startEachWith]; [auto|].
  destruct (setChannelError_fields (chName ch) EmptyString m) as (_ & Hr1 & _).
  destruct (run_quiet (others i) (setChannelError (chName ch) EmptyString m)
              ltac:(congruence) (Hall i)) as [H1 H2].
  destruct (run (others i) _) as [m2 ev2]. cbn [fst snd] in *.
  destruct (IH (S i) m2 H1 Hall) as [H3 H4].
  destruct (startEachWith others (S i) chs m2) as [m3 ev3]. cbn [fst snd] in *.
  split; [exact H3|]. cbn [List.filter isSend negb map].
  now rewrite List.filter_app, H2, H4.
Qed.

(** X11: [StartAll] on a running manager does nothing.  Otherwise it
    releases the lock before it spawns the dispatcher and, channel by
    channel, clears the last error and spawns the start goroutine, so
    other goroutines act in between.  Whatever they do, when [StartAll]
    returns a channel has a last error only if, while [StartAll] ran, its
    own start goroutine exited, a send to it was dispatched, or a
    [StopAll] ran: every error of an earlier run that nobody reports again
    is cleared.  Unless a [StopAll] ran in between, the manager is then
    running, a second [StartAll] does nothing, and the call has spawned the
    dispatcher once and one start goroutine per registered channel.  With
    no other goroutine acting, the result is that of the sequential
    [StartAll]. *)
Theorem StartAll_idempotent_and_clears (others : nat -> list op) (m : Manager) :
  wellFormed m ->
  (running m = true -> StartAllWith others m = (m, []))
  /\ StartAllWith (fun _ => []) m = StartAll m
  /\ (running m = false ->
      forall name,
        (forall i, Forall (fun o => touches name o = false) (others i)) ->
        lastErrorByChannel (StartAllWith others m).1 !! name = None)
  /\ ((forall i, Forall (fun o => stops o = false) (others i)) ->
      running (StartAllWith others m).1 = true
      /\ StartAll (StartAllWith others m).1 = ((StartAllWith others m).1, [])
      /\ (running m = false ->
          List.filter (fun e => negb (isSend e)) (StartAllWith others m).2
          = SpawnDispatcher :: map (fun ch => StartCall (chName ch)) (snapshot m))).
Proof.
  intros [H1 H2]. split; [|split; [|split]].
  - intros Hr. unfold StartAllWith. now rewrite Hr.
  - unfold StartAllWith, StartAll. destruct (running m); [reflexivity|].
    cbn [run]. rewrite startEachWith_alone.
    now destruct (startEach _ _).
  - intros Hr name Hall. unfold StartAllWith. rewrite Hr.
    set (m1 := {| channels := channels m; running := true;
                  stopOnce := stopOnce m;
                  lastErrorByChannel := lastErrorByChannel m |}).
    pose proof (run_untouched name (others 0%nat) m1) as Hr0.
    destruct (run (others 0%nat) m1) as [m2 ev2].
    pose proof (run_untouched name (others 1%nat) m2) as Hr1.
    destruct (run (others 1%nat) m2) as [m3 ev3].
    pose proof (startEachWith_untouched others name (snapshot m1) 2 m3) as Hsub.
    pose proof (startEachWith_clears others (snapshot m1) 2 m3) as Hclr.
    destruct (startEachWith others 2 (snapshot m1) m3) as [m4 ev4]. cbn [fst] in *.
    destruct (lastErrorByChannel m4 !! name) as [e|] eqn:E; [|reflexivity].
    exfalso.
    pose proof (Hr0 e (Hall 0%nat) (Hr1 e (Hall 1%nat) (Hsub e Hall eq_refl))) as E0.
    cbn in E0. destruct (H2 name e E0) as (_ & Hk & [ch Hch]).
    pose proof (H1 name ch Hch) as Hn. subst name.
    rewrite (Hclr ch) in E; [discriminate| |exact Hk|exact Hall].
    exact (snapshot_complete m _ ch Hch).
  - intros Hall.
    assert (Hrun : running (StartAllWith others m).1 = true
                   /\ (running m = false ->
                       List.filter (fun e => negb (isSend e)) (StartAllWith others m).2
                       = SpawnDispatcher
                           :: map (fun ch => StartCall (chName ch)) (snapshot m))).
    { unfold StartAllWith. destruct (running m) eqn:Hr; [split; [exact Hr|discriminate]|].
      set (m1 := {| channels := channels m; running := true;
                    stopOnce := stopOnce m;
                    lastErrorByChannel := lastErrorByChannel m |}).
      destruct (run_quiet (others 0%nat) m1 eq_refl (Hall 0%nat)) as [A1 A2].
      destruct (run (others 0%nat) m1) as [m2 ev2]. cbn [fst snd] in *.
      destruct (run_quiet (others 1%nat) m2 A1 (Hall 1%nat)) as [B1 B2].
      destruct (run (others 1%nat) m2) as [m3 ev3]. cbn [fst snd] in *.
      destruct (startEachWith_quiet others (snapshot m1) 2 m3 B1 Hall) as [C1 C2].
      destruct (startEachWith others 2 (snapshot m1) m3) as [m4 ev4].
      cbn [fst snd] in *. split; [exact C1|]. intros _.
      rewrite List.filter_app, A2. cbn [List.filter isSend negb app].
      now rewrite List.filter_app, B2, C2. }
    destruct Hrun as [Hrun Hev]. split; [exact Hrun|]. split; [|exact Hev].
    unfold StartAll at 1. now rewrite Hrun.
Qed.

Lemma StartAll_idempotent_and_clears_witness :
  lastErrorByChannel (StopAll Fixtures.afterFailedSend).1.1 !! "stub"
  = Some "send failed"
  /\ lastErrorByChannel
       (StartAllWith Fixtures.othersDuringStart
          (StopAll Fixtures.afterFailedSend).1.1).1 !! "stub" = None.
Proof.
  split; [vm_compute; reflexivity|].
  refine (proj1 (proj2 (proj2
    (StartAll_idempotent_and_clears Fixtures.othersDuringStart
       (StopAll Fixtures.afterFailedSend).1.1
       (reachable_wf _ (reach_stop _
          (reach_dispatch _ _ (reach_start _ (reach_add _ _ reach_new))))))))
    _ "stub" _).
  - reflexivity.
  - intros [|[|[|i]]]; repeat constructor.
Defined.

(** X12: [Status] has one row per registered channel and no other row; the
    row's [running] is the channel's own answer, and its [lastError] is
    present exactly when an error is recorded for the channel, with that
    text.  Every recorded error is shown in some row. *)
Theorem Status_rows (isRunning : Channel -> bool) (m : Manager) :
  reachable m ->
  (forall name,
     Status isRunning m !! name =
     (fun ch => {| rowRunning := isRunning ch;
                   rowLastError := lastErrorByChannel m !! name |})
       <$> channels m !! name)
  /\ (forall name e,
        lastErrorByChannel m !! name = Some e ->
        exists r, Status isRunning m !! name = Some r
                  /\ rowLastError r = Some e).
Proof.
  intros Hreach. destruct (reachable_wf m Hreach) as [H1 H2].
  assert (Hrow : forall name,
     Status isRunning m !! name =
     (fun ch => {| rowRunning := isRunning ch;
                   rowLastError := lastErrorByChannel m !! name |})
       <$> channels m !! name).
  { intros name. unfold Status. rewrite map_lookup_imap.
    destruct (channels m !! name) as [ch|]; [|reflexivity]. cbn.
    destruct (lastErrorByChannel m !! name) as [e|] eqn:E; [|reflexivity].
    destruct (H2 name e E) as (He & _).
    destruct (Go.isEmpty e) eqn:Ee; [|reflexivity].
    now apply isEmpty_true in Ee. }
  split; [exact Hrow|].
  intros name e E. destruct (H2 name e E) as (_ & _ & [ch Hch]).
  rewrite Hrow, Hch. cbn. eexists. split; [reflexivity|]. exact E.
Qed.

Lemma Status_rows_witness :
  exists r,
    Status (fun _ => true) Fixtures.afterFailedSend !! "stub" = Some r
    /\ rowLastError r = Some "send failed".
Proof.
  apply (proj2 (Status_rows (fun _ => true) Fixtures.afterFailedSend
                  (reach_dispatch _ _ (reach_start _ (reach_add _ _ reach_new))))).
  vm_compute; reflexivity.
Defined.

(** X13: After [StopAll], the manager is not running, so a later [StartAll]
    starts every registered channel again; but the [sync.Once] is spent,
    so whatever follows, no channel is ever stopped again. *)
Theorem restart_after_stop_is_never_stopped (m : Manager) (ops : list op) :
  running (StopAll m).1.1 = stopOnce m && running m
  /\ (stopOnce m = false ->
      (StartAll (StopAll m).1.1).2 =
        SpawnDispatcher :: map (fun ch => StartCall (chName ch)) (snapshot m)
      /\ Forall (fun e => isStop e = false)
           (run ops (StartAll (StopAll m).1.1).1).2).
Proof.
  assert (Hstop : stopOnce m = false ->
            running (StopAll m).1.1 = false
            /\ channels (StopAll m).1.1 = channels m).
  { intros Hs. unfold StopAll. rewrite Hs.
    match goal with |- context [stopEach ?c ?x] =>
      destruct (stopEach_fields c x) as (Hc & Hr & _) end.
    destruct (stopEach _ _) as [m2 ev]. cbn in *. auto. }
  split.
  - destruct (stopOnce m) eqn:Hs.
    + unfold StopAll. now rewrite Hs.
    + now destruct (Hstop eq_refl) as [-> _].
  - intros Hs. destruct (Hstop Hs) as [Hr Hc].
    rewrite (StartAll_state _ Hr). cbn [fst snd]. split.
    + unfold snapshot. now rewrite Hc.
    + apply run_keeps_once.
      match goal with |- context [startEach ?c ?x] =>
        destruct (startEach_fields c x) as (_ & _ & Ho) end.
      rewrite Ho. cbn. apply StopAll_fires.
Qed.

End ManagerViewFacts.

(** ** LLM client: when a request starts, and what [Chat] returns *)

Section ChatResult.
Import Go LLM.
Context {R : Type}.
Variable doChat : Z -> R + string.
Variable ctxDone : Z -> option Adapter.CtxErr.

(** X14: [Chat] always makes at least one attempt, that is one call of
    [doChat], and exactly one more than the waits it completed; what it
    returns is the answer to the last attempt: its result; or its error,
    which then was not retryable or came from the last attempt allowed;
    or, when the caller's context ended during the wait after it, the
    context's error.  An attempt need not be an upstream request: for a
    provider that [doChat] does not know, every attempt answers
    "unsupported llm provider" without calling any dialect, [Chat] never
    succeeds, and unless that text itself is retryable it returns it
    after one attempt. *)
Theorem chat_returns_last_answer (t : Timing) (clk : Z) (c : Client) :
  let tr := (Chat doChat ctxDone t clk c).1.2 in
  let n := length (waits tr) in
  (attempts tr = S n
   /\ match (Chat doChat ctxDone t clk c).2 with
      | Ok res => doChat (Z.of_nat n) = inl res
      | Fail err =>
        doChat (Z.of_nat n) = inr err
        /\ (retryable err = false \/ maxTries c <= Z.of_nat n)
      | CtxErr e =>
        ctxDone (Z.of_nat n) = Some e /\ Z.of_nat n < maxTries c
        /\ exists err, doChat (Z.of_nat n) = inr err /\ retryable err = true
      end)
  /\ forall (chat : Z -> LLMProviders.dialect -> string -> R + string)
       (provider model : string),
      LLMProviders.route provider = None ->
      let err := "unsupported llm provider: " +:+ TrimSpace provider in
      let out := Chat (fun k => LLMProviders.doChat (chat k) provider model)
                   ctxDone t clk c in
      (forall k, LLMProviders.doChat (chat k) provider model = inr err)
      /\ match out.2 with
         | Ok _ => False
         | Fail e => e = err
         | CtxErr _ => retryable err = true
         end
      /\ (retryable err = false -> out.1.2 = [Attempt 0] /\ out.2 = Fail err).
Proof.
  cbn zeta.
  assert (Hgen : forall (f : Z -> R + string),
    let tr := (Chat f ctxDone t clk c).1.2 in
    let n := length (waits tr) in
    attempts tr = S n
    /\ match (Chat f ctxDone t clk c).2 with
       | Ok res => f (Z.of_nat n) = inl res
       | Fail err =>
         f (Z.of_nat n) = inr err
         /\ (retryable err = false \/ maxTries c <= Z.of_nat n)
       | CtxErr e =>
         ctxDone (Z.of_nat n) = Some e /\ Z.of_nat n < maxTries c
         /\ exists err, f (Z.of_nat n) = inr err /\ retryable err = true
       end).
  { intros f. cbn zeta. destruct (Chat_trace f ctxDone t clk c) as [-> ->].
    pose proof (maxTries_pos c) as Hmt.
    assert (H0 : 0 <= maxTries c) by lia.
    assert (Hf : (Z.to_nat (maxTries c + 1 - 0) <= Z.to_nat (maxTries c + 1))%nat)
      by lia.
    exact (chatLoop_last f ctxDone _ (maxTries c) 0 (Fail EmptyString) H0 Hf). }
  split; [exact (Hgen doChat)|].
  intros chat provider model Hroute.
  assert (Hall : forall k, LLMProviders.doChat (chat k) provider model
                           = inr ("unsupported llm provider: " +:+ TrimSpace provider)).
  { intros k. unfold LLMProviders.doChat. now rewrite Hroute. }
  split; [exact Hall|]. split.
  - destruct (Hgen (fun k => LLMProviders.doChat (chat k) provider model)) as [_ H].
    cbn beta in H.
    destruct ((Chat (fun k => LLMProviders.doChat (chat k) provider model)
                 ctxDone t clk c).2) as [res|e|x].
    + rewrite Hall in H. discriminate.
    + destruct H as [H _]. rewrite Hall in H. congruence.
    + destruct H as (_ & _ & e & H & Hr). rewrite Hall in H. congruence.
  - intros Hnr.
    destruct (Chat_trace (fun k => LLMProviders.doChat (chat k) provider model)
                ctxDone t clk c) as [-> ->].
    pose proof (maxTries_pos c) as Hmt.
    destruct (Z.to_nat (maxTries c + 1)) as [|fuel] eqn:Hf; [lia|].
    rewrite (chatLoop_fatal (fun k => LLMProviders.doChat (chat k) provider model)
               ctxDone fuel (maxTries c) 0 (Fail EmptyString) _
               ltac:(lia) (Hall 0) Hnr).
    auto.
Qed.

(** X15: The cooldown delays a request no more than needed: the first request
    of a client, and one arriving when the cooldown has passed since the
    previous start, start without sleeping; one arriving earlier sleeps
    the remainder, so that it starts one cooldown after the previous start
    (plus what the sleep and the clock reading add).  In each case the
    call returns [duration] later. *)
Theorem chat_start_time (t : Timing) (clk : Z) (c : Client) :
  validTiming t -> Cooldown c <= MaxInt64 ->
  (forall u, lastReqAt c = Some u -> u <= clk) ->
  let now := clk + before t in
  let c' := (Chat doChat ctxDone t clk c).1.1.2 in
  lastReqAt c' =
    Some (match lastReqAt c with
          | None => now + lag t
          | Some u =>
            if now - u <? cooldown c
            then u + cooldown c + oversleep t + lag t
            else now + lag t
          end)
  /\ (forall s, lastReqAt c' = Some s ->
        (Chat doChat ctxDone t clk c).1.1.1 = s + duration t)
  /\ Cooldown c' = Cooldown c /\ MaxRetries c' = MaxRetries c.
Proof.
  intros (Hb & Ho & Hl & Hd) Hfit Hinv. cbn zeta. unfold Chat.
  pose proof (cooldown_pos c) as Hpos.
  pose proof (cooldown_fits c Hfit) as Hcf.
  destruct (chatLoop _ _ _ _ _ _) as [tr o]. cbn [fst snd lastReqAt Cooldown MaxRetries].
  split; [|split; [intros s [= <-]; reflexivity|split; reflexivity]].
  f_equal. destruct (lastReqAt c) as [u|] eqn:Hu; cbn [Sub].
  - specialize (Hinv u eq_refl). unfold MinInt64, MaxInt64 in *.
    destruct (Z.ltb_spec (Z.max (- 2 ^ 63) (Z.min (2 ^ 63 - 1) (clk + before t - u)))
                (cooldown c)) as [Hlt|Hge];
      destruct (Z.ltb_spec (clk + before t - u) (cooldown c)) as [Hlt'|Hge'];
      try lia.
    assert (Z.max (- 2 ^ 63) (Z.min (2 ^ 63 - 1) (clk + before t - u))
            = clk + before t - u) as -> by lia.
    rewrite wrap64_small by (unfold MinInt64, MaxInt64; lia). lia.
  - unfold MaxInt64 in *.
    destruct (Z.ltb_spec (2 ^ 63 - 1) (cooldown c)); [lia|reflexivity].
Qed.

End ChatResult.

Lemma chat_start_time_witness :
  LLM.lastReqAt
    (LLM.Chat (R := unit) (fun _ => inl tt) (fun _ => None) Samples.timing0 0
       Samples.client2s).1.1.2 = Some 0.
Proof.
  refine (proj1 (chat_start_time (R := unit) (fun _ => inl tt) (fun _ => None)
                   Samples.timing0 0 Samples.client2s _ _ _)).
  - unfold LLM.validTiming; cbn; lia.
  - vm_compute; discriminate.
  - cbn; discriminate.
Defined.

(** ** Telegram adapter: poll timeout and workers *)

Section TelegramConfigFacts.
Import Go TelegramConfig.

(** X16: Whatever numbers are configured, the long-poll timeout is between 1 s
    and 50 s (25 s when none or a negative one is given), the HTTP client's
    timeout is exactly 15 s longer, so a long poll is never cut by it, and
    there are between 1 and 8 workers (2 by default); a value inside its
    range is kept, and clamping again changes nothing. *)
Theorem telegram_timeouts_and_workers (poll workers : Z) :
  1 <= clampTelegramPollTimeout poll <= 50
  /\ (1 <= poll <= 50 -> clampTelegramPollTimeout poll = poll)
  /\ (poll <= 0 -> clampTelegramPollTimeout poll = 25)
  /\ clampTelegramPollTimeout (clampTelegramPollTimeout poll)
     = clampTelegramPollTimeout poll
  /\ pollTimeout poll = clampTelegramPollTimeout poll * Second
  /\ httpTimeout poll = pollTimeout poll + 15 * Second
  /\ 1 <= clampTelegramWorkers workers <= 8
  /\ (1 <= workers <= 8 -> clampTelegramWorkers workers = workers)
  /\ (workers <= 0 -> clampTelegramWorkers workers = 2)
  /\ clampTelegramWorkers (clampTelegramWorkers workers)
     = clampTelegramWorkers workers.
Proof.
  assert (Hp : 1 <= clampTelegramPollTimeout poll <= 50).
  { unfold clampTelegramPollTimeout.
    destruct (Z.leb_spec poll 0); [lia|]. destruct (Z.ltb_spec 50 poll); lia. }
  assert (Hw : 1 <= clampTelegramWorkers workers <= 8).
  { unfold clampTelegramWorkers.
    destruct (Z.leb_spec workers 0); [lia|]. destruct (Z.ltb_spec 8 workers); lia. }
  assert (Hpt : pollTimeout poll = clampTelegramPollTimeout poll * Second).
  { unfold pollTimeout. apply wrap64_small.
    unfold MinInt64, MaxInt64, Second in *. lia. }
  split; [exact Hp|]. split.
  { intros H. unfold clampTelegramPollTimeout.
    destruct (Z.leb_spec poll 0); [lia|]. destruct (Z.ltb_spec 50 poll); lia. }
  split.
  { intros H. unfold clampTelegramPollTimeout.
    destruct (Z.leb_spec poll 0); lia. }
  split.
  { unfold clampTelegramPollTimeout at 1.
    destruct (Z.leb_spec (clampTelegramPollTimeout poll) 0); [lia|].
    destruct (Z.ltb_spec 50 (clampTelegramPollTimeout poll)); lia. }
  split; [exact Hpt|]. split.
  { rewrite Hpt. unfold httpTimeout.
    rewrite (wrap64_small (clampTelegramPollTimeout poll + 15))
      by (unfold MinInt64, MaxInt64; lia).
    rewrite wrap64_small by (unfold MinInt64, MaxInt64, Second; lia).
    unfold Second. lia. }
  split; [exact Hw|]. split.
  { intros H. unfold clampTelegramWorkers.
    destruct (Z.leb_spec workers 0); [lia|]. destruct (Z.ltb_spec 8 workers); lia. }
  split.
  { intros H. unfold clampTelegramWorkers.
    destruct (Z.leb_spec workers 0); lia. }
  unfold clampTelegramWorkers at 1.
  destruct (Z.leb_spec (clampTelegramWorkers workers) 0); [lia|].
  destruct (Z.ltb_spec 8 (clampTelegramWorkers workers)); lia.
Qed.

End TelegramConfigFacts.

(** ** Skill registry: identifiers, refusals, what a clean extraction means *)

Section SkillFacts.
Import Go Skills.
Variable isSameOrChildPath : string -> string -> bool.
Variable finish : string -> FS -> FS * option string.

Lemma extractEntry_ok (t : string) (e : entry) (fs : FS) :
  (extractEntry isSameOrChildPath t e fs).2 = None ->
  Clean (Name e) = "."
  \/ (unsafeName (Name e) = false
      /\ isSameOrChildPath (Join t (Clean (Name e))) t = true
      /\ isSymlink e = false
      /\ (isDirEntry e = true
          \/ (UncompressedSize64 e <= maxSkillZipEntryBytes
              /\ Z.of_nat (String.length (content e)) <= maxSkillZipEntryBytes
              /\ openErr e = None))).
Proof.
  unfold extractEntry, unsafeName.
  destruct (String.eqb_spec (Clean (Name e)) ".") as [Hd|Hd]; [auto|].
  intros H. right. cbn [negb andb].
  destruct (HasPrefix (Clean (Name e)) ".." || IsAbs (Clean (Name e)));
    [discriminate|].
  destruct (isSameOrChildPath (Join t (Clean (Name e))) t); [|discriminate].
  cbn [negb] in H. destruct (isSymlink e); [discriminate|].
  repeat split. destruct (isDirEntry e); [auto|]. right.
  destruct (Z.ltb_spec maxSkillZipEntryBytes (UncompressedSize64 e));
    [discriminate|].
  destruct (MkdirAll _ fs) as [fs1 ok]. destruct ok; [|discriminate].
  cbn [negb] in H. destruct (openErr e); [discriminate|].
  split; [assumption|]. split; [|reflexivity].
  destruct (fs1 !! Join t (Clean (Name e))) as [[|c]|]; [discriminate| |].
  all: match type of H with context [?a <? ?b] =>
         destruct (Z.ltb_spec a b) as [Hlt|Hge]; [discriminate|] end; lia.
Qed.

(** X17: When [extractZipSecure]'s loop reports no error, every entry of the
    archive other than [.] had a path that stays inside the target
    directory, was no symlink, and, unless it was a directory, declared and
    really held at most 8 MiB and could be opened. *)
Theorem clean_extraction_entries_safe (t : string) (entries : list entry)
    (fs : FS) :
  (extractEntries isSameOrChildPath t entries fs).2 = None ->
  Forall (fun e =>
    Clean (Name e) = "."
    \/ (unsafeName (Name e) = false
        /\ isSameOrChildPath (Join t (Clean (Name e))) t = true
        /\ isSymlink e = false
        /\ (isDirEntry e = true
            \/ (UncompressedSize64 e <= maxSkillZipEntryBytes
                /\ Z.of_nat (String.length (content e)) <= maxSkillZipEntryBytes
                /\ openErr e = None)))) entries.
Proof.
  revert fs. induction entries as [|e rest IH]; intros fs H; [constructor|].
  cbn [extractEntries] in H.
  pose proof (extractEntry_ok t e fs) as He.
  destruct (extractEntry isSameOrChildPath t e fs) as [fs1 [err|]];
    [discriminate|].
  constructor; [now apply He | now apply (IH fs1)].
Qed.

(** X18: An identifier that [validateSkillIdentifier] accepts is the input
    with the surrounding white space removed; it is not empty, holds no
    slash, no backslash and no [..]; and validating it again returns it
    unchanged. *)
Theorem accepted_identifier (value s : string) :
  validateSkillIdentifier value = inr s ->
  s = TrimSpace value
  /\ s <> EmptyString
  /\ containsAny s ("/" +:+ backslash) = false
  /\ Contains s ".." = false
  /\ validateSkillIdentifier s = inr s.
Proof.
  unfold validateSkillIdentifier.
  destruct (isEmpty (TrimSpace value)) eqn:He; [discriminate|].
  destruct (containsAny (TrimSpace value) ("/" +:+ backslash)) eqn:Hc;
    [discriminate|].
  destruct (Contains (TrimSpace value) "..") eqn:Hd; [discriminate|].
  cbn [orb]. intros [= <-]. split; [reflexivity|].
  split; [now apply isEmpty_false|]. split; [exact Hc|]. split; [exact Hd|].
  rewrite TrimSpace_idem, He, Hc, Hd. reflexivity.
Qed.

(** X19: Without [force], [Install] leaves an installed skill alone: when the
    target directory exists, the call fails and the file system is what it
    was, whatever else the request and the registry say. *)
Theorem install_without_force_keeps_installed (req : SkillInstallRequest)
    (w : remote) (fs : FS) (slug : string) (n : node) :
  validateSkillIdentifier (Slug req) = inr slug ->
  Force req = false ->
  fs !! Join (Join (Abs (cwd w) (TrimSpace (WorkspaceDir req))) "skills") slug
    = Some n ->
  exists err, Install isSameOrChildPath finish req w fs = (fs, inl err).
Proof.
  intros Hs Hf Hn. unfold Install, prepare. rewrite Hs.
  destruct (validateSkillIdentifier (RegistryName req)) as [e|r];
    [eauto|].
  destruct (negb (String.eqb r "clawhub")); [eauto|].
  destruct (isEmpty (TrimSpace (WorkspaceDir req))); [eauto|].
  rewrite Hn, Hf. cbn [negb andb]. eauto.
Qed.

(** X20: A skill the registry flags as malware is refused before anything is
    downloaded: the error names the skill, the outcome does not depend on
    what a download or the later steps would give, and the target
    directory, created just before, is removed again. *)
Theorem install_refuses_malware (req : SkillInstallRequest) (w : remote)
    (fs fs1 : FS) (slug targetDir version : string) :
  prepare req w fs = (fs1, inr (slug, targetDir, version)) ->
  malwareBlocked w = true ->
  Install isSameOrChildPath finish req w fs
  = (RemoveAll targetDir fs1,
     inl ("skill " +:+ quoted slug
          +:+ " is flagged as malware and cannot be installed"))
  /\ (forall p, under targetDir p = true ->
        (Install isSameOrChildPath finish req w fs).1 !! p = None)
  /\ (forall same' finish' download',
        Install same' finish' req
          {| cwd := cwd w; meta := meta w; download := download' |} fs
        = Install isSameOrChildPath finish req w fs).
Proof.
  intros Hp Hm.
  assert (Hi : forall same' finish' download',
    Install same' finish' req
      {| cwd := cwd w; meta := meta w; download := download' |} fs
    = (RemoveAll targetDir fs1,
       inl ("skill " +:+ quoted slug
            +:+ " is flagged as malware and cannot be installed"))).
  { intros same' finish' download'. unfold Install.
    change (prepare req {| cwd := cwd w; meta := meta w; download := download' |} fs)
      with (prepare req w fs).
    rewrite Hp. unfold fetchAndExtract.
    change (malwareBlocked {| cwd := cwd w; meta := meta w; download := download' |})
      with (malwareBlocked w).
    now rewrite Hm. }
  assert (H0 : Install isSameOrChildPath finish req w fs
    = (RemoveAll targetDir fs1,
       inl ("skill " +:+ quoted slug
            +:+ " is flagged as malware and cannot be installed"))).
  { rewrite <- (Hi isSameOrChildPath finish (download w)). now destruct w. }
  split; [exact H0|]. split.
  - intros p Hu. rewrite H0. now apply RemoveAll_under.
  - intros same' finish' download'. now rewrite Hi, H0.
Qed.

End SkillFacts.

Lemma clean_extraction_entries_safe_witness :
  Forall (fun e =>
    Skills.Clean (Skills.Name e) = "."
    \/ (Skills.unsafeName (Skills.Name e) = false
        /\ Samples.sameOrChild
             (Skills.Join "/ws/skills/github" (Skills.Clean (Skills.Name e)))
             "/ws/skills/github" = true
        /\ Skills.isSymlink e = false
        /\ (Skills.isDirEntry e = true
            \/ (Skills.UncompressedSize64 e <= Skills.maxSkillZipEntryBytes
                /\ Z.of_nat (String.length (Skills.content e))
                   <= Skills.maxSkillZipEntryBytes
                /\ Skills.openErr e = None)))) [Samples.skillEntry].
Proof.
  apply (clean_extraction_entries_safe Samples.sameOrChild "/ws/skills/github"
           [Samples.skillEntry] Samples.fsFresh).
  vm_compute; reflexivity.
Defined.

Lemma accepted_identifier_witness :
  "github" = Go.TrimSpace " github "
  /\ "github" <> EmptyString
  /\ Skills.containsAny "github" ("/" +:+ Skills.backslash) = false
  /\ Go.Contains "github" ".." = false
  /\ Skills.validateSkillIdentifier "github" = inr "github".
Proof.
  apply (accepted_identifier " github " "github"). vm_compute; reflexivity.
Defined.

Lemma install_without_force_keeps_installed_witness :
  exists err,
    Skills.Install Samples.sameOrChild Samples.finishOK (Samples.installReq false)
      Samples.registry Samples.fsInstalled = (Samples.fsInstalled, inl err).
Proof.
  apply (install_without_force_keeps_installed Samples.sameOrChild
           Samples.finishOK (Samples.installReq false) Samples.registry
           Samples.fsInstalled "github" Skills.IsDir).
  - vm_compute; reflexivity.
  - reflexivity.
  - vm_compute; reflexivity.
Defined.

Lemma install_refuses_malware_witness :
  Skills.Install Samples.sameOrChild Samples.finishOK (Samples.installReq false)
    Fixtures.blockedRegistry Samples.fsFresh
  = (Skills.RemoveAll "/ws/skills/github"
       (Skills.prepare (Samples.installReq false) Fixtures.blockedRegistry
          Samples.fsFresh).1,
     inl ("skill " +:+ Skills.quoted "github"
          +:+ " is flagged as malware and cannot be installed")).
Proof.
  refine (proj1 (install_refuses_malware Samples.sameOrChild Samples.finishOK
                   (Samples.installReq false) Fixtures.blockedRegistry
                   Samples.fsFresh _ "github" "/ws/skills/github" EmptyString
                   _ _)).
  - vm_compute; reflexivity.
  - reflexivity.
Defined.

(** ** Discord adapter: what reaches the bus *)

Section DiscordInboundFacts.
Import Go BusIn DiscordInbound.
Variable allowed : string -> bool.

(** X21: [onMessageCreate] publishes at most one message, and only for an
    event with an author who is not a bot and is allowed; what it
    publishes is marked as channel "discord", carries the author's id, a
    trimmed non-empty channel id and content, the session key
    "discord:<channel id>", and a delivery with the trimmed message id that
    is direct exactly when the event has no guild; the reply id is the
    trimmed id of the message reference, or, when that is blank, of the
    referenced message. *)
Theorem discord_publishes_allowed_humans (ev : option Message) (msg : InboundMessage) :
  In msg (onMessageCreate allowed ev) ->
  onMessageCreate allowed ev = [msg]
  /\ exists m author,
      ev = Some m /\ msgAuthor m = Some author
      /\ userBot author = false /\ allowed (userID author) = true
      /\ inChannel msg = "discord" /\ inSenderID msg = userID author
      /\ inChatID msg = TrimSpace (msgChannelID m) /\ inChatID msg <> EmptyString
      /\ inContent msg = TrimSpace (msgContent m) /\ inContent msg <> EmptyString
      /\ TrimSpace (inChatID msg) = inChatID msg
      /\ TrimSpace (inContent msg) = inContent msg
      /\ inSessionKey msg = "discord:" +:+ inChatID msg
      /\ Bus.MessageID (inDelivery msg) = TrimSpace (msgID m)
      /\ Bus.IsDirect (inDelivery msg) = isEmpty (TrimSpace (msgGuildID m))
      /\ Bus.ReplyToID (inDelivery msg)
         = (let ref := from_option TrimSpace EmptyString (MessageReference m) in
            if isEmpty ref
            then from_option TrimSpace EmptyString (ReferencedMessage m)
            else ref).
Proof.
  unfold onMessageCreate. destruct ev as [m|]; [|intros []].
  destruct (msgAuthor m) as [author|] eqn:Ha; [|intros []].
  destruct (userBot author) eqn:Hb; [intros []|].
  destruct (allowed (userID author)) eqn:Hal; cbn [negb]; [|intros []].
  destruct (isEmpty (TrimSpace (msgChannelID m))) eqn:Ec; cbn [orb]; [intros []|].
  destruct (isEmpty (TrimSpace (msgContent m))) eqn:Et; [intros []|].
  intros [<-|[]]. split; [reflexivity|]. exists m, author.
  apply isEmpty_false in Ec, Et. cbn.
  repeat match goal with |- _ /\ _ => split end;
    try reflexivity; try assumption; try apply TrimSpace_idem.
  unfold isEmpty. destruct (MessageReference m) as [r|]; cbn.
  - destruct (String.eqb_spec (TrimSpace r) EmptyString) as [Er|Er];
      [|reflexivity].
    now destruct (ReferencedMessage m).
  - now destruct (ReferencedMessage m).
Qed.

End DiscordInboundFacts.

Lemma discord_publishes_allowed_humans_witness :
  DiscordInbound.onMessageCreate (fun _ => true) (Some Fixtures.discordMessage)
  = [ {| BusIn.inChannel := "discord"; BusIn.inSenderID := "u1";
         BusIn.inChatID := "c1"; BusIn.inContent := "hello";
         BusIn.inSessionKey := "discord:c1";
         BusIn.inDelivery :=
           {| Bus.MessageID := "42"; Bus.ReplyToID := "41";
              Bus.ThreadID := EmptyString; Bus.IsDirect := false |} |} ].
Proof.
  refine (proj1 (discord_publishes_allowed_humans (fun _ => true)
                   (Some Fixtures.discordMessage) _ _)).
  vm_compute. left. reflexivity.
Defined.

(** ** Telegram adapter: falling back to plain text *)

Section TelegramFallback.
Import Go Adapter Telegram.
Variable provider : Z -> option SendErr.
Variable ctxDone : Z -> option CtxErr.
Variable markdownToTelegramHTML : string -> string.

Lemma telegram_loop_events fuel (call : event) : forall n a,
  Forall (fun e => e = call \/ exists d, e = Wait d)
    (sendLoop provider ctxDone fuel call n a).1.1.
Proof.
  induction fuel as [|fuel IH]; intros n a; cbn [sendLoop]; [constructor|].
  destruct (a <=? maxAttempts); [|constructor].
  destruct (provider (n + 1)) as [err|]; [|repeat constructor].
  destruct (shouldRetryTelegramSend err a) as [retry wait].
  destruct (negb retry || (a =? maxAttempts)); [repeat constructor|].
  destruct (ctxDone (n + 1)); [repeat constructor|].
  specialize (IH (n + 1) (a + 1)).
  destruct (sendLoop provider ctxDone fuel call (n + 1) (a + 1)) as [[tr r] n'].
  cbn in *. constructor; [now left|]. constructor; [right; eauto|exact IH].
Qed.

(** X22: A message with content and chat id, on a connected adapter, is first
    sent as rendered HTML, in at most three calls; only when that ends
    with a parse error of Telegram is the unrendered text sent, without a
    parse mode, in at most three more calls to the same chat and reply
    target, and the outcome is then that of the second series.  In every
    other case the outcome is that of the HTML series and nothing else is
    sent. *)
Theorem telegram_plain_text_fallback (msg : Bus.OutboundMessage) :
  let chatID := TrimSpace (Bus.ChatID msg) in
  let text := TrimSpace (Bus.Content msg) in
  let reply := resolveTelegramReplyTarget msg in
  let html := Call chatID (markdownToTelegramHTML text) reply "HTML" in
  let plain := Call chatID text reply EmptyString in
  let first := sendMessageWithRetry provider ctxDone html 0 in
  let out := Send provider ctxDone true markdownToTelegramHTML msg in
  text <> EmptyString -> chatID <> EmptyString ->
  exists tr2,
    out.1 = first.1.1 ++ tr2
    /\ Forall (fun e => e = html \/ exists d, e = Wait d) first.1.1
    /\ Forall (fun e => e = plain \/ exists d, e = Wait d) tr2
    /\ (calls first.1.1 <= 3)%nat /\ (calls tr2 <= 3)%nat
    /\ match first.1.2 with
       | ErrSend err =>
         if isTelegramParseError err
         then (tr2, out.2) = (sendMessageWithRetry provider ctxDone plain first.2).1
         else tr2 = [] /\ out.2 = ErrSend err
       | r => tr2 = [] /\ out.2 = r
       end.
Proof.
  intros chatID text reply html plain first out Ht Hc.
  assert (Hcalls : forall to txt rp mode n,
    (calls (sendMessageWithRetry provider ctxDone (Call to txt rp mode) n).1.1
     <= 3)%nat).
  { intros. unfold sendMessageWithRetry.
    pose proof (telegram_loop_calls provider ctxDone (Z.to_nat maxAttempts + 1)
                  to txt rp mode n 1 ltac:(lia)) as H.
    unfold maxAttempts in *. lia. }
  assert (Hout : out =
    match first.1.2 with
    | ErrSend err =>
      if isTelegramParseError err
      then (first.1.1 ++ (sendMessageWithRetry provider ctxDone plain first.2).1.1,
            (sendMessageWithRetry provider ctxDone plain first.2).1.2)
      else first.1
    | _ => first.1
    end).
  { subst out. unfold Send. fold text chatID reply.
    rewrite (proj2 (isEmpty_false text) Ht), (proj2 (isEmpty_false chatID) Hc).
    cbn [negb]. fold html plain first.
    destruct first as [[tr r] n]. cbn [fst snd].
    destruct r as [|m|e|err]; try reflexivity.
    destruct (isTelegramParseError err); [|reflexivity].
    now destruct (sendMessageWithRetry provider ctxDone plain n) as [[tr2 r2] n2]. }
  pose proof (telegram_loop_events (Z.to_nat maxAttempts + 1) html 0 1) as Hev1.
  fold (sendMessageWithRetry provider ctxDone html 0) in Hev1. fold first in Hev1.
  pose proof (Hcalls chatID (markdownToTelegramHTML text) reply "HTML" 0) as Hc1.
  fold html in Hc1. fold first in Hc1.
  assert (Hnone : forall r, out = first.1 -> first.1.2 = r ->
    exists tr2, out.1 = first.1.1 ++ tr2
      /\ Forall (fun e => e = html \/ exists d, e = Wait d) first.1.1
      /\ Forall (fun e => e = plain \/ exists d, e = Wait d) tr2
      /\ (calls first.1.1 <= 3)%nat /\ (calls tr2 <= 3)%nat
      /\ tr2 = [] /\ out.2 = r).
  { intros r Ho Hr. exists []. rewrite Ho, app_nil_r.
    repeat split; auto; cbn; lia. }
  revert Hout. destruct (first.1.2) as [|m|e|err] eqn:Hr; intros Hout.
  1-3: destruct (Hnone _ Hout eq_refl) as (tr2 & ? & ? & ? & ? & ? & ? & ?);
       exists tr2; auto 10.
  revert Hout. destruct (isTelegramParseError err) eqn:Hp; intros Hout.
  - exists (sendMessageWithRetry provider ctxDone plain first.2).1.1.
    rewrite Hout. cbn [fst snd].
    split; [reflexivity|]. split; [exact Hev1|]. split.
    { apply (telegram_loop_events (Z.to_nat maxAttempts + 1) plain). }
    split; [exact Hc1|]. split; [apply Hcalls|].
    now destruct (sendMessageWithRetry provider ctxDone plain first.2) as [[tr2 r2] n2].
  - destruct (Hnone _ Hout eq_refl) as (tr2 & ? & ? & ? & ? & ? & ? & ?).
    exists tr2. auto 10.
Qed.

End TelegramFallback.

Lemma telegram_plain_text_fallback_witness :
  exists tr2,
    (Telegram.Send Fixtures.rejectsHTML (fun _ => None) true (fun s => s)
       (Samples.helloTo "telegram")).1
    = (Telegram.sendMessageWithRetry Fixtures.rejectsHTML (fun _ => None)
         (Adapter.Call "c1" "hello" EmptyString "HTML") 0).1.1 ++ tr2
    /\ (Adapter.calls tr2 <= 3)%nat.
Proof.
  pose proof (telegram_plain_text_fallback Fixtures.rejectsHTML (fun _ => None)
                (fun s => s) (Samples.helloTo "telegram")) as H.
  cbv zeta in H.
  destruct H as (tr2 & H1 & _ & _ & _ & H5 & _).
  - vm_compute; discriminate.
  - vm_compute; discriminate.
  - exists tr2. split; [exact H1 | exact H5].
Defined.

(** ** Skill registry: what a search returns *)

Section SkillSearchFacts.
Import Go SkillSearch.
Context {Score : Type}.
Variable gt : Score -> Score -> bool.
Variable fetch : string -> Z -> string + (string + list (clawHubSearchResult Score)).

Lemma clampLimit_range (limit : Z) : 1 <= clampLimit limit <= 20.
Proof.
  unfold clampLimit. destruct (Z.leb_spec limit 0); [lia|].
  destruct (Z.ltb_spec 20 limit); lia.
Qed.

Lemma insertStable_In (x y : SkillSearchResult Score) (l : list (SkillSearchResult Score)) :
  In y (insertStable gt x l) <-> y = x \/ In y l.
Proof.
  induction l as [|z l IH]; cbn; [intuition congruence|].
  destruct (gt (srScore z) (srScore x)); cbn; [rewrite IH|]; intuition congruence.
Qed.

Lemma sortStable_In (y : SkillSearchResult Score) (l : list (SkillSearchResult Score)) :
  In y (sortStable gt l) <-> In y l.
Proof.
  unfold sortStable. induction l as [|x l IH]; cbn; [tauto|].
  rewrite insertStable_In, IH. intuition congruence.
Qed.

Lemma insertStable_length (x : SkillSearchResult Score) (l : list (SkillSearchResult Score)) :
  length (insertStable gt x l) = S (length l).
Proof.
  induction l as [|z l IH]; cbn; [reflexivity|].
  destruct (gt (srScore z) (srScore x)); cbn; congruence.
Qed.

Lemma sortStable_length (l : list (SkillSearchResult Score)) :
  length (sortStable gt l) = length l.
Proof.
  unfold sortStable. induction l as [|x l IH]; cbn; [reflexivity|].
  now rewrite insertStable_length, IH.
Qed.

Lemma resultOf_fields (item : clawHubSearchResult Score) (r : SkillSearchResult Score) :
  resultOf item = Some r ->
  srScore r = itScore item
  /\ srSlug r = TrimSpace (deref (itSlug item)) /\ srSlug r <> EmptyString
  /\ srSummary r = TrimSpace (deref (itSummary item)) /\ srSummary r <> EmptyString
  /\ srDisplayName r <> EmptyString
  /\ srRegistryName r = "clawhub".
Proof.
  unfold resultOf.
  destruct (isEmpty (TrimSpace (deref (itSlug item)))) eqn:Es; [discriminate|].
  destruct (isEmpty (TrimSpace (deref (itSummary item)))) eqn:Eu; [discriminate|].
  intros [= <-]. cbn. apply isEmpty_false in Es, Eu.
  repeat split; auto.
  destruct (isEmpty (TrimSpace (deref (itDisplayName item)))) eqn:Ed; [exact Es|].
  now apply isEmpty_false.
Qed.

(** What [Search] returns when it returns results, in terms of the items
    fetched. *)
Lemma Search_results (query : string) (limit : Z) (out : list (SkillSearchResult Score)) :
  Search gt fetch query limit = inr out ->
  TrimSpace query <> EmptyString
  /\ exists items,
      fetch (TrimSpace query) (clampLimit limit) = inr (inr items)
      /\ out = firstn (Z.to_nat (clampLimit limit))
                 (sortStable gt (omap resultOf items)).
Proof.
  unfold Search.
  destruct (isEmpty (TrimSpace query)) eqn:Eq; [discriminate|].
  apply isEmpty_false in Eq. split; [exact Eq|].
  destruct (fetch (TrimSpace query) (clampLimit limit)) as [err|[detail|items]];
    [discriminate..|].
  exists items. split; [reflexivity|].
  destruct (omap resultOf items) as [|r0 rest]; [|congruence].
  injection H as <-. cbn. now rewrite firstn_nil.
Qed.

(** X23: A search that succeeds was made for a non-blank query, with the
    trimmed query and a limit between 1 and 20 (5 when none is given), and
    returns at most that many results; each result comes from an item of
    the response, carries its score, the trimmed non-empty slug and
    summary, a non-empty display name and the registry name "clawhub".  An
    item without slug or summary is never returned. *)
Theorem search_results_wellformed (query : string) (limit : Z)
    (out : list (SkillSearchResult Score)) :
  Search gt fetch query limit = inr out ->
  TrimSpace query <> EmptyString
  /\ 1 <= clampLimit limit <= 20
  /\ (1 <= limit <= 20 -> clampLimit limit = limit)
  /\ Z.of_nat (length out) <= clampLimit limit
  /\ exists items,
      fetch (TrimSpace query) (clampLimit limit) = inr (inr items)
      /\ (length out <= length items)%nat
      /\ Forall (fun r =>
           exists item, In item items /\ resultOf item = Some r
             /\ srScore r = itScore item
             /\ srSlug r = TrimSpace (deref (itSlug item))
             /\ srSlug r <> EmptyString
             /\ srSummary r = TrimSpace (deref (itSummary item))
             /\ srSummary r <> EmptyString
             /\ srDisplayName r <> EmptyString
             /\ srRegistryName r = "clawhub") out.
Proof.
  intros H. destruct (Search_results query limit out H) as (Hq & items & Hf & ->).
  pose proof (clampLimit_range limit) as Hr.
  split; [exact Hq|]. split; [exact Hr|]. split.
  { intros Hl. unfold clampLimit. destruct (Z.leb_spec limit 0); [lia|].
    destruct (Z.ltb_spec 20 limit); lia. }
  split.
  { rewrite length_firstn. lia. }
  exists items. split; [exact Hf|]. split.
  { rewrite length_firstn, sortStable_length.
    pose proof (omap_length resultOf items). lia. }
  apply Forall_forall. intros r Hin. apply subseteq_take in Hin.
  apply (proj1 (list_elem_of_In _ _)) in Hin.
  apply (proj1 (sortStable_In _ _)) in Hin.
  apply (proj2 (list_elem_of_In _ _)) in Hin.
  apply (proj1 (list_elem_of_omap _ _ _)) in Hin.
  destruct Hin as (item & Hi & Hr').
  exists item. split; [now apply list_elem_of_In|]. split; [exact Hr'|].
  now apply resultOf_fields.
Qed.

Section Ordered.
(** The scores compare as numbers do: [>] is asymmetric, and [a > c]
    fails whenever [a > b] and [b > c] both fail. *)
Hypothesis gt_asym : forall a b, gt a b = true -> gt b a = false.
Hypothesis gt_negtrans : forall a b c, gt a b = false -> gt b c = false -> gt a c = false.

Lemma insertStable_sorted (x : SkillSearchResult Score) (l : list (SkillSearchResult Score)) :
  StronglySorted (fun a b => gt (srScore b) (srScore a) = false) l ->
  StronglySorted (fun a b => gt (srScore b) (srScore a) = false) (insertStable gt x l).
Proof.
  induction l as [|y l IH]; intros Hs; cbn.
  - constructor; constructor.
  - apply StronglySorted_inv in Hs as [Hs Hy].
    destruct (gt (srScore y) (srScore x)) eqn:E.
    + constructor; [now apply IH|].
      apply Forall_forall. intros z Hz. apply list_elem_of_In, insertStable_In in Hz.
      destruct Hz as [->|Hz]; [now apply gt_asym|].
      rewrite Forall_forall in Hy. now apply Hy, list_elem_of_In.
    + constructor; [now constructor|].
      constructor; [exact E|].
      rewrite Forall_forall in Hy |- *. intros z Hz.
      apply (gt_negtrans _ (srScore y)); [now apply Hy | exact E].
Qed.

Lemma sortStable_sorted (l : list (SkillSearchResult Score)) :
  StronglySorted (fun a b => gt (srScore b) (srScore a) = false) (sortStable gt l).
Proof.
  unfold sortStable. induction l as [|x l IH]; cbn; [constructor|].
  now apply insertStable_sorted.
Qed.

Lemma sorted_app_cross {A : Type} (R : A -> A -> Prop) (l1 l2 : list A) :
  StronglySorted R (l1 ++ l2) ->
  StronglySorted R l1 /\ forall a b, In a l1 -> In b l2 -> R a b.
Proof.
  induction l1 as [|x l1 IH]; cbn; intros Hs.
  - split; [constructor|]. intros a b [].
  - apply StronglySorted_inv in Hs as [Hs Hx]. destruct (IH Hs) as [H1 H2].
    split.
    + constructor; [exact H1|]. apply Forall_app in Hx. tauto.
    + intros a b [<-|Ha] Hb; [|now apply H2].
      rewrite Forall_forall in Hx. apply Hx, list_elem_of_In, in_or_app. now right.
Qed.

(** X24: The results of a search are ordered best first: no result has a
    higher score than one listed before it.  And the limit cuts off the
    worst: a complete item of the response that is not among the results
    has no higher score than any result. *)
Theorem search_results_best_first (query : string) (limit : Z)
    (out : list (SkillSearchResult Score)) :
  Search gt fetch query limit = inr out ->
  StronglySorted (fun a b => gt (srScore b) (srScore a) = false) out
  /\ exists items,
      fetch (TrimSpace query) (clampLimit limit) = inr (inr items)
      /\ forall item r, In item items -> resultOf item = Some r ->
           In r out \/ forall a, In a out -> gt (srScore r) (srScore a) = false.
Proof.
  intros H. destruct (Search_results query limit out H) as (_ & items & Hf & ->).
  pose proof (sortStable_sorted (omap resultOf items)) as Hs.
  rewrite <- (firstn_skipn (Z.to_nat (clampLimit limit))) in Hs.
  apply sorted_app_cross in Hs as [H1 H2].
  split; [exact H1|]. exists items. split; [exact Hf|].
  intros item r Hi Hr.
  assert (In r (sortStable gt (omap resultOf items))) as Hin.
  { apply (proj2 (sortStable_In _ _)), (proj1 (list_elem_of_In _ _)),
      (proj2 (list_elem_of_omap _ _ _)).
    exists item. split; [now apply list_elem_of_In | exact Hr]. }
  rewrite <- (firstn_skipn (Z.to_nat (clampLimit limit))) in Hin.
  apply in_app_or in Hin as [Hin|Hin]; [now left|].
  right. intros a Ha. now apply H2.
Qed.

End Ordered.

(** X25: [findSkills] hands [Search] a query and a limit that [Search] takes
    as they are: the query is trimmed and not blank, the limit is between 1
    and 20 (the configured default, else 5, when none is given), so
    [Search] never answers "query is empty" and fetches with exactly
    these two values. *)
Theorem findSkills_request_normalised (configured : bool) (query q : string)
    (limit default l : Z) :
  findSkillsRequest configured query limit default = inr (q, l) ->
  configured = true
  /\ q = TrimSpace query /\ q <> EmptyString /\ TrimSpace q = q
  /\ 1 <= l <= 20 /\ clampLimit l = l
  /\ (1 <= limit <= 20 -> l = limit)
  /\ (limit <= 0 -> 1 <= default <= 20 -> l = default)
  /\ (limit <= 0 -> default <= 0 -> l = 5)
  /\ Search gt fetch q l =
     match fetch q l with
     | inl err => inl err
     | inr (inl detail) => inl ("failed to parse search response: " +:+ detail)
     | inr (inr items) =>
       inr (firstn (Z.to_nat l) (sortStable gt (omap resultOf items)))
     end.
Proof.
  unfold findSkillsRequest. destruct configured; cbn [negb]; [|discriminate].
  destruct (isEmpty (TrimSpace query)) eqn:Eq; [discriminate|].
  intros [= <- <-]. apply isEmpty_false in Eq.
  set (l1 := if limit <=? 0 then default else limit).
  set (l2 := if l1 <=? 0 then 5 else l1).
  set (l := if 20 <? l2 then 20 else l2).
  assert (Hl : 1 <= l <= 20).
  { subst l l2. destruct (Z.leb_spec l1 0); [cbn; lia|].
    destruct (Z.ltb_spec 20 l1); lia. }
  assert (Hc : clampLimit l = l).
  { unfold clampLimit. destruct (Z.leb_spec l 0); [lia|].
    destruct (Z.ltb_spec 20 l); lia. }
  split; [reflexivity|]. split; [reflexivity|]. split; [exact Eq|].
  split; [apply TrimSpace_idem|]. split; [exact Hl|]. split; [exact Hc|].
  split.
  { intros H. subst l l2 l1. destruct (Z.leb_spec limit 0); [lia|].
    destruct (Z.leb_spec limit 0); [lia|]. destruct (Z.ltb_spec 20 limit); lia. }
  split.
  { intros H Hd. subst l l2 l1. destruct (Z.leb_spec limit 0); [|lia].
    destruct (Z.leb_spec default 0); [lia|]. destruct (Z.ltb_spec 20 default); lia. }
  split.
  { intros H Hd. subst l l2 l1. destruct (Z.leb_spec limit 0); [|lia].
    destruct (Z.leb_spec default 0); [reflexivity|lia]. }
  unfold Search. rewrite TrimSpace_idem, (proj2 (isEmpty_false _) Eq), Hc.
  destruct (fetch (TrimSpace query) l) as [err|[detail|items]]; try reflexivity.
  destruct (omap resultOf items) as [|r0 rest]; [|reflexivity].
  cbn. now rewrite firstn_nil.
Qed.

End SkillSearchFacts.

Lemma search_results_wellformed_witness :
  Z.of_nat (length (firstn 1 (SkillSearch.sortStable Z.gtb
                                (omap SkillSearch.resultOf Fixtures.searchItems))))
  <= SkillSearch.clampLimit 1.
Proof.
  refine (proj1 (proj2 (proj2 (proj2
    (search_results_wellformed Z.gtb Fixtures.searchFetch "git" 1 _ _))))).
  vm_compute; reflexivity.
Defined.

Lemma search_results_best_first_witness :
  StronglySorted
    (fun a b => Z.gtb (SkillSearch.srScore b) (SkillSearch.srScore a) = false)
    (SkillSearch.sortStable Z.gtb (omap SkillSearch.resultOf Fixtures.searchItems)).
Proof.
  refine (proj1 (search_results_best_first Z.gtb Fixtures.searchFetch _ _
                   " git " 0 _ _)).
  - intros a b. rewrite !Z.gtb_ltb. destruct (Z.ltb_spec b a); [|discriminate].
    intros _. destruct (Z.ltb_spec a b); [lia|reflexivity].
  - intros a b c. rewrite !Z.gtb_ltb.
    destruct (Z.ltb_spec b a); [discriminate|].
    destruct (Z.ltb_spec c b); [discriminate|].
    intros _ _. destruct (Z.ltb_spec c a); [lia|reflexivity].
  - vm_compute; reflexivity.
Defined.

Lemma findSkills_request_normalised_witness :
  1 <= 3 <= 20 /\ SkillSearch.clampLimit 3 = 3.
Proof.
  destruct (findSkills_request_normalised Z.gtb Fixtures.searchFetch true
              " git " "git" 0 3 3) as (_ & _ & _ & _ & H1 & H2 & _).
  - vm_compute; reflexivity.
  - split; [exact H1 | exact H2].
Defined.
